(** * A shallow embedding of the Linux file explorer (file_explorer.cpp)

    The C++ class [FileExplorer] keeps one piece of state, the string
    [currentPath], and drives the kernel through a handful of system calls.
    The development below embeds

    - the [std::string] primitives the class relies on ([c_str], [find],
      [find_last_of], [substr], [operator[]]),
    - [searchInDirectory] over the [opendir]/[readdir] interface,
    - the constructor and [changeDirectory] over [getcwd]/[chdir],
    - [copyFileContents], [copyFile] and [changePermissions] over a small
      model of inodes, file descriptors and the system calls they use,
    - [getPermissions], [searchFiles] and [listFiles],
    - [createDirectory], [createFile] and [deleteItem] over the same model,

    and proves the properties the specification states about them, followed
    by further properties of the same functions. *)

From Stdlib Require Import Ascii String ZArith Lia Bool.
From Stdlib.Strings Require Import Byte.
From stdpp Require Import base option list strings gmap sorting pretty.

Open Scope string_scope.
Open Scope list_scope.

(** ** std::string primitives *)

Module Str.

(** [s.c_str()] handed to a system call: the kernel reads up to the first
    NUL character. *)
Fixpoint c_str (s : string) : string :=
  match s with
  | EmptyString => EmptyString
  | String c s' => if Ascii.eqb c "000"%char then EmptyString else String c (c_str s')
  end.

(** [s[i]] for [i <= s.size()]: the character, or NUL at [i = s.size()]. *)
Definition at_ (s : string) (i : nat) : ascii :=
  match String.get i s with
  | Some c => c
  | None => "000"%char
  end.

(** [s.find(pat)]: the first position at which [pat] occurs, [None]
    standing for [npos]. *)
Fixpoint find (s pat : string) : option nat :=
  if String.prefix pat s then Some 0
  else match s with
       | EmptyString => None
       | String _ s' => option_map S (find s' pat)
       end.

(** [s.find_last_of(c)]: the last position of [c]. *)
Fixpoint find_last_of (s : string) (c : ascii) : option nat :=
  match s with
  | EmptyString => None
  | String a s' =>
      match find_last_of s' c with
      | Some i => Some (S i)
      | None => if Ascii.eqb a c then Some 0 else None
      end
  end.

(** [s.substr(0, n)]. *)
Definition substr0 (s : string) (n : nat) : string := String.substring 0 n s.

(** [pat] occurs in [s]. *)
Definition occurs (pat s : string) : Prop :=
  exists pre post, s = pre +:+ pat +:+ post.

(** The invariant of the cursor: a non-empty string whose first character
    is the root separator. *)
Definition absolute (s : string) : Prop :=
  exists rest, s = String "/" rest.

Definition has_slash (s : string) : Prop :=
  exists pre post, s = pre +:+ String "/" post.

End Str.

(** ** Directory enumeration and the recursive search *)

Module Search.

(** The [d_type] hint of a [struct dirent]. *)
Inductive dtype :=
| DT_UNKNOWN | DT_FIFO | DT_CHR | DT_DIR | DT_BLK | DT_REG | DT_LNK | DT_SOCK.

Definition dtype_eqb (a b : dtype) : bool :=
  match a, b with
  | DT_UNKNOWN, DT_UNKNOWN | DT_FIFO, DT_FIFO | DT_CHR, DT_CHR
  | DT_DIR, DT_DIR | DT_BLK, DT_BLK | DT_REG, DT_REG
  | DT_LNK, DT_LNK | DT_SOCK, DT_SOCK => true
  | _, _ => false
  end.

Record dirent := Dirent { d_name : string; d_type : dtype }.

(** What the walk has produced so far: the [results] vector, and the log of
    the paths handed to [opendir]. *)
Record walk := Walk { results : list string; opened : list string }.

Definition start : walk := Walk [] [].

Definition push_back (p : string) (w : walk) : walk :=
  Walk (results w ++ [p]) (opened w).

Definition log_opendir (p : string) (w : walk) : walk :=
  Walk (results w) (opened w ++ [p]).

Definition is_dot (name : string) : bool :=
  String.eqb name "." || String.eqb name "..".

Section Walker.

(** [opendir p] is [None] when the call fails and otherwise the entries
    that the successive [readdir] calls deliver, in their order. *)
Variable opendir : string -> option (list dirent).

(** The body of the [while ((entry = readdir(dir)) != nullptr)] loop;
    [self] is the recursive call. *)
Fixpoint readdir_loop (self : string -> string -> walk -> option walk)
    (path pattern : string) (entries : list dirent) (w : walk) : option walk :=
  match entries with
  | [] => Some w
  | entry :: rest =>
      let name := d_name entry in
      if is_dot name then readdir_loop self path pattern rest w
      else
        let fullPath := path +:+ "/" +:+ name in
        let w1 := match Str.find name pattern with
                  | Some _ => push_back fullPath w
                  | None => w
                  end in
        if dtype_eqb (d_type entry) DT_DIR then
          match self fullPath pattern w1 with
          | Some w2 => readdir_loop self path pattern rest w2
          | None => None
          end
        else readdir_loop self path pattern rest w1
  end.

(** [searchInDirectory]; [fuel] bounds the depth of the recursion, and
    [None] means that the bound was reached. *)
Fixpoint searchInDirectory (fuel : nat) (path pattern : string) (w : walk)
    : option walk :=
  match fuel with
  | O => None
  | S fuel' =>
      let w0 := log_opendir path w in
      match opendir (Str.c_str path) with
      | None => Some w0
      | Some entries =>
          readdir_loop (searchInDirectory fuel') path pattern entries w0
      end
  end.

End Walker.

(** *** Directory trees *)

(** A directory tree as it lies on disk.  Every entry carries the type
    hint that [readdir] reports for it; a directory also records whether
    [opendir] on it succeeds for the calling process. *)
#[local] Unset Elimination Schemes.
Inductive tree :=
| File (name : string) (hint : dtype)
| Dir (name : string) (hint : dtype) (openable : bool) (children : list tree).
#[local] Set Elimination Schemes.

Definition name_of (t : tree) : string :=
  match t with File n _ => n | Dir n _ _ _ => n end.

Definition hint_of (t : tree) : dtype :=
  match t with File _ h => h | Dir _ h _ _ => h end.

Definition entry_of (t : tree) : dirent := Dirent (name_of t) (hint_of t).

Fixpoint drop_dots (es : list dirent) : list dirent :=
  match es with
  | [] => []
  | e :: es' => if is_dot (d_name e) then drop_dots es' else e :: drop_dots es'
  end.

(** The stream of a directory holds its children, in some fixed order, and
    the two pseudo-entries anywhere in between. *)
Definition lists (o : option (list dirent)) (cs : list tree) : Prop :=
  exists es, o = Some es /\ drop_dots es = map entry_of cs.

Section Trees.

Variable opendir : string -> option (list dirent).

(** The kernel serves the entry [t] of the directory [parent]. A
    non-directory is never reported as [DT_DIR]. *)
Fixpoint serves (parent : string) (t : tree) : Prop :=
  match t with
  | File n h => h <> DT_DIR
  | Dir n h false _ => opendir (Str.c_str (parent +:+ "/" +:+ n)) = None
  | Dir n h true cs =>
      lists (opendir (Str.c_str (parent +:+ "/" +:+ n))) cs /\
      fold_right (fun c acc => serves (parent +:+ "/" +:+ n) c /\ acc) True cs
  end.

Definition serves_all (parent : string) (cs : list tree) : Prop :=
  fold_right (fun c acc => serves parent c /\ acc) True cs.

(** The directory [root] can be opened and holds the forest [cs]. *)
Definition holds (root : string) (cs : list tree) : Prop :=
  lists (opendir (Str.c_str root)) cs /\ serves_all root cs.

End Trees.

(** [descendant parent cs full name]: the forest [cs] of the directory
    [parent] has, at some depth, an entry called [name] whose absolute
    path is [full]. *)
Inductive descendant : string -> list tree -> string -> string -> Prop :=
| desc_child parent cs t :
    In t cs -> descendant parent cs (parent +:+ "/" +:+ name_of t) (name_of t)
| desc_deeper parent cs n h o sub full name :
    In (Dir n h o sub) cs ->
    descendant (parent +:+ "/" +:+ n) sub full name ->
    descendant parent cs full name.

(** The walk started on [root] returns, and what it returns are exactly the
    paths of the descendants whose name contains [pattern]. *)
Definition search_exact (opendir : string -> option (list dirent))
    (root : string) (cs : list tree) (pattern : string) : Prop :=
  exists fuel w,
    searchInDirectory opendir fuel root pattern start = Some w /\
    forall p, In p (results w) <->
              exists name, descendant root cs p name /\ Str.occurs pattern name.

(** Every directory can be opened and is reported as a directory. *)
Fixpoint faithful (t : tree) : bool :=
  match t with
  | File _ _ => true
  | Dir _ h o cs => dtype_eqb h DT_DIR && o && forallb faithful cs
  end.

(** The depth of a forest, which bounds the recursion. *)
Fixpoint depth (t : tree) : nat :=
  match t with
  | File _ _ => 0
  | Dir _ _ _ cs => S (fold_right (fun c acc => Nat.max (depth c) acc) 0 cs)
  end.

Definition depth_all (cs : list tree) : nat :=
  fold_right (fun c acc => Nat.max (depth c) acc) 0 cs.

(** Pre-order list of the matching entries that the walk reaches. *)
Fixpoint found (pattern parent : string) (t : tree) : list string :=
  let p := parent +:+ "/" +:+ name_of t in
  (match Str.find (name_of t) pattern with Some _ => [p] | None => [] end) ++
  match t with
  | File _ _ => []
  | Dir _ h o cs =>
      if dtype_eqb h DT_DIR && o
      then flat_map (found pattern p) cs
      else []
  end.

(** Pre-order list of the paths the walk hands to [opendir] below the
    root. *)
Fixpoint walked (parent : string) (t : tree) : list string :=
  let p := parent +:+ "/" +:+ name_of t in
  match t with
  | File _ _ => []
  | Dir _ h o cs =>
      if dtype_eqb h DT_DIR
      then p :: (if o then flat_map (walked p) cs else [])
      else []
  end.


(** *** The example tree of the specification: /a/{b.txt, c/{b_old.txt, d.log}} *)

Definition example_tree : list tree :=
  [ File "b.txt" DT_REG;
    Dir "c" DT_DIR true [ File "b_old.txt" DT_REG; File "d.log" DT_REG ] ].

Definition example_kernel (p : string) : option (list dirent) :=
  if String.eqb p "/a" then
    Some [Dirent "." DT_DIR; Dirent ".." DT_DIR;
          Dirent "b.txt" DT_REG; Dirent "c" DT_DIR]
  else if String.eqb p "/a/c" then
    Some [Dirent "b_old.txt" DT_REG; Dirent "." DT_DIR;
          Dirent "d.log" DT_REG; Dirent ".." DT_DIR]
  else None.

(** The same tree where the directory [c] cannot be opened. *)
Definition locked_tree : list tree :=
  [ File "b.txt" DT_REG;
    Dir "c" DT_DIR false [ File "b_old.txt" DT_REG; File "d.log" DT_REG ] ].

Definition locked_kernel (p : string) : option (list dirent) :=
  if String.eqb p "/a" then
    Some [Dirent "." DT_DIR; Dirent ".." DT_DIR;
          Dirent "b.txt" DT_REG; Dirent "c" DT_DIR]
  else None.

(** The same tree where [readdir] gives no type for the directory [c]. *)
Definition unhinted_tree : list tree :=
  [ File "b.txt" DT_REG;
    Dir "c" DT_UNKNOWN true [ File "b_old.txt" DT_REG; File "d.log" DT_REG ] ].

Definition unhinted_kernel (p : string) : option (list dirent) :=
  if String.eqb p "/a" then
    Some [Dirent "." DT_DIR; Dirent ".." DT_DIR;
          Dirent "b.txt" DT_REG; Dirent "c" DT_UNKNOWN]
  else if String.eqb p "/a/c" then
    Some [Dirent "b_old.txt" DT_REG; Dirent "." DT_DIR;
          Dirent "d.log" DT_REG; Dirent ".." DT_DIR]
  else None.

(** The walk [w] with further results and further opened directories. *)
Definition extend (w : walk) (rs os : list string) : walk :=
  Walk (results w ++ rs) (opened w ++ os).

End Search.

(** ** The cursor: construction and navigation *)

Module Nav.

(** What a call prints besides returning. *)
Inductive report :=
| ChangedTo (p : string)        (* cout: "Changed to: " followed by the cursor *)
| CannotChangeToDirectory.      (* cerr: "Error: Cannot change to directory" *)

(** The constructor: [getcwd(cwd, sizeof(cwd))] either fills the buffer
    ([Some]) or returns [nullptr] ([None]). *)
Definition FileExplorer (getcwd : option string) : string :=
  match getcwd with
  | Some cwd => cwd
  | None => "/"
  end.

(** The first part of [changeDirectory]: the path handed to [chdir]. *)
Definition newPath (currentPath path : string) : string :=
  if String.eqb path ".." then
    match Str.find_last_of currentPath "/" with
    | Some pos => if Nat.eqb pos 0 then "/" else Str.substr0 currentPath pos
    | None => "/"
    end
  else if Ascii.eqb (Str.at_ path 0) "/" then path
  else currentPath +:+ "/" +:+ path.

Record outcome (K : Type) := Outcome {
  returned : bool;          (* the value returned by the call *)
  printed : report;         (* the line it printed *)
  cursor : string;          (* [currentPath] after the call *)
  kernel : K                (* the state of the process after the call *)
}.
Arguments Outcome {K}.
Arguments returned {K}.
Arguments printed {K}.
Arguments cursor {K}.
Arguments kernel {K}.

Section Process.

(** The kernel side of the process ([K] holds, among others, its working
    directory) and [chdir]: [Some k'] when the call returns 0, which moves
    the process, and [None] when it fails, which changes nothing. *)
Variable K : Type.
Variable chdir : K -> string -> option K.

Definition changeDirectory (k : K) (currentPath path : string) : outcome K :=
  let target := newPath currentPath path in
  match chdir k (Str.c_str target) with
  | Some k' => Outcome true (ChangedTo target) target k'
  | None => Outcome false CannotChangeToDirectory currentPath k
  end.

(** A session: the calls of [changeDirectory] for a list of tokens, one
    after the other. *)
Fixpoint navigate_all (k : K) (currentPath : string) (tokens : list string)
    : list (outcome K) :=
  match tokens with
  | [] => []
  | token :: rest =>
      let o := changeDirectory k currentPath token in
      o :: navigate_all (kernel o) (cursor o) rest
  end.

End Process.

(** A kernel for the scenarios: its state is the working directory of the
    process, and the directories that can be entered are /, /x and /x/y. *)
Definition scenario_chdir (cwd : string) (p : string) : option string :=
  if String.eqb p "/" || String.eqb p "/x" || String.eqb p "/x/y"
     || String.eqb p "/x/y/"
  then Some p else None.

End Nav.

(** ** Files: inodes, descriptors and the system calls on them *)

Module Fs.

Open Scope Z_scope.

(** *** Mode bits (the values of <sys/stat.h> on Linux) *)

Definition S_IFMT : Z := 61440.     (* 0170000 *)
Definition S_IFDIR : Z := 16384.    (* 0040000 *)
Definition S_IFREG : Z := 32768.    (* 0100000 *)
Definition S_IRUSR : Z := 256.      (* 0400 *)
Definition S_IWUSR : Z := 128.      (* 0200 *)
Definition S_IROTH : Z := 4.
Definition S_IWOTH : Z := 2.
Definition ALLPERMS : Z := 4095.    (* 07777 *)

Definition S_ISDIR (m : Z) : bool := Z.land m S_IFMT =? S_IFDIR.

(** The permission bits of a mode. *)
Definition perm_bits (m : Z) : Z := Z.land m ALLPERMS.

(** *** The state of the kernel as far as the file operations see it *)

Record inode := Inode {
  i_mode : Z;                 (* st_mode: type and permission bits *)
  i_uid : Z;                  (* owner *)
  i_data : list byte          (* content *)
}.

Record open_file := OpenFile {
  of_ino : nat;               (* the inode the descriptor refers to *)
  of_pos : nat;               (* file offset *)
  of_writable : bool          (* opened with O_WRONLY *)
}.

(** How an upcoming [read] or [write] behaves: it may transfer fewer bytes
    than asked for, or fail. *)
Inductive read_plan := ReadAtMost (n : positive) | ReadFails.
Inductive write_plan := WriteAtMost (n : nat) | WriteFails.

(** The system calls made, with their results ([None] and [false] stand for
    the return value -1). *)
Inductive syscall :=
| SysStat (path : string) (st_mode : option Z)
| SysOpen (path : string) (writing : bool) (fd : option nat)
| SysRead (fd : nat) (count : nat) (result : option nat)
| SysWrite (fd : nat) (count : nat) (result : option nat)
| SysClose (fd : nat)
| SysChmod (path : string) (mode : Z) (ok : bool).

(** A call of [read] that failed, or a call of [write] that did not write
    all the bytes it was given. *)
Definition faulty (e : syscall) : bool :=
  match e with
  | SysRead _ _ None => true
  | SysWrite _ count (Some k) => negb (Nat.eqb k count)
  | SysWrite _ _ None => true
  | _ => false
  end.

(** The lines printed on cout and cerr. *)
Inductive message :=
| CannotOpenSource              (* "Error: Cannot open source file" *)
| CannotCreateDestination       (* "Error: Cannot create destination file" *)
| SourceNotAFile                (* "Error: Source is not a file or doesn't exist" *)
| FileCopied (src dest : string)
| CannotCopyFile                (* "Error: Cannot copy file" *)
| InvalidPermissionFormat       (* "Error: Invalid permission format (use 3 digits, e.g., 755)" *)
| PermissionsChanged (name perms : string)
| CannotChangePermissions.      (* "Error: Cannot change permissions" *)

Record World := MkWorld {
  names : gmap string nat;      (* what each path string resolves to; several
                                   strings may name one inode *)
  inodes : gmap nat inode;
  fds : gmap nat open_file;     (* the descriptor table of the process *)
  euid : Z;                     (* effective user of the process *)
  umask : Z;
  reads : list read_plan;       (* behaviour of the next calls of read *)
  writes : list write_plan;     (* behaviour of the next calls of write *)
  trace : list syscall;         (* calls made so far, oldest first *)
  console : list message        (* lines printed so far, oldest first *)
}.

Definition set_names (f : gmap string nat) (w : World) : World :=
  MkWorld f (inodes w) (fds w) (euid w) (umask w) (reads w) (writes w) (trace w) (console w).
Definition set_inodes (f : gmap nat inode) (w : World) : World :=
  MkWorld (names w) f (fds w) (euid w) (umask w) (reads w) (writes w) (trace w) (console w).
Definition set_fds (f : gmap nat open_file) (w : World) : World :=
  MkWorld (names w) (inodes w) f (euid w) (umask w) (reads w) (writes w) (trace w) (console w).
Definition set_reads (l : list read_plan) (w : World) : World :=
  MkWorld (names w) (inodes w) (fds w) (euid w) (umask w) l (writes w) (trace w) (console w).
Definition set_writes (l : list write_plan) (w : World) : World :=
  MkWorld (names w) (inodes w) (fds w) (euid w) (umask w) (reads w) l (trace w) (console w).
Definition log (e : syscall) (w : World) : World :=
  MkWorld (names w) (inodes w) (fds w) (euid w) (umask w) (reads w) (writes w)
          (trace w ++ [e]) (console w).
Definition print (m : message) (w : World) : World :=
  MkWorld (names w) (inodes w) (fds w) (euid w) (umask w) (reads w) (writes w)
          (trace w) (console w ++ [m]).

(** The inode a path resolves to. *)
Definition lookup_path (w : World) (path : string) : option (nat * inode) :=
  match names w !! path with
  | Some i => match inodes w !! i with
              | Some n => Some (i, n)
              | None => None
              end
  | None => None
  end.

(** The size of the file at [path], 0 if there is none. *)
Definition size_of (w : World) (path : string) : nat :=
  match lookup_path w path with
  | Some (_, n) => length (i_data n)
  | None => 0%nat
  end.

(** Access check against the owner bits or the others bits (groups are not
    modelled); the superuser passes. *)
Definition may (usr oth : Z) (w : World) (n : inode) : bool :=
  (euid w =? 0) ||
  negb (Z.land (i_mode n) (if euid w =? i_uid n then usr else oth) =? 0).

Definition may_read : World -> inode -> bool := may S_IRUSR S_IROTH.
Definition may_write : World -> inode -> bool := may S_IWUSR S_IWOTH.

(** Only the owner and the superuser may change the mode. *)
Definition may_chmod (w : World) (n : inode) : bool :=
  (euid w =? 0) || (euid w =? i_uid n).

(** The directory part of a path. *)
Definition dirname (path : string) : string :=
  match Str.find_last_of path "/" with
  | Some pos => if Nat.eqb pos 0 then "/" else Str.substr0 path pos
  | None => "."
  end.

(** A new file can be made where the directory exists and is writable. *)
Definition may_create (w : World) (path : string) : bool :=
  match lookup_path w (dirname path) with
  | Some (_, d) => S_ISDIR (i_mode d) && may_write w d
  | None => false
  end.

(** *** System calls *)

(** [stat(path, &st) == 0] and [st.st_mode]. *)
Definition sys_stat (path : string) (w : World) : option Z * World :=
  let r := option_map (fun p => i_mode (snd p)) (lookup_path w path) in
  (r, log (SysStat path r) w).

(** A descriptor that is not in use (POSIX takes the lowest one). *)
Definition unused_fd (w : World) : nat := fresh (dom (fds w)).
Arguments unused_fd : simpl never.

(** An inode number that is not in use. *)
Definition unused_ino (w : World) : nat := fresh (dom (inodes w)).
Arguments unused_ino : simpl never.

(** [open(path, O_RDONLY)]. *)
Definition sys_open_rdonly (path : string) (w : World) : option nat * World :=
  match lookup_path w path with
  | Some (i, n) =>
      if may_read w n then
        let fd := unused_fd w in
        (Some fd, log (SysOpen path false (Some fd))
                      (set_fds (<[fd := OpenFile i 0 false]> (fds w)) w))
      else (None, log (SysOpen path false None) w)
  | None => (None, log (SysOpen path false None) w)
  end.

(** [open(path, O_WRONLY | O_CREAT | O_TRUNC, mode)]: an existing file is
    emptied, a missing one is made with [mode & ~umask]. *)
Definition sys_open_trunc (path : string) (mode : Z) (w : World) : option nat * World :=
  match names w !! path with
  | Some i =>
      match inodes w !! i with
      | Some n =>
          if negb (S_ISDIR (i_mode n)) && may_write w n then
            let fd := unused_fd w in
            (Some fd,
             log (SysOpen path true (Some fd))
               (set_fds (<[fd := OpenFile i 0 true]> (fds w))
                 (set_inodes (<[i := Inode (i_mode n) (i_uid n) []]> (inodes w)) w)))
          else (None, log (SysOpen path true None) w)
      | None => (None, log (SysOpen path true None) w)
      end
  | None =>
      if may_create w path then
        let i := unused_ino w in
        let fd := unused_fd w in
        let n := Inode (Z.lor S_IFREG (Z.land mode (Z.lnot (umask w)))) (euid w) [] in
        (Some fd,
         log (SysOpen path true (Some fd))
           (set_fds (<[fd := OpenFile i 0 true]> (fds w))
             (set_inodes (<[i := n]> (inodes w))
               (set_names (<[path := i]> (names w)) w))))
      else (None, log (SysOpen path true None) w)
  end.

(** [read(fd, buffer, count)]: the bytes put into the buffer, their number
    being the return value; [Some []] is end of file. *)
Definition sys_read (fd count : nat) (w : World) : option (list byte) * World :=
  let plan := head (reads w) in
  let w1 := set_reads (tail (reads w)) w in
  let failed := (None, log (SysRead fd count None) w1) in
  match fds w !! fd with
  | Some f =>
      match inodes w !! of_ino f with
      | Some n =>
          if S_ISDIR (i_mode n) then failed
          else
            match plan with
            | Some ReadFails => failed
            | _ =>
                let k := match plan with
                         | Some (ReadAtMost m) => Nat.min count (Pos.to_nat m)
                         | _ => count
                         end in
                let bytes := take k (drop (of_pos f) (i_data n)) in
                (Some bytes,
                 log (SysRead fd count (Some (length bytes)))
                   (set_fds (<[fd := OpenFile (of_ino f) (of_pos f + length bytes)
                                              (of_writable f)]> (fds w)) w1))
            end
      | None => failed
      end
  | None => failed
  end.

(** The content after [bytes] were written at offset [pos]. *)
Definition overwrite (pos : nat) (bytes data : list byte) : list byte :=
  take pos data ++ replicate (pos - length data) x00 ++ bytes
    ++ drop (pos + length bytes) data.

(** [write(fd, buffer, count)] where the first [count] bytes of the buffer
    are [buf]: the number of bytes written. *)
Definition sys_write (fd : nat) (buf : list byte) (w : World) : option nat * World :=
  let plan := head (writes w) in
  let w1 := set_writes (tail (writes w)) w in
  let failed := (None, log (SysWrite fd (length buf) None) w1) in
  match fds w !! fd with
  | Some f =>
      match inodes w !! of_ino f with
      | Some n =>
          if negb (of_writable f) then failed
          else
            match plan with
            | Some WriteFails => failed
            | _ =>
                let k := match plan with
                         | Some (WriteAtMost m) => Nat.min (length buf) m
                         | _ => length buf
                         end in
                let bytes := take k buf in
                (Some k,
                 log (SysWrite fd (length buf) (Some k))
                   (set_fds (<[fd := OpenFile (of_ino f) (of_pos f + k) true]> (fds w))
                     (set_inodes (<[of_ino f := Inode (i_mode n) (i_uid n)
                                      (overwrite (of_pos f) bytes (i_data n))]> (inodes w))
                        w1)))
            end
      | None => failed
      end
  | None => failed
  end.

(** [close(fd)]. *)
Definition sys_close (fd : nat) (w : World) : World :=
  log (SysClose fd) (set_fds (delete fd (fds w)) w).

(** [chmod(path, mode) == 0]: the type bits stay, the permission bits are
    replaced by those of [mode]. *)
Definition sys_chmod (path : string) (mode : Z) (w : World) : bool * World :=
  match lookup_path w path with
  | Some (i, n) =>
      if may_chmod w n then
        (true,
         log (SysChmod path mode true)
           (set_inodes (<[i := Inode (Z.lor (Z.land (i_mode n) S_IFMT) (perm_bits mode))
                                     (i_uid n) (i_data n)]> (inodes w)) w))
      else (false, log (SysChmod path mode false) w)
  | None => (false, log (SysChmod path mode false) w)
  end.

(** *** copyFileContents and copyFile *)

(** The [while ((bytesRead = read(...)) > 0)] loop with what follows it.
    [fuel] bounds the number of passes; [None] means the bound was
    reached. *)
Fixpoint copy_loop (fuel : nat) (srcFd destFd : nat) (w : World)
    : option (bool * World) :=
  match fuel with
  | O => None
  | S fuel' =>
      let '(bytesRead, w1) := sys_read srcFd 4096 w in
      match bytesRead with
      | Some (b :: bs) =>
          let '(written, w2) := sys_write destFd (b :: bs) w1 in
          match written with
          | Some k =>
              if Nat.eqb k (length (b :: bs)) then copy_loop fuel' srcFd destFd w2
              else Some (false, sys_close destFd (sys_close srcFd w2))
          | None => Some (false, sys_close destFd (sys_close srcFd w2))
          end
      | Some [] => Some (true, sys_close destFd (sys_close srcFd w1))
      | None => Some (false, sys_close destFd (sys_close srcFd w1))
      end
  end.

Definition copyFileContents (fuel : nat) (src dest : string) (w : World)
    : option (bool * World) :=
  let '(srcFd, w1) := sys_open_rdonly (Str.c_str src) w in
  match srcFd with
  | None => Some (false, print CannotOpenSource w1)
  | Some srcFd =>
      let '(destFd, w2) := sys_open_trunc (Str.c_str dest) 420 w1 in
      match destFd with
      | None => Some (false, print CannotCreateDestination (sys_close srcFd w2))
      | Some destFd => copy_loop fuel srcFd destFd w2
      end
  end.

Definition copyFile (fuel : nat) (currentPath src dest : string) (w : World)
    : option (bool * World) :=
  let srcPath := currentPath +:+ "/" +:+ src in
  let destPath := currentPath +:+ "/" +:+ dest in
  let '(srcStat, w1) := sys_stat (Str.c_str srcPath) w in
  match srcStat with
  | Some st_mode =>
      if S_ISDIR st_mode then Some (false, print SourceNotAFile w1)
      else
        match copyFileContents fuel srcPath destPath w1 with
        | Some (true, w2) =>
            let '(_, w3) := sys_chmod (Str.c_str destPath) st_mode w2 in
            Some (true, print (FileCopied src dest) w3)
        | Some (false, w2) => Some (false, print CannotCopyFile w2)
        | None => None
        end
  | None => Some (false, print SourceNotAFile w1)
  end.

(** The state of a copy in progress: both descriptors are at offset [pos],
    the source inode [i] holds [data], and the destination inode [j] holds
    the first [pos] bytes of it.  Where source and destination are one
    inode, opening the destination has emptied it. *)
Record copying (i j srcFd destFd : nat) (data : list byte) (pos : nat)
    (w : World) : Prop := Copying {
  cp_fds : srcFd <> destFd;
  cp_src : fds w !! srcFd = Some (OpenFile i pos false);
  cp_dest : fds w !! destFd = Some (OpenFile j pos true);
  cp_source : exists n, inodes w !! i = Some n /\ i_data n = data;
  cp_copied : exists n, inodes w !! j = Some n /\ i_data n = take pos data;
  cp_pos : (pos <= length data)%nat;
  cp_alias : i = j -> data = []
}.

(** [w'] differs from [w] in the inode [j] and the descriptor table at
    most. *)
Definition touches_only (j : nat) (w w' : World) : Prop :=
  names w' = names w /\ euid w' = euid w /\
  forall x, x <> j -> inodes w' !! x = inodes w !! x.

(** Both inodes hold [data]: what holds when the loop has ended with
    [true]. *)
Definition copied (i j : nat) (data : list byte) (w : World) : Prop :=
  exists ni nj,
    inodes w !! i = Some ni /\ inodes w !! j = Some nj /\
    i_data ni = data /\ i_data nj = data.

(** *** changePermissions *)

Section Platform.

(** Whether [char] is a signed type: it is on x86-64 Linux and it is not on
    ARM Linux. *)
Variable char_signed : bool.

(** The value of a [char] once promoted to [int]. *)
Definition char_value (c : ascii) : Z :=
  let n := Z.of_N (N_of_ascii c) in
  if char_signed && (128 <=? n) then n - 256 else n.

(** Conversion of an [int] to [mode_t], an unsigned 32-bit integer. *)
Definition to_mode_t (v : Z) : Z := v mod 2 ^ 32.

(** [((perms[0] - '0') << 6) | ((perms[1] - '0') << 3) | (perms[2] - '0')]. *)
Definition mode_of (perms : string) : Z :=
  to_mode_t
    (Z.lor (Z.lor (Z.shiftl (char_value (Str.at_ perms 0) - char_value "0") 6)
                  (Z.shiftl (char_value (Str.at_ perms 1) - char_value "0") 3))
           (char_value (Str.at_ perms 2) - char_value "0")).

Definition changePermissions (currentPath name perms : string) (w : World)
    : bool * World :=
  let fullPath := currentPath +:+ "/" +:+ name in
  if Nat.eqb (String.length perms) 3 then
    let mode := mode_of perms in
    let '(ok, w1) := sys_chmod (Str.c_str fullPath) mode w in
    if ok then (true, print (PermissionsChanged name perms) w1)
    else (false, print CannotChangePermissions w1)
  else (false, print InvalidPermissionFormat w).

End Platform.

Close Scope Z_scope.

End Fs.

(** ** Worlds for the scenarios *)

Module Demo.

Import Fs.

(** /home, a directory of user 1000 with mode 0755. *)
Definition home : inode := Inode (Z.lor S_IFDIR 493) 1000 [].

(** /home/a.txt, a file of user 1000 with mode 0644 that holds "hello". *)
Definition a_txt : inode := Inode (Z.lor S_IFREG 420) 1000 [x68; x65; x6c; x6c; x6f].

(** /home/b.txt, a file of the superuser that everybody may write (0666). *)
Definition b_txt : inode := Inode (Z.lor S_IFREG 438) 0 [x6f; x6c; x64].

(** The terminal, a character device (mode 020620) of user 1000. *)
Definition tty : inode := Inode (Z.lor 8192 400) 1000 [].

(** The descriptors 0, 1 and 2 of the process are open on the terminal. *)
Definition std_fds : gmap nat open_file :=
  <[2 := OpenFile 0 0 true]> (<[1 := OpenFile 0 0 true]> {[0 := OpenFile 0 0 false]}).

(** User 1000, with the umask 022, in a world with /home and /home/a.txt. *)
Definition world : World :=
  MkWorld (<["/home/a.txt" := 2]> {["/home" := 1]})
          (<[2 := a_txt]> (<[1 := home]> {[0 := tty]}))
          std_fds 1000 18 [] [] [] [].

(** The same world with /home/b.txt in it. *)
Definition shared_world : World :=
  set_inodes (<[3 := b_txt]> (inodes world))
    (set_names (<["/home/b.txt" := 3]> (names world)) world).

(** The first world where reads deliver two bytes at a time and the second
    write takes one byte only. *)
Definition short_write_world : World :=
  set_writes [WriteAtMost 2; WriteAtMost 1]
    (set_reads [ReadAtMost 2; ReadAtMost 2; ReadAtMost 2] world).

(** The first world where the second read fails. *)
Definition read_error_world : World :=
  set_reads [ReadAtMost 2; ReadFails] world.

End Demo.

(** ** getPermissions: the mode as a string of ten characters *)

Module Perm.

Open Scope Z_scope.

Definition S_IXUSR : Z := 64.       (* 0100 *)
Definition S_IRGRP : Z := 32.       (* 0040 *)
Definition S_IWGRP : Z := 16.       (* 0020 *)
Definition S_IXGRP : Z := 8.        (* 0010 *)
Definition S_IXOTH : Z := 1.        (* 0001 *)

(** [(mode & bit) ? c : '-']. *)
Definition flag (mode bit : Z) (c : ascii) : ascii :=
  if Z.land mode bit =? 0 then "-"%char else c.

(** [getPermissions]: the string grows by one character per statement. *)
Definition getPermissions (mode : Z) : string :=
  let perms := EmptyString in
  let perms := perms +:+ String (if Fs.S_ISDIR mode then "d" else "-")%char EmptyString in
  let perms := perms +:+ String (flag mode Fs.S_IRUSR "r") EmptyString in
  let perms := perms +:+ String (flag mode Fs.S_IWUSR "w") EmptyString in
  let perms := perms +:+ String (flag mode S_IXUSR "x") EmptyString in
  let perms := perms +:+ String (flag mode S_IRGRP "r") EmptyString in
  let perms := perms +:+ String (flag mode S_IWGRP "w") EmptyString in
  let perms := perms +:+ String (flag mode S_IXGRP "x") EmptyString in
  let perms := perms +:+ String (flag mode Fs.S_IROTH "r") EmptyString in
  let perms := perms +:+ String (flag mode Fs.S_IWOTH "w") EmptyString in
  let perms := perms +:+ String (flag mode S_IXOTH "x") EmptyString in
  perms.

(** Reading such a string back: the character at one position stands for
    the bit [bit] when it is [c] and for no bit when it is '-'. *)
Definition read_flag (a c : ascii) (bit : Z) : option Z :=
  if Ascii.eqb a c then Some bit
  else if Ascii.eqb a "-" then Some 0
  else None.

Fixpoint read_flags (s : string) (letters : list (ascii * Z)) : option Z :=
  match s, letters with
  | EmptyString, [] => Some 0
  | String a s', (c, bit) :: rest =>
      match read_flag a c bit, read_flags s' rest with
      | Some v, Some vs => Some (v + vs)
      | _, _ => None
      end
  | _, _ => None
  end.

(** Whether the string shows a directory, and the nine permission bits it
    shows. *)
Definition read_permissions (s : string) : option (bool * Z) :=
  match s with
  | String a s' =>
      match read_flag a "d" 1, read_flags s'
              [("r"%char, 256); ("w"%char, 128); ("x"%char, 64);
               ("r"%char, 32); ("w"%char, 16); ("x"%char, 8);
               ("r"%char, 4); ("w"%char, 2); ("x"%char, 1)] with
      | Some d, Some bits => Some (d =? 1, bits)
      | _, _ => None
      end
  | EmptyString => None
  end.

(** The ten characters for a directory flag and nine permission bits. *)
Definition render (dir : bool) (bits : Z) : string :=
  String (if dir then "d" else "-")%char
    (String (flag bits 256 "r") (String (flag bits 128 "w") (String (flag bits 64 "x")
    (String (flag bits 32 "r") (String (flag bits 16 "w") (String (flag bits 8 "x")
    (String (flag bits 4 "r") (String (flag bits 2 "w") (String (flag bits 1 "x")
     EmptyString))))))))).

Close Scope Z_scope.

(** The character of a digit and the string of three digits that a user
    types for a mode, as in 755. *)
Definition digit (d : nat) : ascii := ascii_of_nat (48 + d).

Definition octal (d0 d1 d2 : nat) : string :=
  String (digit d0) (String (digit d1) (String (digit d2) EmptyString)).

End Perm.

(** ** searchFiles: the search from the cursor and its report *)

Module Report.

Import Search.

(** The lines printed by [searchFiles]. *)
Inductive line :=
| Searching (pattern path : string)   (* "Searching for '...' in ..." *)
| NoFilesFound                        (* "No files found matching pattern." *)
| FoundResults (n : nat)              (* "Found n result(s):" *)
| ResultPath (p : string).            (* two blanks and the path *)

Section Walker.

Variable opendir : string -> option (list dirent).

(** [searchFiles]; [None] when the walk runs out of fuel. *)
Definition searchFiles (fuel : nat) (currentPath pattern : string)
    : option (list line) :=
  match searchInDirectory opendir fuel currentPath pattern start with
  | Some w =>
      Some (Searching pattern currentPath ::
            match results w with
            | [] => [NoFilesFound]
            | _ :: _ => FoundResults (length (results w)) :: map ResultPath (results w)
            end)
  | None => None
  end.

End Walker.

(** The kernel that serves an empty stream for every directory that
    [opendir] refuses, and is [opendir] elsewhere. *)
Definition unreadable_as_empty (opendir : string -> option (list dirent))
    (p : string) : option (list dirent) :=
  match opendir p with
  | Some entries => Some entries
  | None => Some []
  end.

(** [p] is the path of an entry called [name] below [root]: a directory
    [root] or [root/...] opens, its stream has an entry of that name, and
    [p] is the path of the directory, a separator and the name. *)
Definition below (opendir : string -> option (list dirent))
    (root name p : string) : Prop :=
  exists rest entries,
    (rest = EmptyString \/ exists r, rest = "/" +:+ r) /\
    opendir (Str.c_str (root +:+ rest)) = Some entries /\
    In name (map d_name entries) /\
    p = (root +:+ rest) +:+ "/" +:+ name.

(** What a walk of [path] adds to the results: paths of entries below
    [path], none of them a pseudo-entry, all with the pattern in their
    name. *)
Definition reported (opendir : string -> option (list dirent))
    (pattern path : string) (w0 w : walk) : Prop :=
  exists new,
    results w = results w0 ++ new /\
    Forall (fun p => exists name, below opendir path name p /\
                                  is_dot name = false /\
                                  Str.occurs pattern name) new.

End Report.

(** ** listFiles *)

Module Listing.

Import Search.

(** The fields of [struct stat] that [listFiles] reads. *)
Record stat_t := Stat {
  st_mode : Z; st_uid : Z; st_gid : Z; st_size : Z; st_mtime : Z
}.

Inductive color := BLUE | GREEN | RESET.

(** One row of the detailed listing: what is handed to the stream, column
    by column, before padding. *)
Record row := Row {
  r_perms : string; r_owner : string; r_group : string; r_size : string;
  r_time : string; r_color : color; r_name : string
}.

Inductive line :=
| CannotOpenDirectory               (* cerr: "Error: Cannot open directory" *)
| CurrentDirectory (path : string)  (* "Current Directory: " and the cursor *)
| Rule (c : ascii)                  (* string(80, c) *)
| ColumnTitles                      (* "Permissions Owner Group Size Modified Name" *)
| Detailed (r : row)
| DirEntry (name : string)          (* "[DIR]  " and the name, in blue *)
| FileEntry (name : string).        (* seven blanks and the name *)

(** [operator<=] of [std::string]: lexicographic on the character codes. *)
Definition string_le (a b : string) : Prop := String.leb a b = true.

#[global] Instance string_le_dec (a b : string) : Decision (string_le a b).
Proof. unfold string_le. apply _. Defined.

(** The result of [std::sort] on a vector of strings: its elements in
    ascending order. *)
Definition sort (l : list string) : list string := merge_sort string_le l.

Section Kernel.

Variable opendir : string -> option (list dirent).
Variable stat : string -> option stat_t.
(** [getpwuid] and [getgrgid]: the name, if the database has one. *)
Variable getpwuid : Z -> option string.
Variable getgrgid : Z -> option string.
(** [formatSize], which computes in floating point, and [strftime] of the
    local time with "%Y-%m-%d %H:%M" are taken as they are. *)
Variable formatSize : Z -> string.
Variable strftime : Z -> string.

(** [to_string] of an unsigned identifier. *)
Definition to_string (id : Z) : string := pretty.pretty (Z.to_N id).

Definition detailed_row (name : string) (st : stat_t) : row :=
  Row (Perm.getPermissions (st_mode st))
      (match getpwuid (st_uid st) with Some n => n | None => to_string (st_uid st) end)
      (match getgrgid (st_gid st) with Some n => n | None => to_string (st_gid st) end)
      (if Fs.S_ISDIR (st_mode st) then "<DIR>" else formatSize (st_size st))
      (strftime (st_mtime st))
      (if Fs.S_ISDIR (st_mode st) then BLUE
       else if Z.eqb (Z.land (st_mode st) Perm.S_IXUSR) 0 then RESET else GREEN)
      name.

(** What the loop over the stream has gathered: the rows printed so far
    and the two vectors. *)
Record gathered := Gathered {
  rows : list row; directories : list string; files : list string
}.

(** The [while ((entry = readdir(dir)) != nullptr)] loop. *)
Fixpoint readdir_loop (detailed : bool) (currentPath : string)
    (entries : list dirent) (g : gathered) : gathered :=
  match entries with
  | [] => g
  | entry :: rest =>
      let name := d_name entry in
      if String.eqb name "." then readdir_loop detailed currentPath rest g
      else
        let fullPath := currentPath +:+ "/" +:+ name in
        match stat (Str.c_str fullPath) with
        | Some fileStat =>
            if detailed then
              readdir_loop detailed currentPath rest
                (Gathered (rows g ++ [detailed_row name fileStat])
                          (directories g) (files g))
            else if Fs.S_ISDIR (st_mode fileStat) then
              readdir_loop detailed currentPath rest
                (Gathered (rows g) (directories g ++ [name]) (files g))
            else
              readdir_loop detailed currentPath rest
                (Gathered (rows g) (directories g) (files g ++ [name]))
        | None => readdir_loop detailed currentPath rest g
        end
  end.

(** [listFiles]: the lines printed. *)
Definition listFiles (currentPath : string) (detailed : bool) : list line :=
  match opendir (Str.c_str currentPath) with
  | None => [CannotOpenDirectory]
  | Some entries =>
      let g := readdir_loop detailed currentPath entries (Gathered [] [] []) in
      [CurrentDirectory currentPath; Rule "="] ++
      (if detailed then [ColumnTitles; Rule "-"] else []) ++
      map Detailed (rows g) ++
      (if detailed then []
       else map DirEntry (sort (directories g)) ++ map FileEntry (sort (files g))) ++
      [Rule "="]
  end.

(** The names of the stream that the listing shows as directories, and as
    files: all entries but "." whose [stat] succeeds. *)
Definition shown (want_dir : bool) (currentPath : string) (entries : list dirent)
    : list string :=
  List.filter
    (fun name =>
       negb (String.eqb name ".") &&
       match stat (Str.c_str (currentPath +:+ "/" +:+ name)) with
       | Some st => Bool.eqb (Fs.S_ISDIR (st_mode st)) want_dir
       | None => false
       end)
    (map d_name entries).

End Kernel.

(** A directory /home for the scenarios, with a file hidden from [stat]. *)
Definition home_entries : list dirent :=
  [Dirent "." DT_DIR; Dirent "notes.txt" DT_REG; Dirent ".." DT_DIR;
   Dirent "src" DT_DIR; Dirent "gone" DT_REG; Dirent "Makefile" DT_REG;
   Dirent "bin" DT_DIR].

Definition home_opendir (p : string) : option (list dirent) :=
  if String.eqb p "/home" then Some home_entries else None.

Definition home_stat (p : string) : option stat_t :=
  if String.eqb p "/home/.." || String.eqb p "/home/src" || String.eqb p "/home/bin"
  then Some (Stat 16877 1000 1000 4096 0)
  else if String.eqb p "/home/notes.txt" || String.eqb p "/home/Makefile"
  then Some (Stat 33188 1000 1000 120 0)
  else None.

End Listing.

(** ** What a copy has written so far *)

Module Copy.

(** The file [j] holds the first [n] bytes of [data]. *)
Definition holds_prefix (j n : nat) (data : list byte) (w : Fs.World) : Prop :=
  exists nj, Fs.inodes w !! j = Some nj /\ Fs.i_data nj = take n data.

End Copy.

(** ** createDirectory, createFile and deleteItem *)

Module Ops.

Import Fs.

Open Scope Z_scope.

(** The line that a call prints on cout or cerr. *)
Inductive notice :=
| DirectoryCreated (name : string)   (* "Directory created: " name *)
| CannotCreateDirectory              (* "Error: Cannot create directory" *)
| FileCreated (name : string)        (* "File created: " name *)
| CannotCreateFile                   (* "Error: Cannot create file" *)
| ItemNotFound                       (* "Error: Item not found" *)
| DirectoryDeleted (name : string)   (* "Directory deleted: " name *)
| CannotDeleteDirectory              (* "Error: Cannot delete directory (may not be empty)" *)
| FileDeleted (name : string)        (* "File deleted: " name *)
| CannotDeleteFile.                  (* "Error: Cannot delete file" *)

(** What a call returns, the one line it prints and the world it leaves. *)
Record reply := Reply {
  ok : bool;
  said : notice;
  after : World
}.

(** *** System calls

    The trace of [Fs] records [stat], [open] and [close]; it has no entry
    for [mkdir], [rmdir] and [unlink], which show by their effect only.

    As in [Fs], a path is the key of [names] as it is spelled: the calls
    speak for the spelling they are given, and two spellings of one path
    (/home and /home/) are two keys.  An inode whose name has been removed
    stays in the table, out of reach by that name. *)

(** Search permission on a directory. *)
Definition may_search : World -> inode -> bool := may Perm.S_IXUSR Perm.S_IXOTH.

(** Whether some name lies directly in the directory [path]. *)
Definition has_entries (w : World) (path : string) : bool :=
  existsb (fun p => String.eqb (dirname p) path && negb (String.eqb p path))
          (map fst (map_to_list (names w))).

(** [mkdir(path, mode) == 0]: fails on a name that exists, makes a
    directory with [mode & ~umask] otherwise. *)
Definition sys_mkdir (path : string) (mode : Z) (w : World) : bool * World :=
  match names w !! path with
  | Some _ => (false, w)
  | None =>
      if may_create w path then
        let i := unused_ino w in
        let n := Inode (Z.lor S_IFDIR (Z.land mode (Z.lnot (umask w)))) (euid w) [] in
        (true, set_inodes (<[i := n]> (inodes w))
                 (set_names (<[path := i]> (names w)) w))
      else (false, w)
  end.

(** [open(path, O_CREAT | O_WRONLY, mode)]: an existing file is opened as
    it is, a missing one is made with [mode & ~umask]. *)
Definition sys_open_creat (path : string) (mode : Z) (w : World) : option nat * World :=
  match names w !! path with
  | Some i =>
      match inodes w !! i with
      | Some n =>
          if negb (S_ISDIR (i_mode n)) && may_write w n then
            let fd := unused_fd w in
            (Some fd,
             log (SysOpen path true (Some fd))
               (set_fds (<[fd := OpenFile i 0 true]> (fds w)) w))
          else (None, log (SysOpen path true None) w)
      | None => (None, log (SysOpen path true None) w)
      end
  | None =>
      if may_create w path then
        let i := unused_ino w in
        let fd := unused_fd w in
        let n := Inode (Z.lor S_IFREG (Z.land mode (Z.lnot (umask w)))) (euid w) [] in
        (Some fd,
         log (SysOpen path true (Some fd))
           (set_fds (<[fd := OpenFile i 0 true]> (fds w))
             (set_inodes (<[i := n]> (inodes w))
               (set_names (<[path := i]> (names w)) w))))
      else (None, log (SysOpen path true None) w)
  end.

(** [rmdir(path) == 0]: the name of an empty directory is removed from a
    directory that the process may write. *)
Definition sys_rmdir (path : string) (w : World) : bool * World :=
  match lookup_path w path with
  | Some (_, n) =>
      if S_ISDIR (i_mode n) && negb (has_entries w path) && may_create w path then
        (true, set_names (delete path (names w)) w)
      else (false, w)
  | None => (false, w)
  end.

(** [unlink(path) == 0]: the name of a file that is not a directory is
    removed from a directory that the process may write; the inode stays
    for the other names and the descriptors that refer to it. *)
Definition sys_unlink (path : string) (w : World) : bool * World :=
  match lookup_path w path with
  | Some (_, n) =>
      if negb (S_ISDIR (i_mode n)) && may_create w path then
        (true, set_names (delete path (names w)) w)
      else (false, w)
  | None => (false, w)
  end.

(** [chdir(path) == 0], in the form that [Nav] takes: the process is its
    working directory and the world. *)
Definition sys_chdir (k : string * World) (path : string) : option (string * World) :=
  match lookup_path (snd k) path with
  | Some (_, n) =>
      if S_ISDIR (i_mode n) && may_search (snd k) n then Some (path, snd k) else None
  | None => None
  end.

(** *** The three functions *)

Definition createDirectory (currentPath name : string) (w : World) : reply :=
  let fullPath := currentPath +:+ "/" +:+ name in
  let '(made, w1) := sys_mkdir (Str.c_str fullPath) 493 w in
  if made then Reply true (DirectoryCreated name) w1
  else Reply false CannotCreateDirectory w1.

Definition createFile (currentPath name : string) (w : World) : reply :=
  let fullPath := currentPath +:+ "/" +:+ name in
  match sys_open_creat (Str.c_str fullPath) 420 w with
  | (Some fd, w1) => Reply true (FileCreated name) (sys_close fd w1)
  | (None, w1) => Reply false CannotCreateFile w1
  end.

Definition deleteItem (currentPath name : string) (w : World) : reply :=
  let fullPath := currentPath +:+ "/" +:+ name in
  match sys_stat (Str.c_str fullPath) w with
  | (None, w1) => Reply false ItemNotFound w1
  | (Some st_mode, w1) =>
      if S_ISDIR st_mode then
        let '(gone, w2) := sys_rmdir (Str.c_str fullPath) w1 in
        if gone then Reply true (DirectoryDeleted name) w2
        else Reply false CannotDeleteDirectory w2
      else
        let '(gone, w2) := sys_unlink (Str.c_str fullPath) w1 in
        if gone then Reply true (FileDeleted name) w2
        else Reply false CannotDeleteFile w2
  end.

Close Scope Z_scope.

End Ops.

(** ** The shape of a directory tree, and what it is to visit all of it *)

Module Shape.

Import Search.


(** No string twice in a list. *)
Fixpoint distinct (l : list string) : bool :=
  match l with
  | [] => true
  | x :: rest => negb (existsb (String.eqb x) rest) && distinct rest
  end.




End Shape.

(** ** What the plans of a world do to a copy *)

Module Plan.

Import Fs.

(** The number of bytes that the next [read] of at most [count] bytes
    delivers when [left] bytes lie ahead of the offset; [None] when the
    call fails. *)
Definition next_read (plan : option read_plan) (count left : nat) : option nat :=
  match plan with
  | Some ReadFails => None
  | Some (ReadAtMost m) => Some (Nat.min (Nat.min count (Pos.to_nat m)) left)
  | None => Some (Nat.min count left)
  end.

(** The number of bytes that the next [write] of [count] bytes takes;
    [None] when the call fails. *)
Definition next_write (plan : option write_plan) (count : nat) : option nat :=
  match plan with
  | Some WriteFails => None
  | Some (WriteAtMost m) => Some (Nat.min count m)
  | None => Some count
  end.

(** Whether, under these plans, a transfer of [left] bytes through a buffer
    of [count] bytes meets within [passes] passes a [read] that fails or a
    [write] that takes fewer bytes than it is given.  Each pass uses up one
    entry of either plan. *)
Fixpoint breaks (count passes left : nat) (reads : list read_plan)
    (writes : list write_plan) : bool :=
  match passes with
  | O => false
  | S passes' =>
      match next_read (head reads) count left with
      | None => true
      | Some O => false
      | Some (S c) =>
          match next_write (head writes) (S c) with
          | None => true
          | Some k =>
              if Nat.eqb k (S c)
              then breaks count passes' (left - S c) (tail reads) (tail writes)
              else true
          end
      end
  end.

(** The same for a file of [size] bytes read from its start through the
    buffer of 4096 bytes, in the world [w]: every pass but the last moves
    at least one byte, so [S size] passes are all there can be. *)
Definition breaks_copy (w : World) (size : nat) : bool :=
  breaks 4096 (S size) size (reads w) (writes w).

End Plan.

(** * Proofs *)

Import Search.

(** ** The recursive search *)

(** *** String facts used by the search *)

Lemma append_cons (a : ascii) (s t : string) :
  String a s +:+ t = String a (s +:+ t).
Proof. reflexivity. Qed.

Lemma append_nil (t : string) : EmptyString +:+ t = t.
Proof. reflexivity. Qed.

Lemma prefix_app (p s : string) :
  String.prefix p s = true <-> exists post, s = p +:+ post.
Proof.
  revert s. induction p as [|a p IH]; intros s; simpl.
  - split; [intros _; exists s; reflexivity | destruct s; reflexivity].
  - destruct s as [|b s]; simpl.
    + split; [discriminate | intros [post H]; discriminate].
    + destruct (Ascii.ascii_dec a b) as [->|Hne].
      * rewrite IH. split; intros [post H]; exists post;
          rewrite append_cons in *; congruence.
      * split; [discriminate|].
        intros [post H]. rewrite append_cons in H. congruence.
Qed.

Lemma find_eq (s pat : string) :
  Str.find s pat =
  if String.prefix pat s then Some 0
  else match s with
       | EmptyString => None
       | String _ s' => option_map S (Str.find s' pat)
       end.
Proof. destruct s; reflexivity. Qed.

Lemma find_occurs (s pat : string) :
  Str.find s pat <> None <-> Str.occurs pat s.
Proof.
  split.
  - induction s as [|a s IH]; rewrite find_eq;
      destruct (String.prefix pat _) eqn:E;
      try (intros _; apply prefix_app in E as [post E]; exists EmptyString, post; exact E).
    + intros H. exfalso. apply H. reflexivity.
    + destruct (Str.find s pat); [|intros H; exfalso; apply H; reflexivity].
      intros _. destruct IH as (pre & post & ->); [discriminate|].
      exists (String a pre), post. reflexivity.
  - intros (pre & post & ->). revert pat post.
    induction pre as [|a pre IH]; intros pat post.
    + rewrite append_nil, find_eq.
      assert (E : String.prefix pat (pat +:+ post) = true)
        by (apply prefix_app; exists post; reflexivity).
      rewrite E. discriminate.
    + rewrite append_cons, find_eq. destruct (String.prefix pat _); [discriminate|].
      specialize (IH pat post). destruct (Str.find _ pat); [discriminate|].
      exfalso. apply IH. reflexivity.
Qed.

(** *** Induction over trees *)

Lemma tree_ind (P : tree -> Prop) :
  (forall n h, P (File n h)) ->
  (forall n h o cs, Forall P cs -> P (Dir n h o cs)) ->
  forall t, P t.
Proof.
  intros Hf Hd. fix IH 1. intros [n h|n h o cs]; [apply Hf|].
  apply Hd. induction cs as [|c cs IHcs]; constructor; [apply IH | exact IHcs].
Qed.

(** *** The walk over a tree *)

Lemma extend_nil w : extend w [] [] = w.
Proof. destruct w; unfold extend; simpl. rewrite !app_nil_r. reflexivity. Qed.

Lemma extend_extend w rs os rs' os' :
  extend (extend w rs os) rs' os' = extend w (rs ++ rs') (os ++ os').
Proof. unfold extend; simpl. rewrite <- !app_assoc. reflexivity. Qed.

Lemma depth_all_cons c cs : depth_all (c :: cs) = Nat.max (depth c) (depth_all cs).
Proof. reflexivity. Qed.

Section Walk.

Variable opendir : string -> option (list dirent).

Lemma readdir_loop_mono self self' path pattern es :
  (forall p q v v', self p q v = Some v' -> self' p q v = Some v') ->
  forall w w',
    readdir_loop self path pattern es w = Some w' ->
    readdir_loop self' path pattern es w = Some w'.
Proof.
  intros Hself. induction es as [|e es IH]; intros w w'; simpl; [trivial|].
  destruct (is_dot (d_name e)); [apply IH|].
  destruct (dtype_eqb (d_type e) DT_DIR); [|apply IH].
  destruct (self _ pattern _) as [w2|] eqn:E; [|discriminate].
  rewrite (Hself _ _ _ _ E). apply IH.
Qed.

Lemma search_fuel_S fuel path pattern w w' :
  searchInDirectory opendir fuel path pattern w = Some w' ->
  searchInDirectory opendir (S fuel) path pattern w = Some w'.
Proof.
  revert path pattern w w'.
  induction fuel as [|fuel IH]; intros path pattern w w'; [discriminate|].
  intros H. simpl in H. change (searchInDirectory opendir (S (S fuel)) path pattern w)
    with (match opendir (Str.c_str path) with
          | None => Some (log_opendir path w)
          | Some entries =>
              readdir_loop (searchInDirectory opendir (S fuel)) path pattern
                entries (log_opendir path w)
          end).
  destruct (opendir (Str.c_str path)) as [es|]; [|exact H].
  revert H. apply readdir_loop_mono. exact IH.
Qed.

(** More fuel does not change a result. *)
Lemma search_fuel_mono fuel fuel' path pattern w w' :
  fuel <= fuel' ->
  searchInDirectory opendir fuel path pattern w = Some w' ->
  searchInDirectory opendir fuel' path pattern w = Some w'.
Proof.
  induction 1 as [|fuel' _ IH]; [trivial|].
  intros H. apply search_fuel_S, IH, H.
Qed.

Lemma readdir_loop_tree fuel pattern :
  (forall root cs w,
      holds opendir root cs -> depth_all cs < fuel ->
      searchInDirectory opendir fuel root pattern w =
      Some (extend w (flat_map (found pattern root) cs)
                     (root :: flat_map (walked root) cs))) ->
  forall es cs path w,
    drop_dots es = map entry_of cs ->
    serves_all opendir path cs ->
    depth_all cs <= fuel ->
    readdir_loop (searchInDirectory opendir fuel) path pattern es w =
    Some (extend w (flat_map (found pattern path) cs)
                   (flat_map (walked path) cs)).
Proof.
  intros Hrec. induction es as [|e es IH]; intros cs path w Hes Hcs Hd.
  - destruct cs; [|discriminate]. simpl. rewrite extend_nil. reflexivity.
  - simpl in Hes |- *. destruct (is_dot (d_name e)) eqn:Edot; [apply IH; assumption|].
    destruct cs as [|c cs]; [discriminate|].
    simpl in Hes. injection Hes as -> Hes.
    destruct Hcs as [Hc Hcs]. rewrite depth_all_cons in Hd.
    assert (Hdc : depth c <= fuel) by lia.
    assert (Hdcs : depth_all cs <= fuel) by lia.
    specialize (IH cs path).
    change (flat_map (found pattern path) (c :: cs))
      with (found pattern path c ++ flat_map (found pattern path) cs).
    change (flat_map (walked path) (c :: cs))
      with (walked path c ++ flat_map (walked path) cs).
    rewrite <- extend_extend.
    set (w1 := match Str.find (d_name (entry_of c)) pattern with
               | Some _ => push_back (path +:+ "/" +:+ d_name (entry_of c)) w
               | None => w
               end).
    assert (Hw1 : w1 = extend w (match Str.find (name_of c) pattern with
                                 | Some _ => [path +:+ "/" +:+ name_of c]
                                 | None => []
                                 end) []).
    { subst w1. simpl. destruct (Str.find (name_of c) pattern).
      - unfold push_back, extend. rewrite app_nil_r. reflexivity.
      - rewrite extend_nil. reflexivity. }
    destruct c as [n h|n h o sub]; simpl d_type.
    + simpl in Hc. destruct (dtype_eqb h DT_DIR) eqn:Eh;
        [destruct h; simpl in Eh; congruence|].
      rewrite (IH w1 Hes Hcs Hdcs), Hw1. simpl. rewrite app_nil_r.
      reflexivity.
    + simpl found. simpl walked.
      destruct (dtype_eqb h DT_DIR) eqn:Eh; simpl.
      * destruct o.
        -- destruct Hc as [Hl Hsub].
           rewrite (Hrec (path +:+ "/" +:+ n) sub);
             [|split; assumption|simpl in Hdc; fold (depth_all sub) in Hdc; lia].
           rewrite (IH _ Hes Hcs Hdcs), Hw1, !extend_extend. simpl.
           rewrite <- !app_assoc. reflexivity.
        -- simpl in Hc, Hdc. destruct fuel as [|fuel']; [lia|].
           simpl. rewrite Hc.
           rewrite (IH _ Hes Hcs Hdcs), Hw1.
           unfold log_opendir, extend; simpl.
           rewrite !app_nil_r, <- !app_assoc. reflexivity.
      * rewrite (IH w1 Hes Hcs Hdcs), Hw1. rewrite !app_nil_r. reflexivity.
Qed.

(** On a tree served by the kernel the walk returns as soon as the fuel
    exceeds the depth, with the matching entries and the opened
    directories in pre-order. *)
Lemma search_tree pattern fuel :
  forall root cs w,
    holds opendir root cs -> depth_all cs < fuel ->
    searchInDirectory opendir fuel root pattern w =
    Some (extend w (flat_map (found pattern root) cs)
                   (root :: flat_map (walked root) cs)).
Proof.
  induction fuel as [|fuel IH]; intros root cs w [Hl Hs] Hd; [lia|].
  destruct Hl as (es & Hopen & Hes). simpl. rewrite Hopen.
  assert (Hd' : depth_all cs <= fuel) by lia.
  rewrite (readdir_loop_tree fuel pattern IH es cs root _ Hes Hs Hd').
  unfold log_opendir, extend; simpl. rewrite <- !app_assoc. reflexivity.
Qed.

End Walk.

(** *** What the pre-order lists contain *)

Lemma found_here pattern parent t :
  Str.occurs pattern (name_of t) ->
  In (parent +:+ "/" +:+ name_of t) (found pattern parent t).
Proof.
  intros H. apply find_occurs in H.
  destruct t; simpl in *; destruct (Str.find _ pattern); try congruence;
    left; reflexivity.
Qed.

(** Every path the walk reports belongs to a matching descendant. *)
Lemma found_sound pattern t :
  forall parent p,
    In p (found pattern parent t) ->
    (p = parent +:+ "/" +:+ name_of t /\ Str.occurs pattern (name_of t)) \/
    exists n h o sub name,
      t = Dir n h o sub /\
      descendant (parent +:+ "/" +:+ n) sub p name /\ Str.occurs pattern name.
Proof.
  induction t as [n h|n h o cs IH] using tree_ind; intros parent p Hin.
  - left. simpl in Hin. rewrite app_nil_r in Hin.
    destruct (Str.find n pattern) eqn:E; [|destruct Hin].
    destruct Hin as [<-|[]]. split; [reflexivity|].
    apply find_occurs. simpl. congruence.
  - simpl in Hin. apply in_app_iff in Hin as [Hin|Hin].
    + left. destruct (Str.find n pattern) eqn:E; [|destruct Hin].
      destruct Hin as [<-|[]]. split; [reflexivity|].
      apply find_occurs. simpl. congruence.
    + right. exists n, h, o, cs.
      destruct (dtype_eqb h DT_DIR && o); [|destruct Hin].
      apply in_flat_map in Hin as (c & Hc & Hin).
      rewrite List.Forall_forall in IH.
      destruct (IH c Hc _ _ Hin) as [[-> Hocc]|(n' & h' & o' & sub & name & -> & Hd & Hocc)].
      * exists (name_of c). repeat split; [|assumption].
        apply desc_child. assumption.
      * exists name. repeat split; [|assumption].
        eapply desc_deeper; eassumption.
Qed.

Lemma found_all_sound pattern cs parent p :
  In p (flat_map (found pattern parent) cs) ->
  exists name, descendant parent cs p name /\ Str.occurs pattern name.
Proof.
  intros Hin. apply in_flat_map in Hin as (c & Hc & Hin).
  destruct (found_sound _ _ _ _ Hin)
    as [[-> Hocc]|(n & h & o & sub & name & -> & Hd & Hocc)].
  - exists (name_of c). split; [apply desc_child|]; assumption.
  - exists name. split; [eapply desc_deeper|]; eassumption.
Qed.

(** On a faithful forest every matching descendant is reported. *)
Lemma found_all_complete pattern parent cs p name :
  descendant parent cs p name ->
  forallb faithful cs = true ->
  Str.occurs pattern name ->
  In p (flat_map (found pattern parent) cs).
Proof.
  induction 1 as [parent cs t Hin|parent cs n h o sub full name Hin Hd IH];
    intros Hf Hocc; apply in_flat_map.
  - exists t. split; [assumption|]. apply found_here. assumption.
  - exists (Dir n h o sub). split; [assumption|].
    rewrite forallb_forall in Hf. specialize (Hf _ Hin). simpl in Hf.
    apply andb_true_iff in Hf as [Hho Hsub].
    simpl. apply in_app_iff. right. rewrite Hho. apply IH; assumption.
Qed.





(** *** Paths of a well-named tree *)

Lemma append_assoc (a b c : string) : (a +:+ b) +:+ c = a +:+ (b +:+ c).
Proof.
  induction a as [|x a IH]; [reflexivity|].
  rewrite !append_cons, IH. reflexivity.
Qed.

Lemma append_empty_r (a : string) : a +:+ EmptyString = a.
Proof.
  induction a as [|x a IH]; [reflexivity|]. rewrite append_cons, IH. reflexivity.
Qed.



Lemma distinct_NoDup (l : list string) : Shape.distinct l = true -> NoDup l.
Proof.
  induction l as [|x l IH]; simpl; [constructor|].
  intros H. apply andb_true_iff in H as [Hx Hl]. constructor; [|auto].
  intros Hin. apply list_elem_of_In in Hin.
  apply negb_true_iff in Hx. assert (Ht : existsb (String.eqb x) l = true).
  { apply existsb_exists. exists x. split; [exact Hin|apply String.eqb_refl]. }
  congruence.
Qed.









Lemma holds_example : holds example_kernel "/a" example_tree.
Proof.
  split.
  - eexists. split; reflexivity.
  - simpl. repeat split; try discriminate.
    eexists. split; reflexivity.
Qed.

Lemma holds_locked : holds locked_kernel "/a" locked_tree.
Proof.
  split.
  - eexists. split; reflexivity.
  - simpl. repeat split; discriminate.
Qed.

Lemma holds_unhinted : holds unhinted_kernel "/a" unhinted_tree.
Proof.
  split.
  - eexists. split; reflexivity.
  - simpl. repeat split; try discriminate.
    eexists. split; reflexivity.
Qed.

(** Whatever the fuel, a walk that returns has returned the pre-order
    lists. *)
Lemma search_tree_result
    (opendir : string -> option (list dirent)) (root : string)
    (cs : list tree) (pattern : string) (fuel : nat) (w0 w : walk) :
  holds opendir root cs ->
  searchInDirectory opendir fuel root pattern w0 = Some w ->
  w = extend w0 (flat_map (found pattern root) cs)
                (root :: flat_map (walked root) cs).
Proof.
  intros Hholds Hrun.
  apply (search_fuel_mono opendir fuel (fuel + S (depth_all cs))) in Hrun; [|lia].
  rewrite (search_tree opendir pattern _ root cs w0 Hholds) in Hrun by lia.
  congruence.
Qed.

Lemma b_old_is_a_matching_descendant (h : dtype) (o : bool) :
  descendant "/a"
    [ File "b.txt" DT_REG;
      Dir "c" h o [ File "b_old.txt" DT_REG; File "d.log" DT_REG ] ]
    "/a/c/b_old.txt" "b_old.txt" /\
  Str.occurs "b" "b_old.txt".
Proof.
  split.
  - eapply desc_deeper with (n := "c"); [right; left; reflexivity|].
    apply (desc_child "/a/c" _ (File "b_old.txt" DT_REG)). left. reflexivity.
  - exists EmptyString, "_old.txt". reflexivity.
Qed.

(** C1 as stated fails where the directory /a/c cannot be opened: the walk
    returns without /a/c/b_old.txt, a descendant whose name contains the
    pattern. *)
Lemma search_misses_locked_directory :
  holds locked_kernel "/a" locked_tree /\
  ~ search_exact locked_kernel "/a" locked_tree "b".
Proof.
  split; [exact holds_locked|].
  intros (fuel & w & Hrun & Hiff).
  apply (search_tree_result _ _ _ _ _ _ _ holds_locked) in Hrun. subst w.
  destruct (Hiff "/a/c/b_old.txt") as [_ Hmiss].
  assert (Hin : In "/a/c/b_old.txt" ["/a/b.txt"]).
  { apply Hmiss. exists "b_old.txt". apply b_old_is_a_matching_descendant. }
  destruct Hin as [H|[]]. discriminate.
Qed.

(** The same happens where the directory /a/c can be opened but [readdir]
    reports it with the hint [DT_UNKNOWN]. *)
Lemma search_misses_unhinted_directory :
  holds unhinted_kernel "/a" unhinted_tree /\
  ~ search_exact unhinted_kernel "/a" unhinted_tree "b".
Proof.
  split; [exact holds_unhinted|].
  intros (fuel & w & Hrun & Hiff).
  apply (search_tree_result _ _ _ _ _ _ _ holds_unhinted) in Hrun. subst w.
  destruct (Hiff "/a/c/b_old.txt") as [_ Hmiss].
  assert (Hin : In "/a/c/b_old.txt" ["/a/b.txt"]).
  { apply Hmiss. exists "b_old.txt". apply b_old_is_a_matching_descendant. }
  destruct Hin as [H|[]]. discriminate.
Qed.

(** C1, amended. On a tree all of whose directories can be opened and are
    reported with the hint [DT_DIR], the walk returns, and a path is in the
    result exactly when it belongs to a file or directory, at any depth,
    whose name contains the pattern; directories whose own name does not
    match are walked all the same.  The result lists these paths in
    pre-order. *)
Theorem search_exact_on_faithful_tree
    (opendir : string -> option (list dirent)) (root : string)
    (cs : list tree) (pattern : string) :
  holds opendir root cs ->
  forallb faithful cs = true ->
  search_exact opendir root cs pattern /\
  forall fuel w,
    searchInDirectory opendir fuel root pattern start = Some w ->
    results w = flat_map (found pattern root) cs.
Proof.
  intros Hholds Hfaithful. split.
  - exists (S (depth_all cs)). eexists. split.
    + apply search_tree; [exact Hholds|lia].
    + simpl. intros p. split.
      * apply found_all_sound.
      * intros (name & Hd & Hocc). eapply found_all_complete; eassumption.
  - intros fuel w Hrun.
    apply (search_tree_result _ _ _ _ _ _ _ Hholds) in Hrun. subst w. reflexivity.
Qed.

Lemma search_exact_on_faithful_tree_witness :
  search_exact example_kernel "/a" example_tree "b" /\
  forall fuel w,
    searchInDirectory example_kernel fuel "/a" "b" start = Some w ->
    results w = ["/a/b.txt"; "/a/c/b_old.txt"].
Proof.
  apply (search_exact_on_faithful_tree example_kernel "/a" example_tree "b").
  - exact holds_example.
  - reflexivity.
Defined.

(** The scenario of the specification, for any order in which the kernel
    delivers the pseudo-entries: the result is the set
    {/a/b.txt, /a/c/b_old.txt}. *)
Lemma search_scenario (opendir : string -> option (list dirent)) :
  holds opendir "/a" example_tree ->
  exists fuel w,
    searchInDirectory opendir fuel "/a" "b" start = Some w /\
    forall p, In p (results w) <-> p = "/a/b.txt" \/ p = "/a/c/b_old.txt".
Proof.
  intros Hholds. exists 2. eexists. split.
  - apply search_tree; [exact Hholds|simpl; lia].
  - intros p. simpl. split.
    + intros [<-|[<-|[]]]; [left|right]; reflexivity.
    + intros [->| ->]; [left|right; left]; reflexivity.
Qed.




(** ** The cursor *)

Section Cursor.

Import Nav.

(** *** Facts on [find_last_of] and [substr] *)

Lemma find_last_of_none (s : string) (c : ascii) :
  Str.find_last_of s c = None <-> forall pre post, s <> pre +:+ String c post.
Proof.
  induction s as [|a s IH]; simpl.
  - split; [|reflexivity]. intros _ [|b pre] post; discriminate.
  - destruct (Str.find_last_of s c) as [i|].
    + split; [discriminate|]. intros H. exfalso.
      assert (Hs : forall pre post, s <> pre +:+ String c post).
      { intros pre post ->. apply (H (String a pre) post). reflexivity. }
      apply IH in Hs. discriminate.
    + destruct (Ascii.eqb_spec a c) as [->|Hne].
      * split; [discriminate|]. intros H. exfalso. apply (H EmptyString s). reflexivity.
      * split; [|reflexivity]. intros _ [|b pre] post.
        -- rewrite append_nil. congruence.
        -- rewrite append_cons. intros [= -> Hs].
           destruct IH as [IH _]. apply (IH eq_refl pre post Hs).
Qed.

Lemma find_last_of_slash_free (n : string) :
  ~ Str.has_slash n <-> Str.find_last_of n "/" = None.
Proof.
  rewrite find_last_of_none. unfold Str.has_slash. split.
  - intros H pre post ->. apply H. exists pre, post. reflexivity.
  - intros H (pre & post & ->). apply (H pre post). reflexivity.
Qed.

(** The last separator of [d/n] is the one written between [d] and [n]. *)
Lemma find_last_of_join (d n : string) :
  ~ Str.has_slash n ->
  Str.find_last_of (d +:+ "/" +:+ n) "/" = Some (String.length d).
Proof.
  intros Hn. apply find_last_of_slash_free in Hn.
  induction d as [|a d IH].
  - rewrite append_nil. change ("/" +:+ n) with (String "/" n).
    simpl. rewrite Hn. reflexivity.
  - rewrite append_cons. simpl. rewrite IH. reflexivity.
Qed.

Lemma substr0_app (d rest : string) :
  Str.substr0 (d +:+ rest) (String.length d) = d.
Proof.
  unfold Str.substr0. induction d as [|a d IH].
  - rewrite append_nil. destruct rest; reflexivity.
  - rewrite append_cons. simpl. rewrite IH. reflexivity.
Qed.

Lemma substr0_absolute (s : string) (pos : nat) :
  Str.absolute s -> pos <> 0 -> Str.absolute (Str.substr0 s pos).
Proof.
  intros [rest ->] Hpos. destruct pos as [|pos]; [congruence|].
  exists (String.substring 0 pos rest). reflexivity.
Qed.

Lemma length_append (s t : string) :
  String.length (s +:+ t) = String.length s + String.length t.
Proof.
  induction s as [|a s IH]; [reflexivity|].
  rewrite append_cons. simpl. rewrite IH. reflexivity.
Qed.

Lemma at_0_slash (path : string) :
  Ascii.eqb (Str.at_ path 0) "/" = true -> Str.absolute path.
Proof.
  destruct path as [|a path]; [discriminate|].
  unfold Str.at_. simpl. intros H. apply Ascii.eqb_eq in H as ->.
  exists path. reflexivity.
Qed.

(** *** Resolution of the token *)

(** Truncation at the last separator: the parent of [d/n] is [d]. *)
Lemma newPath_parent (d n : string) :
  d <> EmptyString -> ~ Str.has_slash n -> newPath (d +:+ "/" +:+ n) ".." = d.
Proof.
  intros Hd Hn. unfold newPath. simpl String.eqb.
  rewrite (find_last_of_join d n Hn).
  destruct d as [|a d]; [congruence|]. simpl Nat.eqb.
  apply substr0_app.
Qed.

(** Directly below the root, and at the root itself, the parent is the
    root. *)
Lemma newPath_parent_root (n : string) :
  ~ Str.has_slash n -> newPath ("/" +:+ n) ".." = "/".
Proof.
  intros Hn. unfold newPath. simpl String.eqb.
  pose proof (find_last_of_join EmptyString n Hn) as H. rewrite append_nil in H.
  rewrite H. reflexivity.
Qed.

Lemma newPath_absolute (currentPath path : string) :
  Str.absolute currentPath -> Str.absolute (newPath currentPath path).
Proof.
  intros Habs. unfold newPath.
  destruct (String.eqb path "..").
  - destruct (Str.find_last_of currentPath "/") as [pos|]; [|exists EmptyString; reflexivity].
    destruct (Nat.eqb_spec pos 0) as [->|Hpos]; [exists EmptyString; reflexivity|].
    apply substr0_absolute; assumption.
  - destruct (Ascii.eqb (Str.at_ path 0) "/") eqn:E; [apply at_0_slash, E|].
    destruct Habs as [rest ->]. exists (rest +:+ "/" +:+ path). reflexivity.
Qed.

Section CursorSteps.

Variable K : Type.
Variable chdir : K -> string -> option K.

Lemma changeDirectory_absolute k currentPath path :
  Str.absolute currentPath ->
  Str.absolute (cursor (changeDirectory K chdir k currentPath path)).
Proof.
  intros Habs. unfold changeDirectory.
  destruct (chdir k _); simpl; [apply newPath_absolute|]; assumption.
Qed.

Lemma changeDirectory_enters k k' currentPath path :
  chdir k (Str.c_str (newPath currentPath path)) = Some k' ->
  changeDirectory K chdir k currentPath path =
  Outcome true (ChangedTo (newPath currentPath path)) (newPath currentPath path) k'.
Proof. intros H. unfold changeDirectory. rewrite H. reflexivity. Qed.

End CursorSteps.

End Cursor.

Lemma navigate_all_absolute (K : Type) (chdir : K -> string -> option K)
    (tokens : list string) :
  forall k currentPath,
    Str.absolute currentPath ->
    Forall Str.absolute (map Nav.cursor (Nav.navigate_all K chdir k currentPath tokens)).
Proof.
  induction tokens as [|token tokens IH]; intros k currentPath Habs; simpl.
  - constructor.
  - constructor; [|apply IH]; apply changeDirectory_absolute; assumption.
Qed.

(** C2. When [chdir] refuses the resolved path (it does not exist, is not a
    directory, or may not be entered), [changeDirectory] returns [false],
    prints the error, and leaves both the cursor and the working directory
    of the process as they were. *)
Theorem navigate_unreachable_keeps_cursor
    (K : Type) (chdir : K -> string -> option K) (k : K)
    (currentPath token : string) :
  chdir k (Str.c_str (Nav.newPath currentPath token)) = None ->
  Nav.changeDirectory K chdir k currentPath token =
  Nav.Outcome false Nav.CannotChangeToDirectory currentPath k.
Proof.
  intros Hfail. unfold Nav.changeDirectory. rewrite Hfail. reflexivity.
Qed.

Lemma navigate_unreachable_keeps_cursor_witness :
  Nav.scenario_chdir "/x" (Str.c_str (Nav.newPath "/x" "nowhere")) = None /\
  Nav.changeDirectory string Nav.scenario_chdir "/x" "/x" "nowhere" =
  Nav.Outcome false Nav.CannotChangeToDirectory "/x" "/x".
Proof.
  split; [reflexivity|].
  apply (navigate_unreachable_keeps_cursor string Nav.scenario_chdir "/x" "/x" "nowhere").
  reflexivity.
Defined.

(** C3. For the token ".." the target is the cursor cut at its last
    separator: the parent of [d/n] is [d], and the parent of an entry of the
    root, and of the root itself, is the root.  Where the root can be
    entered the call at the root succeeds and leaves the cursor at "/".
    From /x/y three calls with ".." give /x, then /, then / again. *)
Theorem navigate_parent
    (K : Type) (chdir : K -> string -> option K) (k : K) (d n : string) :
  (forall k, chdir k "/" <> None) ->
  (forall k, chdir k "/x" <> None) ->
  d <> EmptyString ->
  ~ Str.has_slash n ->
  Nav.newPath (d +:+ "/" +:+ n) ".." = d /\
  Nav.newPath ("/" +:+ n) ".." = "/" /\
  Nav.newPath "/" ".." = "/" /\
  Nav.returned (Nav.changeDirectory K chdir k "/" "..") = true /\
  Nav.cursor (Nav.changeDirectory K chdir k "/" "..") = "/" /\
  map Nav.returned (Nav.navigate_all K chdir k "/x/y" [".."; ".."; ".."])
    = [true; true; true] /\
  map Nav.cursor (Nav.navigate_all K chdir k "/x/y" [".."; ".."; ".."])
    = ["/x"; "/"; "/"].
Proof.
  intros Hroot Hx Hd Hn.
  assert (Hstep_root : forall k0, exists k1,
             Nav.changeDirectory K chdir k0 "/" ".." =
             Nav.Outcome true (Nav.ChangedTo "/") "/" k1).
  { intros k0. destruct (chdir k0 "/") as [k1|] eqn:E; [|destruct (Hroot k0 E)].
    exists k1. apply (changeDirectory_enters K chdir k0 k1 "/" ".."). exact E. }
  assert (Hstep_x : forall k0, exists k1,
             Nav.changeDirectory K chdir k0 "/x" ".." =
             Nav.Outcome true (Nav.ChangedTo "/") "/" k1).
  { intros k0. destruct (chdir k0 "/") as [k1|] eqn:E; [|destruct (Hroot k0 E)].
    exists k1. apply (changeDirectory_enters K chdir k0 k1 "/x" ".."). exact E. }
  assert (Hstep_xy : forall k0, exists k1,
             Nav.changeDirectory K chdir k0 "/x/y" ".." =
             Nav.Outcome true (Nav.ChangedTo "/x") "/x" k1).
  { intros k0. destruct (chdir k0 "/x") as [k1|] eqn:E; [|destruct (Hx k0 E)].
    exists k1. apply (changeDirectory_enters K chdir k0 k1 "/x/y" ".."). exact E. }
  split; [apply newPath_parent; assumption|].
  split; [apply newPath_parent_root; assumption|].
  split; [reflexivity|].
  destruct (Hstep_root k) as [k1 E1]. rewrite E1.
  split; [reflexivity|]. split; [reflexivity|].
  simpl Nav.navigate_all.
  destruct (Hstep_xy k) as [ka Ea]. rewrite Ea. simpl Nav.kernel. simpl Nav.cursor.
  destruct (Hstep_x ka) as [kb Eb]. rewrite Eb. simpl Nav.kernel. simpl Nav.cursor.
  destruct (Hstep_root kb) as [kc Ec]. rewrite Ec.
  split; reflexivity.
Qed.

Lemma navigate_parent_witness :
  Nav.newPath ("/home/user" +:+ "/" +:+ "docs") ".." = "/home/user" /\
  Nav.newPath ("/" +:+ "tmp") ".." = "/" /\
  Nav.newPath "/" ".." = "/" /\
  Nav.returned (Nav.changeDirectory string Nav.scenario_chdir "/x/y" "/" "..") = true /\
  Nav.cursor (Nav.changeDirectory string Nav.scenario_chdir "/x/y" "/" "..") = "/" /\
  map Nav.returned
    (Nav.navigate_all string Nav.scenario_chdir "/x/y" "/x/y" [".."; ".."; ".."])
    = [true; true; true] /\
  map Nav.cursor
    (Nav.navigate_all string Nav.scenario_chdir "/x/y" "/x/y" [".."; ".."; ".."])
    = ["/x"; "/"; "/"].
Proof.
  apply (navigate_parent string Nav.scenario_chdir "/x/y" "/home/user" "docs").
  - intros k. discriminate.
  - intros k. discriminate.
  - discriminate.
  - apply find_last_of_slash_free. reflexivity.
Defined.

(** C7. The cursor is a non-empty string that starts with '/': after the
    constructor (where [getcwd] delivers an absolute path, or fails and "/"
    is taken), after one call of [changeDirectory] on such a cursor whatever
    the token and whether or not the call succeeds, and hence after every
    sequence of calls. *)
Theorem cursor_absolute
    (K : Type) (chdir : K -> string -> option K) (k : K)
    (getcwd : option string) (currentPath token : string) (tokens : list string) :
  (forall cwd, getcwd = Some cwd -> Str.absolute cwd) ->
  Str.absolute currentPath ->
  Str.absolute (Nav.FileExplorer getcwd) /\
  Str.absolute (Nav.cursor (Nav.changeDirectory K chdir k currentPath token)) /\
  Forall Str.absolute
    (map Nav.cursor (Nav.navigate_all K chdir k (Nav.FileExplorer getcwd) tokens)).
Proof.
  intros Hcwd Habs.
  assert (Hinit : Str.absolute (Nav.FileExplorer getcwd)).
  { destruct getcwd as [cwd|]; simpl; [apply Hcwd; reflexivity|].
    exists EmptyString. reflexivity. }
  split; [exact Hinit|].
  split; [apply changeDirectory_absolute; exact Habs|].
  apply navigate_all_absolute. exact Hinit.
Qed.

Lemma cursor_absolute_witness :
  Str.absolute (Nav.FileExplorer (Some "/x/y")) /\
  Str.absolute (Nav.cursor (Nav.changeDirectory string Nav.scenario_chdir "/x/y" "/x" "y")) /\
  Forall Str.absolute
    (map Nav.cursor
       (Nav.navigate_all string Nav.scenario_chdir "/x/y" (Nav.FileExplorer (Some "/x/y"))
          [".."; "nowhere"; EmptyString; "/x/y"; ".."])).
Proof.
  apply (cursor_absolute string Nav.scenario_chdir "/x/y" (Some "/x/y") "/x" "y").
  - intros cwd [= <-]. exists "x/y". reflexivity.
  - exists "x". reflexivity.
Defined.

(** C9. The empty token is neither rejected nor a no-op: its character at
    index 0 is NUL, so it is not taken for an absolute path, the target is
    the cursor followed by "/", and where that target can be entered the
    call succeeds and the cursor becomes the old one with a separator
    appended, which differs from the old one. *)
Theorem navigate_empty_token
    (K : Type) (chdir : K -> string -> option K) (k k' : K) (currentPath : string) :
  chdir k (Str.c_str (currentPath +:+ "/")) = Some k' ->
  Str.at_ EmptyString 0 = "000"%char /\
  Nav.newPath currentPath EmptyString = currentPath +:+ "/" /\
  Nav.changeDirectory K chdir k currentPath EmptyString =
    Nav.Outcome true (Nav.ChangedTo (currentPath +:+ "/")) (currentPath +:+ "/") k' /\
  Nav.cursor (Nav.changeDirectory K chdir k currentPath EmptyString) <> currentPath.
Proof.
  intros Henter.
  assert (Hnew : Nav.newPath currentPath EmptyString = currentPath +:+ "/") by reflexivity.
  assert (Hrun : Nav.changeDirectory K chdir k currentPath EmptyString =
                 Nav.Outcome true (Nav.ChangedTo (currentPath +:+ "/"))
                   (currentPath +:+ "/") k').
  { rewrite <- Hnew. apply changeDirectory_enters. rewrite Hnew. exact Henter. }
  split; [reflexivity|]. split; [exact Hnew|]. split; [exact Hrun|].
  rewrite Hrun. simpl. intros Heq.
  apply (f_equal String.length) in Heq. rewrite length_append in Heq.
  simpl in Heq. lia.
Qed.

Lemma navigate_empty_token_witness :
  Nav.scenario_chdir "/x/y" (Str.c_str ("/x/y" +:+ "/")) = Some "/x/y/" /\
  Nav.changeDirectory string Nav.scenario_chdir "/x/y" "/x/y" EmptyString =
    Nav.Outcome true (Nav.ChangedTo "/x/y/") "/x/y/" "/x/y/".
Proof.
  split; [reflexivity|].
  apply (navigate_empty_token string Nav.scenario_chdir "/x/y" "/x/y/" "/x/y").
  reflexivity.
Defined.


(** ** File operations *)

Section Files.

Import Fs.

(** *** What each system call adds to the trace *)

Lemma sys_stat_trace path w :
  trace (snd (sys_stat path w)) = trace w ++ [SysStat path (fst (sys_stat path w))].
Proof. reflexivity. Qed.

Lemma sys_open_rdonly_trace path w :
  trace (snd (sys_open_rdonly path w)) =
  trace w ++ [SysOpen path false (fst (sys_open_rdonly path w))].
Proof. unfold sys_open_rdonly. repeat case_match; reflexivity. Qed.

Lemma sys_open_trunc_trace path mode w :
  trace (snd (sys_open_trunc path mode w)) =
  trace w ++ [SysOpen path true (fst (sys_open_trunc path mode w))].
Proof. unfold sys_open_trunc. repeat case_match; reflexivity. Qed.

Lemma sys_read_trace fd count w :
  trace (snd (sys_read fd count w)) =
  trace w ++ [SysRead fd count (option_map length (fst (sys_read fd count w)))].
Proof. unfold sys_read. repeat case_match; reflexivity. Qed.

Lemma sys_write_trace fd buf w :
  trace (snd (sys_write fd buf w)) =
  trace w ++ [SysWrite fd (length buf) (fst (sys_write fd buf w))].
Proof. unfold sys_write. repeat case_match; reflexivity. Qed.

Lemma sys_close_trace fd w : trace (sys_close fd w) = trace w ++ [SysClose fd].
Proof. reflexivity. Qed.

Lemma sys_chmod_trace path mode w :
  trace (snd (sys_chmod path mode w)) =
  trace w ++ [SysChmod path mode (fst (sys_chmod path mode w))].
Proof. unfold sys_chmod. repeat case_match; reflexivity. Qed.

Lemma print_trace m w : trace (print m w) = trace w.
Proof. reflexivity. Qed.

(** *** changePermissions *)

Lemma changePermissions_rejects char_signed currentPath name perms w :
  String.length perms <> 3 ->
  changePermissions char_signed currentPath name perms w =
  (false, print InvalidPermissionFormat w).
Proof.
  intros Hlen. unfold changePermissions.
  destruct (Nat.eqb_spec (String.length perms) 3); [contradiction|reflexivity].
Qed.

Lemma changePermissions_attempts char_signed currentPath name perms w :
  String.length perms = 3 ->
  changePermissions char_signed currentPath name perms w =
  let r := sys_chmod (Str.c_str (currentPath +:+ "/" +:+ name))
             (mode_of char_signed perms) w in
  (fst r, print (if fst r then PermissionsChanged name perms
                 else CannotChangePermissions) (snd r)).
Proof.
  intros Hlen. unfold changePermissions. rewrite Hlen. simpl.
  destruct (sys_chmod _ _ w) as [[|] w1]; reflexivity.
Qed.

(** *** The copy loop and the trace *)

(** The loop reports failure exactly when one of its calls of [read] failed
    or one of its calls of [write] came back short. *)
Lemma copy_loop_trace fuel srcFd destFd :
  forall w b w',
    copy_loop fuel srcFd destFd w = Some (b, w') ->
    exists evs, trace w' = trace w ++ evs /\ b = negb (existsb faulty evs).
Proof.
  induction fuel as [|fuel IH]; intros w b w' Hrun; [discriminate|].
  simpl in Hrun.
  pose proof (sys_read_trace srcFd 4096 w) as Hr.
  destruct (sys_read srcFd 4096 w) as [bytesRead w1]. simpl in Hr.
  destruct bytesRead as [[|b0 bs]|].
  - injection Hrun as <- <-. eexists. split.
    + rewrite !sys_close_trace, Hr, <- !app_assoc. reflexivity.
    + reflexivity.
  - pose proof (sys_write_trace destFd (b0 :: bs) w1) as Hw.
    destruct (sys_write destFd (b0 :: bs) w1) as [written w2]. simpl fst in Hw.
    simpl snd in Hw.
    destruct written as [k|].
    + simpl length in *. destruct (Nat.eqb k (S (length bs))) eqn:Ek.
      * destruct (IH _ _ _ Hrun) as (evs & Ht & Hb).
        eexists. split.
        -- rewrite Ht, Hw, Hr, <- !app_assoc. reflexivity.
        -- rewrite Hb. simpl. rewrite Ek. reflexivity.
      * injection Hrun as <- <-. eexists. split.
        -- rewrite !sys_close_trace, Hw, Hr, <- !app_assoc. reflexivity.
        -- simpl. rewrite Ek. reflexivity.
    + injection Hrun as <- <-. eexists. split.
      * rewrite !sys_close_trace, Hw, Hr, <- !app_assoc. reflexivity.
      * reflexivity.
  - injection Hrun as <- <-. eexists. split.
    + rewrite !sys_close_trace, Hr, <- !app_assoc. reflexivity.
    + reflexivity.
Qed.

Lemma copyFileContents_trace fuel src dest w b w' :
  copyFileContents fuel src dest w = Some (b, w') ->
  exists evs, trace w' = trace w ++ evs /\ (existsb faulty evs = true -> b = false).
Proof.
  unfold copyFileContents. intros Hrun.
  pose proof (sys_open_rdonly_trace (Str.c_str src) w) as Ho.
  destruct (sys_open_rdonly (Str.c_str src) w) as [[srcFd|] w1]; simpl in Ho.
  - pose proof (sys_open_trunc_trace (Str.c_str dest) 420 w1) as Hd.
    destruct (sys_open_trunc (Str.c_str dest) 420 w1) as [[destFd|] w2]; simpl in Hd.
    + destruct (copy_loop_trace _ _ _ _ _ _ Hrun) as (evs & Ht & Hb).
      eexists. split.
      * rewrite Ht, Hd, Ho, <- !app_assoc. reflexivity.
      * simpl. rewrite Hb. intros ->. reflexivity.
    + injection Hrun as <- <-. eexists. split; [|reflexivity].
      rewrite print_trace, sys_close_trace, Hd, Ho, <- !app_assoc. reflexivity.
  - injection Hrun as <- <-. eexists. split; [|reflexivity].
    rewrite print_trace, Ho. reflexivity.
Qed.

Lemma copyFile_trace fuel currentPath src dest w b w' :
  copyFile fuel currentPath src dest w = Some (b, w') ->
  exists evs,
    trace w' = trace w ++ evs /\
    (existsb faulty evs = true ->
     b = false /\ exists w2, w' = print CannotCopyFile w2).
Proof.
  unfold copyFile. intros Hrun.
  pose proof (sys_stat_trace (Str.c_str (currentPath +:+ "/" +:+ src)) w) as Hs.
  destruct (sys_stat (Str.c_str (currentPath +:+ "/" +:+ src)) w) as [[st_mode|] w1];
    simpl in Hs.
  - destruct (S_ISDIR st_mode).
    + injection Hrun as <- <-. eexists. split; [rewrite print_trace; exact Hs|].
      discriminate.
    + destruct (copyFileContents fuel _ _ w1) as [[[|] w2]|] eqn:Ec; [| |discriminate].
      * destruct (copyFileContents_trace _ _ _ _ _ _ Ec) as (evs & Ht & Hb).
        pose proof (sys_chmod_trace
                      (Str.c_str (currentPath +:+ "/" +:+ dest)) st_mode w2) as Hm.
        destruct (sys_chmod _ st_mode w2) as [ok w3]. simpl in Hm.
        injection Hrun as <- <-. eexists. split.
        -- rewrite print_trace, Hm, Ht, Hs, <- !app_assoc. reflexivity.
        -- rewrite existsb_app, !existsb_app. simpl. rewrite !orb_false_r.
           intros Hf. apply Hb in Hf. discriminate.
      * destruct (copyFileContents_trace _ _ _ _ _ _ Ec) as (evs & Ht & Hb).
        injection Hrun as <- <-. eexists. split.
        -- rewrite print_trace, Ht, Hs, <- !app_assoc. reflexivity.
        -- intros _. split; [reflexivity|]. exists w2. reflexivity.
  - injection Hrun as <- <-. eexists. split; [rewrite print_trace; exact Hs|].
    discriminate.
Qed.

(** *** What the calls do to the state *)

Lemma sys_read_spec fd count w f n :
  fds w !! fd = Some f ->
  inodes w !! of_ino f = Some n ->
  names (snd (sys_read fd count w)) = names w /\
  euid (snd (sys_read fd count w)) = euid w /\
  inodes (snd (sys_read fd count w)) = inodes w /\
  match fst (sys_read fd count w) with
  | None => True
  | Some bytes =>
      (exists k, (1 <= count -> 1 <= k) /\
                 bytes = take k (drop (of_pos f) (i_data n))) /\
      fds (snd (sys_read fd count w)) =
        <[fd := OpenFile (of_ino f) (of_pos f + length bytes) (of_writable f)]> (fds w)
  end.
Proof.
  intros Hf Hn. unfold sys_read. rewrite Hf, Hn.
  destruct (S_ISDIR (i_mode n)); [simpl; auto|].
  destruct (head (reads w)) as [[m|]|]; simpl; repeat split; trivial.
  - exists (Nat.min count (Pos.to_nat m)). split; [lia|reflexivity].
  - exists count. split; [lia|reflexivity].
Qed.

Lemma sys_write_spec fd buf w f n :
  fds w !! fd = Some f ->
  inodes w !! of_ino f = Some n ->
  of_writable f = true ->
  names (snd (sys_write fd buf w)) = names w /\
  euid (snd (sys_write fd buf w)) = euid w /\
  match fst (sys_write fd buf w) with
  | None => inodes (snd (sys_write fd buf w)) = inodes w
  | Some k =>
      fds (snd (sys_write fd buf w)) =
        <[fd := OpenFile (of_ino f) (of_pos f + k) true]> (fds w) /\
      inodes (snd (sys_write fd buf w)) =
        <[of_ino f := Inode (i_mode n) (i_uid n)
                        (overwrite (of_pos f) (take k buf) (i_data n))]> (inodes w)
  end.
Proof.
  intros Hf Hn Hw. unfold sys_write. rewrite Hf, Hn, Hw. simpl negb. cbv iota.
  destruct (head (writes w)) as [[m|]|]; simpl; repeat split; trivial.
Qed.

Lemma sys_open_rdonly_spec path w fd w1 :
  sys_open_rdonly path w = (Some fd, w1) ->
  names w1 = names w /\ euid w1 = euid w /\ inodes w1 = inodes w /\
  fds w !! fd = None /\
  exists i n, lookup_path w path = Some (i, n) /\
              fds w1 = <[fd := OpenFile i 0 false]> (fds w).
Proof.
  assert (Hfresh : fds w !! unused_fd w = None)
    by (unfold unused_fd; apply not_elem_of_dom, is_fresh).
  unfold sys_open_rdonly. destruct (lookup_path w path) as [[i n]|]; [|discriminate].
  destruct (may_read w n); [|discriminate].
  intros [= <- <-]. simpl. repeat split; trivial.
  exists i, n. split; reflexivity.
Qed.

Lemma sys_open_trunc_spec path mode w fd w1 :
  sys_open_trunc path mode w = (Some fd, w1) ->
  euid w1 = euid w /\
  fds w !! fd = None /\
  (forall p x, names w !! p = Some x -> names w1 !! p = Some x) /\
  exists j n,
    names w1 !! path = Some j /\
    i_data n = [] /\
    inodes w1 = <[j := n]> (inodes w) /\
    fds w1 = <[fd := OpenFile j 0 true]> (fds w) /\
    (names w !! path = Some j \/ inodes w !! j = None).
Proof.
  unfold sys_open_trunc.
  assert (Hfresh : fds w !! unused_fd w = None)
    by (unfold unused_fd; apply not_elem_of_dom, is_fresh).
  destruct (names w !! path) as [j|] eqn:Hname.
  - destruct (inodes w !! j) as [n|]; [|discriminate].
    destruct (negb (S_ISDIR (i_mode n)) && may_write w n); [|discriminate].
    intros [= <- <-]. simpl. repeat split; trivial.
    exists j, (Inode (i_mode n) (i_uid n) []). simpl. repeat split; auto.
  - destruct (may_create w path); [|discriminate].
    intros [= <- <-]. simpl. repeat split; trivial.
    + intros p x Hp. rewrite lookup_insert_ne; [exact Hp|]. congruence.
    + exists (unused_ino w),
        (Inode (Z.lor S_IFREG (Z.land mode (Z.lnot (umask w)))) (euid w) []).
      split; [apply lookup_insert_eq|].
      split; [reflexivity|]. split; [reflexivity|]. split; [reflexivity|].
      right. unfold unused_ino. apply not_elem_of_dom, is_fresh.
Qed.

Lemma sys_close_spec fd w :
  names (sys_close fd w) = names w /\ euid (sys_close fd w) = euid w /\
  inodes (sys_close fd w) = inodes w.
Proof. repeat split. Qed.

Lemma sys_chmod_spec path mode w :
  names (snd (sys_chmod path mode w)) = names w /\
  euid (snd (sys_chmod path mode w)) = euid w /\
  match lookup_path w path with
  | Some (j, n) =>
      if may_chmod w n then
        fst (sys_chmod path mode w) = true /\
        inodes (snd (sys_chmod path mode w)) =
          <[j := Inode (Z.lor (Z.land (i_mode n) S_IFMT) (perm_bits mode))
                       (i_uid n) (i_data n)]> (inodes w)
      else fst (sys_chmod path mode w) = false /\
           inodes (snd (sys_chmod path mode w)) = inodes w
  | None => fst (sys_chmod path mode w) = false /\
            inodes (snd (sys_chmod path mode w)) = inodes w
  end.
Proof.
  unfold sys_chmod. destruct (lookup_path w path) as [[j n]|]; [|repeat split].
  destruct (may_chmod w n); repeat split.
Qed.

(** *** The copy loop and the content *)

Lemma take_length_take (k : nat) (l : list byte) :
  take (length (take k l)) l = take k l.
Proof.
  rewrite length_take. destruct (Nat.le_ge_cases k (length l)) as [H|H].
  - rewrite Nat.min_l by exact H. reflexivity.
  - rewrite Nat.min_r by exact H. rewrite !take_ge by lia. reflexivity.
Qed.

(** Writing the bytes read at [pos] after the first [pos] bytes gives the
    first [pos + length bytes] bytes. *)
Lemma overwrite_extend (pos k : nat) (data : list byte) :
  (pos <= length data)%nat ->
  overwrite pos (take k (drop pos data)) (take pos data) =
  take (pos + length (take k (drop pos data))) data.
Proof.
  intros Hpos. unfold overwrite.
  rewrite take_take, Nat.min_id, length_take, Nat.min_l by exact Hpos.
  rewrite Nat.sub_diag. simpl replicate.
  rewrite (drop_ge (take pos data)) by (rewrite length_take; lia).
  rewrite app_nil_r. simpl.
  rewrite <- take_take_drop, take_length_take. reflexivity.
Qed.

Lemma take_nil_inv (k : nat) (l : list byte) :
  (1 <= k)%nat -> take k l = [] -> l = [].
Proof. destruct k; [lia|]. destruct l; [reflexivity|discriminate]. Qed.

Lemma touches_only_refl j w : touches_only j w w.
Proof. repeat split. Qed.

Lemma touches_only_trans j w1 w2 w3 :
  touches_only j w1 w2 -> touches_only j w2 w3 -> touches_only j w1 w3.
Proof.
  intros (Hn & He & Hi) (Hn' & He' & Hi'). repeat split; try congruence.
  intros x Hx. rewrite Hi', Hi by exact Hx. reflexivity.
Qed.

Section Loop.

Variables (i j srcFd destFd : nat) (data : list byte).

(** One pass: either the loop ends, or it goes on from a later offset. *)
Lemma copy_loop_step pos w fuel :
  copying i j srcFd destFd data pos w ->
  (exists b w',
      copy_loop (S fuel) srcFd destFd w = Some (b, w') /\
      touches_only j w w' /\ (b = true -> copied i j data w')) \/
  (exists pos' w2,
      (pos < pos')%nat /\ copying i j srcFd destFd data pos' w2 /\
      touches_only j w w2 /\
      copy_loop (S fuel) srcFd destFd w = copy_loop fuel srcFd destFd w2).
Proof.
  intros [Hfds Hsrc Hdest (ni & Hi & Hdata) (nj & Hj & Hcopied) Hpos Halias].
  pose proof (sys_read_spec srcFd 4096 w _ _ Hsrc Hi) as (Hn1 & He1 & Hi1 & Hr).
  simpl copy_loop. destruct (sys_read srcFd 4096 w) as [bytesRead w1].
  simpl in Hn1, He1, Hi1, Hr.
  destruct bytesRead as [[|b0 bs]|].
  - left. exists true. eexists. split; [reflexivity|].
    split; [repeat split; simpl; congruence|]. intros _.
    destruct Hr as [(k & Hk & Hnil) _].
    symmetry in Hnil. apply take_nil_inv in Hnil; [|lia].
    exists ni, nj. simpl. rewrite Hi1. repeat split; trivial.
    rewrite Hcopied, <- Hdata. rewrite <- (take_drop pos (i_data ni)) at 2.
    rewrite Hnil, app_nil_r. reflexivity.
  - destruct Hr as [(k & Hk & Hbytes) Hfds1].
    assert (Hij : i <> j).
    { intros Heq. rewrite Hdata, (Halias Heq) in Hbytes.
      rewrite drop_nil, take_nil in Hbytes. discriminate. }
    assert (Hdest1 : fds w1 !! destFd = Some (OpenFile j pos true))
      by (rewrite Hfds1, lookup_insert_ne by exact Hfds; exact Hdest).
    assert (Hj1 : inodes w1 !! j = Some nj) by (rewrite Hi1; exact Hj).
    pose proof (sys_write_spec destFd (b0 :: bs) w1 _ _ Hdest1 Hj1 eq_refl)
      as (Hn2 & He2 & Hw).
    destruct (sys_write destFd (b0 :: bs) w1) as [written w2].
    simpl in Hn2, He2, Hw.
    destruct written as [n|].
    + destruct Hw as [Hfds2 Hi2]. simpl length.
      destruct (Nat.eqb_spec n (S (length bs))) as [->|Hshort].
      * right. exists (pos + S (length bs))%nat, w2.
        split; [lia|]. split; [|split; [|reflexivity]].
        -- change (S (length bs)) with (length (b0 :: bs)) in *.
           rewrite take_ge in Hi2 by reflexivity.
           constructor; trivial.
           ++ rewrite Hfds2, lookup_insert_ne by congruence.
              rewrite Hfds1. simpl. apply lookup_insert_eq.
           ++ rewrite Hfds2. apply lookup_insert_eq.
           ++ exists ni. rewrite Hi2, lookup_insert_ne by congruence.
              rewrite Hi1. split; assumption.
           ++ eexists. rewrite Hi2. split; [apply lookup_insert_eq|].
              simpl i_data. rewrite Hcopied, <- Hdata.
              transitivity (take (pos + length (take k (drop pos (i_data ni))))
                                 (i_data ni)); [|rewrite <- Hbytes; reflexivity].
              rewrite Hbytes. apply overwrite_extend. rewrite Hdata. exact Hpos.
           ++ rewrite Hbytes, length_take, length_drop. rewrite Hdata. lia.
        -- repeat split; try congruence.
           intros x Hx. rewrite Hi2, lookup_insert_ne by congruence.
           rewrite Hi1. reflexivity.
      * left. exists false. eexists. split; [reflexivity|].
        split; [|discriminate]. repeat split; simpl; try congruence.
        intros x Hx. rewrite Hi2, lookup_insert_ne by congruence.
        rewrite Hi1. reflexivity.
    + left. exists false. eexists. split; [reflexivity|].
      split; [|discriminate]. repeat split; simpl; congruence.
  - left. exists false. eexists. split; [reflexivity|].
    split; [|discriminate]. repeat split; simpl; congruence.
Qed.

(** A loop that ends with [true] has left the whole content in the
    destination. *)
Lemma copy_loop_success fuel :
  forall pos w w',
    copying i j srcFd destFd data pos w ->
    copy_loop fuel srcFd destFd w = Some (true, w') ->
    touches_only j w w' /\ copied i j data w'.
Proof.
  induction fuel as [|fuel IH]; intros pos w w' Hc Hrun; [discriminate|].
  destruct (copy_loop_step pos w fuel Hc)
    as [(b & w1 & Hend & Ht & Hpost)|(pos' & w2 & _ & Hc2 & Ht & Hnext)].
  - rewrite Hend in Hrun. injection Hrun as -> ->. auto.
  - rewrite Hnext in Hrun. destruct (IH _ _ _ Hc2 Hrun) as [Ht2 Hpost].
    split; [eapply touches_only_trans; eassumption|exact Hpost].
Qed.

(** The loop ends within as many passes as there are bytes left, and one
    more. *)
Lemma copy_loop_returns fuel :
  forall pos w,
    copying i j srcFd destFd data pos w ->
    (length data - pos < fuel)%nat ->
    exists b w', copy_loop fuel srcFd destFd w = Some (b, w').
Proof.
  induction fuel as [|fuel IH]; intros pos w Hc Hfuel; [lia|].
  destruct (copy_loop_step pos w fuel Hc)
    as [(b & w1 & Hend & _)|(pos' & w2 & Hlt & Hc2 & _ & Hnext)].
  - exists b, w1. exact Hend.
  - rewrite Hnext. apply (IH pos' w2 Hc2).
    pose proof (cp_pos _ _ _ _ _ _ _ Hc2). lia.
Qed.

End Loop.

(** *** copyFileContents and copyFile *)

Lemma lookup_path_Some w path i n :
  lookup_path w path = Some (i, n) <->
  names w !! path = Some i /\ inodes w !! i = Some n.
Proof.
  unfold lookup_path. destruct (names w !! path) as [i'|]; [|split; [discriminate|intros [[=] _]]].
  destruct (inodes w !! i') as [n'|] eqn:E.
  - split; [intros [= -> ->]; auto|]. intros [[= ->] H]. congruence.
  - split; [discriminate|]. intros [[= ->] H]. congruence.
Qed.

(** Once both files are open the copy is in progress at offset 0. *)
Lemma copy_setup src dest w srcFd w1 destFd w2 :
  sys_open_rdonly (Str.c_str src) w = (Some srcFd, w1) ->
  sys_open_trunc (Str.c_str dest) 420 w1 = (Some destFd, w2) ->
  exists i j ni0 data,
    lookup_path w (Str.c_str src) = Some (i, ni0) /\
    copying i j srcFd destFd data 0 w2 /\
    names w2 !! Str.c_str src = Some i /\
    names w2 !! Str.c_str dest = Some j /\
    euid w2 = euid w /\
    (forall x, x <> j -> inodes w2 !! x = inodes w !! x) /\
    (i <> j -> data = i_data ni0) /\
    (length data <= length (i_data ni0))%nat.
Proof.
  intros Hsrc Hdest.
  apply sys_open_rdonly_spec in Hsrc
    as (Hn1 & He1 & Hi1 & Hfree1 & i & ni0 & Hlook & Hfds1).
  apply sys_open_trunc_spec in Hdest
    as (He2 & Hfree2 & Hkeep & j & nj & Hname & Hempty & Hi2 & Hfds2 & Horigin).
  pose proof Hlook as Hlook'. apply lookup_path_Some in Hlook' as [Hni Hii].
  assert (Hne : srcFd <> destFd).
  { intros ->. rewrite Hfds1, lookup_insert_eq in Hfree2. discriminate. }
  assert (Hframe : forall x, x <> j -> inodes w2 !! x = inodes w !! x).
  { intros x Hx. rewrite Hi2, lookup_insert_ne by congruence. rewrite Hi1. reflexivity. }
  assert (Hj2 : inodes w2 !! j = Some nj) by (rewrite Hi2; apply lookup_insert_eq).
  assert (Hs2 : fds w2 !! srcFd = Some (OpenFile i 0 false)).
  { rewrite Hfds2, lookup_insert_ne by congruence. rewrite Hfds1. apply lookup_insert_eq. }
  assert (Hd2 : fds w2 !! destFd = Some (OpenFile j 0 true))
    by (rewrite Hfds2; apply lookup_insert_eq).
  assert (Hsrcname : names w2 !! Str.c_str src = Some i)
    by (apply Hkeep; rewrite Hn1; exact Hni).
  destruct (decide (i = j)) as [->|Hij].
  - exists j, j, ni0, [].
    split; [exact Hlook|]. split.
    { constructor; trivial; exists nj; auto. }
    do 4 (split; [first [assumption|congruence]|]).
    split; [congruence|simpl; lia].
  - exists i, j, ni0, (i_data ni0).
    split; [exact Hlook|]. split.
    { constructor; trivial.
      - exists ni0. rewrite Hframe by exact Hij. auto.
      - exists nj. auto.
      - lia.
      - intros Heq. contradiction. }
    do 4 (split; [first [assumption|congruence]|]).
    split; [reflexivity|lia].
Qed.

Lemma copyFileContents_success fuel src dest w w' :
  copyFileContents fuel src dest w = Some (true, w') ->
  exists i j ni0 data,
    lookup_path w (Str.c_str src) = Some (i, ni0) /\
    names w' !! Str.c_str src = Some i /\
    names w' !! Str.c_str dest = Some j /\
    euid w' = euid w /\
    copied i j data w' /\
    (forall x, x <> j -> inodes w' !! x = inodes w !! x) /\
    (i <> j -> data = i_data ni0).
Proof.
  unfold copyFileContents. intros Hrun.
  destruct (sys_open_rdonly (Str.c_str src) w) as [[srcFd|] w1] eqn:Hsrc;
    [|discriminate].
  destruct (sys_open_trunc (Str.c_str dest) 420 w1) as [[destFd|] w2] eqn:Hdest;
    [|discriminate].
  destruct (copy_setup _ _ _ _ _ _ _ Hsrc Hdest)
    as (i & j & ni0 & data & Hlook & Hc & Hns & Hnd & He & Hframe & Hdata & _).
  destruct (copy_loop_success i j srcFd destFd data fuel 0 w2 w' Hc Hrun)
    as [(Hn & He' & Hframe') Hcopied].
  exists i, j, ni0, data.
  split; [exact Hlook|]. do 3 (split; [congruence|]).
  split; [exact Hcopied|]. split; [|exact Hdata].
  intros x Hx. rewrite Hframe', Hframe by exact Hx. reflexivity.
Qed.

Lemma perm_bits_chmod (old mode : Z) :
  perm_bits (Z.lor (Z.land old S_IFMT) (perm_bits mode)) = perm_bits mode.
Proof.
  unfold perm_bits, S_IFMT, ALLPERMS.
  rewrite Z.land_lor_distr_l, <- !Z.land_assoc. simpl Z.land at 2 4.
  rewrite Z.land_0_r, Z.lor_0_l. reflexivity.
Qed.

(** A copy that reports success has left the content of the source in the
    destination; the source is as it was unless it is the destination
    itself; and the destination has the permission bits that [stat] saw on
    the source if the process was allowed to change its mode. *)
Lemma copyFile_success fuel currentPath src dest w w' :
  copyFile fuel currentPath src dest w = Some (true, w') ->
  exists i j ni0 ni nj,
    lookup_path w (Str.c_str (currentPath +:+ "/" +:+ src)) = Some (i, ni0) /\
    lookup_path w' (Str.c_str (currentPath +:+ "/" +:+ src)) = Some (i, ni) /\
    lookup_path w' (Str.c_str (currentPath +:+ "/" +:+ dest)) = Some (j, nj) /\
    i_data nj = i_data ni /\
    (i <> j -> ni = ni0) /\
    (may_chmod w' nj = true -> perm_bits (i_mode nj) = perm_bits (i_mode ni0)).
Proof.
  unfold copyFile.
  set (srcPath := Str.c_str (currentPath +:+ "/" +:+ src)).
  set (destPath := Str.c_str (currentPath +:+ "/" +:+ dest)).
  unfold sys_stat. simpl.
  destruct (lookup_path w srcPath) as [[i0 n0]|] eqn:Hlook0; simpl; [|discriminate].
  destruct (S_ISDIR (i_mode n0)); [discriminate|].
  destruct (copyFileContents fuel _ _ _) as [[[|] w2]|] eqn:Hcopy; [|discriminate..].
  apply copyFileContents_success in Hcopy
    as (i & j & ni0 & data & Hlook & Hns & Hnd & He & Hcopied & Hframe & Hdata).
  fold srcPath destPath in Hlook, Hns, Hnd.
  change (lookup_path (log _ w) srcPath) with (lookup_path w srcPath) in Hlook.
  rewrite Hlook0 in Hlook. injection Hlook as -> ->.
  simpl in He, Hframe.
  destruct Hcopied as (ni2 & nj2 & Hi2 & Hj2 & Hdi & Hdj).
  pose proof (sys_chmod_spec destPath (i_mode ni0) w2) as (Hn3 & He3 & Hmod).
  assert (Hlookd : lookup_path w2 destPath = Some (j, nj2))
    by (apply lookup_path_Some; auto).
  rewrite Hlookd in Hmod.
  destruct (sys_chmod destPath (i_mode ni0) w2) as [ok w3]. simpl in Hn3, He3, Hmod.
  intros [= <-].
  apply lookup_path_Some in Hlook0 as [_ Hi0].
  destruct (may_chmod w2 nj2) eqn:Hmay; destruct Hmod as [_ Hi3].
  - set (nj := Inode (Z.lor (Z.land (i_mode nj2) S_IFMT) (perm_bits (i_mode ni0)))
                     (i_uid nj2) (i_data nj2)) in *.
    destruct (decide (i = j)) as [->|Hij].
    + exists j, j, ni0, nj, nj.
      split; [reflexivity|].
      assert (Hl : lookup_path (print (FileCopied src dest) w3) destPath = Some (j, nj)).
      { apply lookup_path_Some. simpl. rewrite Hn3, Hi3. split; [exact Hnd|].
        apply lookup_insert_eq. }
      split; [apply lookup_path_Some; simpl; rewrite Hn3, Hi3;
              split; [exact Hns|apply lookup_insert_eq]|].
      split; [exact Hl|]. split; [reflexivity|]. split; [congruence|].
      intros _. apply perm_bits_chmod.
    + exists i, j, ni0, ni0, nj.
      split; [reflexivity|].
      split.
      { apply lookup_path_Some. simpl. rewrite Hn3, Hi3. split; [exact Hns|].
        rewrite lookup_insert_ne by congruence. rewrite Hframe by exact Hij. exact Hi0. }
      split.
      { apply lookup_path_Some. simpl. rewrite Hn3, Hi3. split; [exact Hnd|].
        apply lookup_insert_eq. }
      split; [simpl; rewrite Hdj; apply Hdata, Hij|].
      split; [reflexivity|]. intros _. apply perm_bits_chmod.
  - assert (Hni : i <> j -> ni2 = ni0).
    { intros Hij. rewrite Hframe in Hi2 by exact Hij. congruence. }
    exists i, j, ni0, ni2, nj2.
    split; [reflexivity|].
    split; [apply lookup_path_Some; simpl; rewrite Hn3, Hi3; auto|].
    split; [apply lookup_path_Some; simpl; rewrite Hn3, Hi3; auto|].
    split; [congruence|]. split; [exact Hni|].
    unfold may_chmod in *. simpl. rewrite He3. congruence.
Qed.

(** The copy returns: the number of passes of the loop is bounded by the
    size of the source. *)
Lemma copyFile_returns fuel currentPath src dest w :
  (size_of w (Str.c_str (currentPath +:+ "/" +:+ src)) < fuel)%nat ->
  exists b w', copyFile fuel currentPath src dest w = Some (b, w').
Proof.
  unfold copyFile, copyFileContents, size_of.
  set (srcPath := Str.c_str (currentPath +:+ "/" +:+ src)).
  set (destPath := Str.c_str (currentPath +:+ "/" +:+ dest)).
  unfold sys_stat. simpl. intros Hfuel.
  destruct (lookup_path w srcPath) as [[i0 n0]|] eqn:Hlook0; simpl; [|eauto].
  destruct (S_ISDIR (i_mode n0)); [eauto|].
  destruct (sys_open_rdonly srcPath _) as [[srcFd|] w1] eqn:Hsrc; [|eauto].
  destruct (sys_open_trunc destPath 420 w1) as [[destFd|] w2] eqn:Hdest; [|eauto].
  destruct (copy_setup _ _ _ _ _ _ _ Hsrc Hdest)
    as (i & j & ni0 & data & Hlook & Hc & _ & _ & _ & _ & _ & Hlen).
  assert (Hlook' : lookup_path w srcPath = Some (i, ni0)) by exact Hlook.
  rewrite Hlook0 in Hlook'. injection Hlook' as -> ->.
  destruct (copy_loop_returns i j srcFd destFd data fuel 0 w2 Hc) as (b & w3 & ->);
    [lia|].
  destruct b; [|eauto].
  destruct (sys_chmod destPath (i_mode ni0) w3). eauto.
Qed.

End Files.

(** *** The copy under the plans of the world *)

Section Plans.

Import Fs.

Lemma take_min {A : Type} (k : nat) (l : list A) :
  take (Nat.min k (length l)) l = take k l.
Proof.
  destruct (Nat.le_ge_cases k (length l)) as [H|H].
  - rewrite Nat.min_l by exact H. reflexivity.
  - rewrite Nat.min_r by exact H. rewrite !take_ge by lia. reflexivity.
Qed.

(** A [read] on a file that is not a directory does what the plan says. *)
Lemma sys_read_plan fd count w f n :
  fds w !! fd = Some f ->
  inodes w !! of_ino f = Some n ->
  S_ISDIR (i_mode n) = false ->
  sys_read fd count w =
  match Plan.next_read (head (reads w)) count (length (i_data n) - of_pos f) with
  | None => (None, log (SysRead fd count None) (set_reads (tail (reads w)) w))
  | Some c =>
      (Some (take c (drop (of_pos f) (i_data n))),
       log (SysRead fd count (Some c))
         (set_fds (<[fd := OpenFile (of_ino f) (of_pos f + c) (of_writable f)]> (fds w))
            (set_reads (tail (reads w)) w)))
  end.
Proof.
  intros Hf Hn Hdir. unfold sys_read. rewrite Hf, Hn, Hdir.
  assert (Hlen : forall k, length (take k (drop (of_pos f) (i_data n))) =
                           Nat.min k (length (i_data n) - of_pos f))
    by (intros k; rewrite length_take, length_drop; reflexivity).
  assert (Htake : forall k, take (Nat.min k (length (i_data n) - of_pos f))
                                 (drop (of_pos f) (i_data n)) =
                            take k (drop (of_pos f) (i_data n))).
  { intros k. rewrite <- (length_drop (i_data n) (of_pos f)). apply take_min. }
  destruct (head (reads w)) as [[m|]|]; unfold Plan.next_read; cbv zeta;
    rewrite ?Hlen, ?Htake; reflexivity.
Qed.

Lemma sys_write_plan fd buf w f n :
  fds w !! fd = Some f ->
  inodes w !! of_ino f = Some n ->
  of_writable f = true ->
  sys_write fd buf w =
  match Plan.next_write (head (writes w)) (length buf) with
  | None => (None, log (SysWrite fd (length buf) None) (set_writes (tail (writes w)) w))
  | Some k =>
      (Some k,
       log (SysWrite fd (length buf) (Some k))
         (set_fds (<[fd := OpenFile (of_ino f) (of_pos f + k) true]> (fds w))
            (set_inodes (<[of_ino f := Inode (i_mode n) (i_uid n)
                             (overwrite (of_pos f) (take k buf) (i_data n))]> (inodes w))
               (set_writes (tail (writes w)) w))))
  end.
Proof.
  intros Hf Hn Hw. unfold sys_write. rewrite Hf, Hn, Hw.
  destruct (head (writes w)) as [[m|]|]; reflexivity.
Qed.

Lemma next_read_le plan count left c :
  Plan.next_read plan count left = Some c -> c <= left.
Proof.
  unfold Plan.next_read. destruct plan as [[m|]|]; [|discriminate|];
    intros [= <-]; apply Nat.le_min_r.
Qed.

Lemma copy_loop_S fuel srcFd destFd w :
  copy_loop (S fuel) srcFd destFd w =
  let '(bytesRead, w1) := sys_read srcFd 4096 w in
  match bytesRead with
  | Some (b :: bs) =>
      let '(written, w2) := sys_write destFd (b :: bs) w1 in
      match written with
      | Some k =>
          if Nat.eqb k (length (b :: bs)) then copy_loop fuel srcFd destFd w2
          else Some (false, sys_close destFd (sys_close srcFd w2))
      | None => Some (false, sys_close destFd (sys_close srcFd w2))
      end
  | Some [] => Some (true, sys_close destFd (sys_close srcFd w1))
  | None => Some (false, sys_close destFd (sys_close srcFd w1))
  end.
Proof. reflexivity. Qed.

(** Where the plans break the transfer the loop ends with [false]. *)
Lemma copy_loop_breaks (i j srcFd destFd : nat) (ni : inode) :
  srcFd <> destFd -> i <> j -> S_ISDIR (i_mode ni) = false ->
  forall passes fuel pos pos' w nj,
    fds w !! srcFd = Some (OpenFile i pos false) ->
    fds w !! destFd = Some (OpenFile j pos' true) ->
    inodes w !! i = Some ni ->
    inodes w !! j = Some nj ->
    length (i_data ni) - pos < fuel ->
    Plan.breaks 4096 passes (length (i_data ni) - pos) (reads w) (writes w) = true ->
    exists w', copy_loop fuel srcFd destFd w = Some (false, w').
Proof.
  intros Hfds Hij Hdir.
  induction passes as [|passes IH]; intros fuel pos pos' w nj Hsrc Hdest Hi Hj Hfuel Hb;
    [discriminate|].
  destruct fuel as [|fuel]; [lia|].
  rewrite copy_loop_S.
  rewrite (sys_read_plan srcFd 4096 w _ ni Hsrc Hi Hdir).
  simpl of_pos. simpl of_ino. simpl of_writable.
  simpl in Hb.
  destruct (Plan.next_read (head (reads w)) 4096 (length (i_data ni) - pos))
    as [[|c]|] eqn:Hread; [discriminate| |eauto].
  assert (Hc : S c <= length (i_data ni) - pos) by exact (next_read_le _ _ _ _ Hread).
  destruct (take (S c) (drop pos (i_data ni))) as [|b bs] eqn:Hbytes.
  { apply (f_equal length) in Hbytes. rewrite length_take, length_drop in Hbytes.
    rewrite Nat.min_l in Hbytes by exact Hc. discriminate. }
  assert (Hlen : length (b :: bs) = S c).
  { rewrite <- Hbytes, length_take, length_drop. apply Nat.min_l, Hc. }
  set (w1 := log (SysRead srcFd 4096 (Some (S c)))
               (set_fds (<[srcFd := OpenFile i (pos + S c) false]> (fds w))
                  (set_reads (tail (reads w)) w))).
  assert (Hdest1 : fds w1 !! destFd = Some (OpenFile j pos' true)).
  { change (<[srcFd := OpenFile i (pos + S c) false]> (fds w) !! destFd =
            Some (OpenFile j pos' true)).
    rewrite lookup_insert_ne by exact Hfds. exact Hdest. }
  assert (Hj1 : inodes w1 !! j = Some nj) by exact Hj.
  rewrite (sys_write_plan destFd (b :: bs) w1 _ nj Hdest1 Hj1 eq_refl).
  rewrite Hlen.
  change (writes w1) with (writes w).
  destruct (Plan.next_write (head (writes w)) (S c)) as [k|]; [|eauto].
  destruct (Nat.eqb_spec k (S c)) as [Hk|Hk]; [subst k|eauto].
  simpl of_pos. simpl of_ino.
  match goal with
  | |- exists w', copy_loop fuel srcFd destFd ?w2 = _ =>
      apply (IH fuel (pos + S c) (pos' + S c) w2
               (Inode (i_mode nj) (i_uid nj) (overwrite pos' (take (S c) (b :: bs)) (i_data nj))))
  end.
  - change (<[destFd := OpenFile j (pos' + S c) true]>
              (<[srcFd := OpenFile i (pos + S c) false]> (fds w)) !! srcFd =
            Some (OpenFile i (pos + S c) false)).
    rewrite lookup_insert_ne by congruence. apply lookup_insert_eq.
  - change (<[destFd := OpenFile j (pos' + S c) true]>
              (<[srcFd := OpenFile i (pos + S c) false]> (fds w)) !! destFd =
            Some (OpenFile j (pos' + S c) true)).
    apply lookup_insert_eq.
  - change (<[j := Inode (i_mode nj) (i_uid nj)
                     (overwrite pos' (take (S c) (b :: bs)) (i_data nj))]> (inodes w) !! i =
            Some ni).
    rewrite lookup_insert_ne by congruence. exact Hi.
  - change (<[j := Inode (i_mode nj) (i_uid nj)
                     (overwrite pos' (take (S c) (b :: bs)) (i_data nj))]> (inodes w) !! j =
            Some (Inode (i_mode nj) (i_uid nj)
                    (overwrite pos' (take (S c) (b :: bs)) (i_data nj)))).
    apply lookup_insert_eq.
  - lia.
  - replace (length (i_data ni) - (pos + S c)) with (length (i_data ni) - pos - S c)
      by lia.
    exact Hb.
Qed.

Lemma sys_open_rdonly_plans path w :
  reads (snd (sys_open_rdonly path w)) = reads w /\
  writes (snd (sys_open_rdonly path w)) = writes w.
Proof. unfold sys_open_rdonly. repeat case_match; split; reflexivity. Qed.

Lemma sys_open_trunc_plans path mode w :
  reads (snd (sys_open_trunc path mode w)) = reads w /\
  writes (snd (sys_open_trunc path mode w)) = writes w.
Proof. unfold sys_open_trunc. repeat case_match; split; reflexivity. Qed.

(** A copy between two files that meets a failing [read] or a short
    [write] ends with [false]. *)
Lemma copyFileContents_breaks fuel src dest w i n :
  lookup_path w (Str.c_str src) = Some (i, n) ->
  S_ISDIR (i_mode n) = false ->
  names w !! Str.c_str dest <> Some i ->
  length (i_data n) < fuel ->
  Plan.breaks_copy w (length (i_data n)) = true ->
  exists w', copyFileContents fuel src dest w = Some (false, w').
Proof.
  intros Hlook Hdir Hother Hfuel Hb. unfold copyFileContents.
  pose proof (sys_open_rdonly_plans (Str.c_str src) w) as [Hr1 Hw1].
  destruct (sys_open_rdonly (Str.c_str src) w) as [[srcFd|] w1] eqn:Hsrc; [|eauto].
  simpl in Hr1, Hw1.
  pose proof (sys_open_trunc_plans (Str.c_str dest) 420 w1) as [Hr2 Hw2].
  destruct (sys_open_trunc (Str.c_str dest) 420 w1) as [[destFd|] w2] eqn:Hdest;
    [|eauto].
  simpl in Hr2, Hw2.
  apply sys_open_rdonly_spec in Hsrc
    as (Hn1 & _ & Hi1 & Hfree1 & i' & n' & Hlook' & Hfds1).
  rewrite Hlook in Hlook'. injection Hlook' as <- <-.
  apply sys_open_trunc_spec in Hdest
    as (_ & Hfree2 & _ & j & nj & Hname & _ & Hi2 & Hfds2 & Horigin).
  apply lookup_path_Some in Hlook as [Hni Hii].
  assert (Hne : srcFd <> destFd).
  { intros ->. rewrite Hfds1, lookup_insert_eq in Hfree2. discriminate. }
  assert (Hij : i <> j).
  { intros ->. destruct Horigin as [Hj|Hj].
    - rewrite Hn1 in Hj. contradiction.
    - rewrite Hi1 in Hj. congruence. }
  apply (copy_loop_breaks i j srcFd destFd n Hne Hij Hdir
           (S (length (i_data n))) fuel 0 0 w2 nj).
  - rewrite Hfds2, lookup_insert_ne by congruence. rewrite Hfds1. apply lookup_insert_eq.
  - rewrite Hfds2. apply lookup_insert_eq.
  - rewrite Hi2, lookup_insert_ne by congruence. rewrite Hi1. exact Hii.
  - rewrite Hi2. apply lookup_insert_eq.
  - lia.
  - rewrite Nat.sub_0_r, Hr2, Hr1, Hw2, Hw1. exact Hb.
Qed.

End Plans.

Lemma snoc_neq {A : Type} (l : list A) (x : A) : l ++ [x] <> l.
Proof.
  intros H. apply (f_equal length) in H. rewrite length_app in H. simpl in H. lia.
Qed.

(** C5. Whatever the source holds and wherever in the stream it happens:
    if the plans of the world make one of the calls of [write] take fewer
    bytes than it is given (or fail), or make one of the calls of [read]
    fail, before the last byte of the source has been copied, then
    [copyFile] returns, and it returns [false], having printed
    "Error: Cannot copy file".  The source is a file other than the
    destination, of fewer bytes than the fuel. *)
Theorem copy_fails_on_short_write
    (fuel : nat) (currentPath src dest : string) (w : Fs.World)
    (i : nat) (n : Fs.inode) :
  Fs.lookup_path w (Str.c_str (currentPath +:+ "/" +:+ src)) = Some (i, n) ->
  Fs.S_ISDIR (Fs.i_mode n) = false ->
  Fs.names w !! Str.c_str (currentPath +:+ "/" +:+ dest) <> Some i ->
  length (Fs.i_data n) < fuel ->
  Plan.breaks_copy w (length (Fs.i_data n)) = true ->
  exists w2,
    Fs.copyFile fuel currentPath src dest w =
    Some (false, Fs.print Fs.CannotCopyFile w2).
Proof.
  intros Hlook Hdir Hother Hfuel Hbreaks.
  unfold Fs.copyFile, Fs.sys_stat. rewrite Hlook. cbn [option_map snd]. rewrite Hdir.
  destruct (copyFileContents_breaks fuel
              (currentPath +:+ "/" +:+ src) (currentPath +:+ "/" +:+ dest)
              (Fs.log (Fs.SysStat (Str.c_str (currentPath +:+ "/" +:+ src))
                         (Some (Fs.i_mode n))) w) i n Hlook Hdir Hother Hfuel Hbreaks)
    as (w2 & ->).
  exists w2. reflexivity.
Qed.

Lemma copy_fails_on_short_write_witness :
  Plan.breaks_copy Demo.short_write_world 5 = true /\
  exists w2,
    Fs.copyFile 10 "/home" "a.txt" "c.txt" Demo.short_write_world =
    Some (false, Fs.print Fs.CannotCopyFile w2).
Proof.
  split; [reflexivity|].
  apply (copy_fails_on_short_write 10 "/home" "a.txt" "c.txt" Demo.short_write_world
           2 Demo.a_txt).
  - vm_compute. reflexivity.
  - vm_compute. reflexivity.
  - vm_compute. discriminate.
  - simpl. lia.
  - reflexivity.
Defined.

(** A short write in the second pass of the loop. *)
Example copy_fails_on_short_write_run :
  exists w',
    Fs.copyFile 10 "/home" "a.txt" "c.txt" Demo.short_write_world = Some (false, w') /\
    Fs.trace w' =
      [Fs.SysStat "/home/a.txt" (Some 33188%Z);
       Fs.SysOpen "/home/a.txt" false (Some 3);
       Fs.SysOpen "/home/c.txt" true (Some 4);
       Fs.SysRead 3 4096 (Some 2); Fs.SysWrite 4 2 (Some 2);
       Fs.SysRead 3 4096 (Some 2); Fs.SysWrite 4 2 (Some 1);
       Fs.SysClose 3; Fs.SysClose 4] /\
    Fs.console w' = [Fs.CannotCopyFile].
Proof. eexists. split; [|split]; vm_compute; reflexivity. Qed.

(** The same for a failing read. *)
Example copy_fails_on_read_error :
  exists w',
    Fs.copyFile 10 "/home" "a.txt" "c.txt" Demo.read_error_world = Some (false, w') /\
    Fs.trace w' =
      [Fs.SysStat "/home/a.txt" (Some 33188%Z);
       Fs.SysOpen "/home/a.txt" false (Some 3);
       Fs.SysOpen "/home/c.txt" true (Some 4);
       Fs.SysRead 3 4096 (Some 2); Fs.SysWrite 4 2 (Some 2);
       Fs.SysRead 3 4096 None;
       Fs.SysClose 3; Fs.SysClose 4].
Proof. eexists. split; vm_compute; reflexivity. Qed.

(** C6. A permission string whose length is not 3 is refused: the call
    returns [false] and prints "Error: Invalid permission format"; no system
    call is made, so [chmod] is not reached and no inode changes. *)
Theorem chmod_rejects_other_lengths
    (char_signed : bool) (currentPath name perms : string) (w : Fs.World) :
  String.length perms <> 3 ->
  Fs.changePermissions char_signed currentPath name perms w =
    (false, Fs.print Fs.InvalidPermissionFormat w) /\
  Fs.trace (snd (Fs.changePermissions char_signed currentPath name perms w)) =
    Fs.trace w /\
  Fs.inodes (snd (Fs.changePermissions char_signed currentPath name perms w)) =
    Fs.inodes w /\
  Fs.names (snd (Fs.changePermissions char_signed currentPath name perms w)) =
    Fs.names w.
Proof.
  intros Hlen. rewrite (changePermissions_rejects _ _ _ _ _ Hlen).
  repeat split.
Qed.

Lemma chmod_rejects_other_lengths_witness :
  String.length "7555" <> 3 /\
  Fs.changePermissions true "/home" "a.txt" "7555" Demo.world =
    (false, Fs.print Fs.InvalidPermissionFormat Demo.world) /\
  Fs.trace (snd (Fs.changePermissions true "/home" "a.txt" "7555" Demo.world)) =
    Fs.trace Demo.world /\
  Fs.inodes (snd (Fs.changePermissions true "/home" "a.txt" "7555" Demo.world)) =
    Fs.inodes Demo.world /\
  Fs.names (snd (Fs.changePermissions true "/home" "a.txt" "7555" Demo.world)) =
    Fs.names Demo.world.
Proof.
  split; [simpl; lia|].
  apply (chmod_rejects_other_lengths true "/home" "a.txt" "7555" Demo.world).
  simpl. lia.
Defined.

(** C10. The only check is the length: the call is refused with "Invalid
    permission format" exactly when the length is not 3.  For any three
    characters, digits or not, the mode is
    ((c0 - '0') << 6) | ((c1 - '0') << 3) | (c2 - '0') on their character
    codes, converted to [mode_t], and [chmod] is called with it: "abc" gives
    06763 and "999" gives 01111. *)
Theorem chmod_checks_length_only
    (char_signed : bool) (currentPath name perms : string) (c0 c1 c2 : ascii)
    (w : Fs.World) :
  (Fs.changePermissions char_signed currentPath name perms w =
     (false, Fs.print Fs.InvalidPermissionFormat w) <->
   String.length perms <> 3) /\
  (let three := String c0 (String c1 (String c2 EmptyString)) in
   let value := Fs.char_value char_signed in
   let mode :=
     Fs.to_mode_t
       (Z.lor (Z.lor (Z.shiftl (value c0 - value "0"%char) 6)
                     (Z.shiftl (value c1 - value "0"%char) 3))
              (value c2 - value "0"%char)) in
   let r := Fs.sys_chmod (Str.c_str (currentPath +:+ "/" +:+ name)) mode w in
   Fs.changePermissions char_signed currentPath name three w =
     (fst r, Fs.print (if fst r then Fs.PermissionsChanged name three
                       else Fs.CannotChangePermissions) (snd r)) /\
   Fs.trace (snd (Fs.changePermissions char_signed currentPath name three w)) =
     Fs.trace w ++
     [Fs.SysChmod (Str.c_str (currentPath +:+ "/" +:+ name)) mode (fst r)]) /\
  Fs.mode_of char_signed "abc" = 3571%Z /\
  Fs.mode_of char_signed "999" = 585%Z.
Proof.
  split; [|split; [|destruct char_signed; split; vm_compute; reflexivity]].
  - split.
    + intros Hrej Hlen.
      rewrite (changePermissions_attempts _ _ _ _ _ Hlen) in Hrej.
      apply (f_equal (fun r => Fs.trace (snd r))) in Hrej. cbv beta zeta in Hrej.
      unfold snd at 1 3 in Hrej.
      rewrite !print_trace, sys_chmod_trace in Hrej.
      exact (snoc_neq _ _ Hrej).
    + apply changePermissions_rejects.
  - intros three value mode r.
    assert (Hrun : Fs.changePermissions char_signed currentPath name three w =
                   (fst r, Fs.print (if fst r then Fs.PermissionsChanged name three
                                     else Fs.CannotChangePermissions) (snd r)))
      by (apply changePermissions_attempts; reflexivity).
    split; [exact Hrun|].
    rewrite Hrun. simpl snd. rewrite print_trace. apply sys_chmod_trace.
Qed.

(** On a file of the caller both strings go through: the file ends up with
    the modes 06763 and 01111. *)
Example chmod_accepts_abc_and_999 :
  (let r := Fs.changePermissions true "/home" "a.txt" "abc" Demo.world in
   fst r = true /\
   option_map (fun p => Fs.perm_bits (Fs.i_mode (snd p)))
     (Fs.lookup_path (snd r) "/home/a.txt") = Some 3571%Z) /\
  (let r := Fs.changePermissions true "/home" "a.txt" "999" Demo.world in
   fst r = true /\
   option_map (fun p => Fs.perm_bits (Fs.i_mode (snd p)))
     (Fs.lookup_path (snd r) "/home/a.txt") = Some 585%Z).
Proof. vm_compute. repeat split. Qed.

(** C4. The destination /home/b.txt exists, belongs to another user and is
    writable by everybody.  The copy writes the bytes, [chmod] is refused,
    and [copyFile] returns [true] all the same: the contents agree, but the
    destination keeps the permission bits 0666 while [stat] saw 0644 on the
    source. *)
Theorem copyFile_ignores_chmod_failure :
  exists w',
    Fs.copyFile 10 "/home" "a.txt" "b.txt" Demo.shared_world = Some (true, w') /\
    last (Fs.trace w') = Some (Fs.SysChmod "/home/b.txt" 33188 false) /\
    option_map (fun p => Fs.i_data (snd p)) (Fs.lookup_path w' "/home/b.txt") =
      option_map (fun p => Fs.i_data (snd p)) (Fs.lookup_path w' "/home/a.txt") /\
    option_map (fun p => Fs.perm_bits (Fs.i_mode (snd p)))
      (Fs.lookup_path w' "/home/a.txt") = Some 420%Z /\
    option_map (fun p => Fs.perm_bits (Fs.i_mode (snd p)))
      (Fs.lookup_path w' "/home/b.txt") = Some 438%Z.
Proof. eexists. split; [vm_compute; reflexivity|]. vm_compute. repeat split. Qed.


(** ** getPermissions *)

Lemma land_low_bits (mode bit : Z) :
  Z.land 511 bit = bit -> Z.land mode bit = Z.land (Z.land mode 511) bit.
Proof. intros H. rewrite <- Z.land_assoc, H. reflexivity. Qed.

(** The string depends on the directory test and on the low nine bits
    only. *)
Lemma getPermissions_render (mode : Z) :
  Perm.getPermissions mode = Perm.render (Fs.S_ISDIR mode) (Z.land mode 511).
Proof.
  unfold Perm.getPermissions, Perm.render, Perm.flag.
  unfold Fs.S_IRUSR, Fs.S_IWUSR, Perm.S_IXUSR, Perm.S_IRGRP, Perm.S_IWGRP,
    Perm.S_IXGRP, Fs.S_IROTH, Fs.S_IWOTH, Perm.S_IXOTH.
  rewrite !append_nil.
  rewrite <- !(land_low_bits mode) by reflexivity.
  reflexivity.
Qed.

Lemma land_511_range (mode : Z) : (0 <= Z.land mode 511 < 512)%Z.
Proof.
  change 511%Z with (Z.ones 9). rewrite Z.land_ones by lia.
  apply Z.mod_pos_bound. reflexivity.
Qed.

Lemma read_render_all :
  forallb (fun n =>
             match Perm.read_permissions (Perm.render true (Z.of_nat n)),
                   Perm.read_permissions (Perm.render false (Z.of_nat n)) with
             | Some (true, a), Some (false, b) =>
                 Z.eqb a (Z.of_nat n) && Z.eqb b (Z.of_nat n)
             | _, _ => false
             end) (seq 0 512) = true.
Proof. vm_compute. reflexivity. Qed.

Lemma read_render (dir : bool) (bits : Z) :
  (0 <= bits < 512)%Z ->
  Perm.read_permissions (Perm.render dir bits) = Some (dir, bits).
Proof.
  intros Hbits. pose proof read_render_all as Hall.
  rewrite forallb_forall in Hall.
  specialize (Hall (Z.to_nat bits)). rewrite Z2Nat.id in Hall by lia.
  assert (Hin : In (Z.to_nat bits) (seq 0 512)) by (apply in_seq; lia).
  specialize (Hall Hin).
  destruct (Perm.read_permissions (Perm.render true bits)) as [[[|] a]|] eqn:Et;
    try discriminate;
    destruct (Perm.read_permissions (Perm.render false bits)) as [[[|] b]|] eqn:Ef;
    try discriminate.
  apply andb_true_iff in Hall as [Ha Hb].
  apply Z.eqb_eq in Ha, Hb. subst a. destruct dir; congruence.
Qed.

(** X1. Round trip: reading the string of [getPermissions] back gives the
    directory test and the nine low permission bits of the mode. *)
Theorem getPermissions_read_back (mode : Z) :
  Perm.read_permissions (Perm.getPermissions mode) =
  Some (Fs.S_ISDIR mode, Z.land mode 511).
Proof.
  rewrite getPermissions_render. apply read_render. apply land_511_range.
Qed.

(** X2. Two modes are shown alike exactly when they agree on being a
    directory and on the nine low bits: the set-user-ID, set-group-ID and
    sticky bits, and the file type other than directory, never show. *)
Theorem getPermissions_same_string (m1 m2 : Z) :
  Perm.getPermissions m1 = Perm.getPermissions m2 <->
  Fs.S_ISDIR m1 = Fs.S_ISDIR m2 /\ Z.land m1 511 = Z.land m2 511.
Proof.
  split.
  - intros Heq. apply (f_equal Perm.read_permissions) in Heq.
    rewrite !getPermissions_render in Heq.
    rewrite !read_render in Heq by apply land_511_range.
    injection Heq as H1 H2. auto.
  - intros [Hd Hb]. rewrite !getPermissions_render, Hd, Hb. reflexivity.
Qed.


(** ** More on the search *)

Section SearchAnyKernel.

Variable opendir : string -> option (list dirent).
Variable pattern : string.

#[local] Abbreviation reported := (Report.reported opendir pattern).

Lemma reported_refl path w : reported path w w.
Proof. exists []. rewrite app_nil_r. split; [reflexivity|constructor]. Qed.

Lemma reported_trans path w0 w1 w2 :
  reported path w0 w1 -> reported path w1 w2 -> reported path w0 w2.
Proof.
  intros (n1 & E1 & F1) (n2 & E2 & F2). exists (n1 ++ n2). split.
  - rewrite E2, E1, <- app_assoc. reflexivity.
  - apply Forall_app. split; assumption.
Qed.

Lemma reported_deeper path dir w0 w :
  reported (path +:+ "/" +:+ dir) w0 w -> reported path w0 w.
Proof.
  intros (new & E & F). exists new. split; [exact E|].
  eapply List.Forall_impl; [|exact F].
  intros p (name & (rest & entries & _ & Hopen & Hin & ->) & Hdot & Hocc).
  exists name. split; [|split; assumption].
  exists ("/" +:+ dir +:+ rest), entries.
  assert (Hdir : path +:+ "/" +:+ dir +:+ rest = (path +:+ "/" +:+ dir) +:+ rest)
    by (rewrite !append_assoc; reflexivity).
  split; [right; exists (dir +:+ rest); reflexivity|].
  rewrite Hdir. auto.
Qed.

Lemma reported_log path w : reported path w (log_opendir path w).
Proof. exists []. simpl. rewrite app_nil_r. split; [reflexivity|constructor]. Qed.

(** The loop over a part [es] of the stream of [path]. *)
Lemma readdir_loop_reported self path entries es :
  opendir (Str.c_str path) = Some entries ->
  (forall p w0 w, self p pattern w0 = Some w -> reported p w0 w) ->
  (forall e, In e es -> In e entries) ->
  forall w0 w,
    readdir_loop self path pattern es w0 = Some w -> reported path w0 w.
Proof.
  intros Hopen Hself. induction es as [|e es IH]; intros Hsub w0 w; simpl.
  - intros [= <-]. apply reported_refl.
  - assert (Hsub' : forall e', In e' es -> In e' entries)
      by (intros e' He'; apply Hsub; right; exact He').
    destruct (is_dot (d_name e)) eqn:Edot; [apply IH, Hsub'|].
    set (w1 := match Str.find (d_name e) pattern with
               | Some _ => push_back (path +:+ "/" +:+ d_name e) w0
               | None => w0
               end).
    assert (H1 : reported path w0 w1).
    { subst w1. destruct (Str.find (d_name e) pattern) as [i|] eqn:Ef;
        [|apply reported_refl].
      exists [path +:+ "/" +:+ d_name e]. split; [reflexivity|].
      constructor; [|constructor]. exists (d_name e).
      split; [|split; [exact Edot|apply find_occurs; congruence]].
      exists EmptyString, entries. rewrite append_empty_r.
      split; [left; reflexivity|]. split; [exact Hopen|].
      split; [|reflexivity]. apply in_map, Hsub. left. reflexivity. }
    destruct (dtype_eqb (d_type e) DT_DIR).
    + destruct (self _ pattern w1) as [w2|] eqn:Es; [|discriminate].
      intros Hrest. apply Hself in Es as H2.
      eapply reported_trans; [exact H1|].
      eapply reported_trans; [eapply reported_deeper; exact H2|].
      apply (IH Hsub'), Hrest.
    + intros Hrest. eapply reported_trans; [exact H1|]. apply (IH Hsub'), Hrest.
Qed.

Lemma search_reported fuel :
  forall path w0 w,
    searchInDirectory opendir fuel path pattern w0 = Some w ->
    reported path w0 w.
Proof.
  induction fuel as [|fuel IH]; intros path w0 w; [discriminate|].
  simpl. destruct (opendir (Str.c_str path)) as [es|] eqn:Hopen.
  - intros Hrun. eapply reported_trans; [apply reported_log|].
    revert Hrun. apply (readdir_loop_reported _ path es es Hopen IH). auto.
  - intros [= <-]. apply reported_log.
Qed.

End SearchAnyKernel.

(** X3. Whatever the kernel delivers, every path that the search reports
    is the path of a directory at or below the root that opens, a
    separator, and the name of an entry of the stream of that directory;
    that name contains the pattern and is neither "." nor "..". *)
Theorem search_only_reports_matches
    (opendir : string -> option (list dirent)) (fuel : nat)
    (root pattern : string) (w : walk) :
  searchInDirectory opendir fuel root pattern start = Some w ->
  Forall (fun p => exists name, Report.below opendir root name p /\
                                is_dot name = false /\
                                Str.occurs pattern name) (results w).
Proof.
  intros Hrun. apply search_reported in Hrun as (new & E & F).
  rewrite E. exact F.
Qed.

Lemma search_only_reports_matches_witness :
  searchInDirectory example_kernel 2 "/a" "b" start =
    Some (Walk ["/a/b.txt"; "/a/c/b_old.txt"] ["/a"; "/a/c"]) /\
  Forall (fun p => exists name, Report.below example_kernel "/a" name p /\
                                is_dot name = false /\
                                Str.occurs "b" name)
         ["/a/b.txt"; "/a/c/b_old.txt"].
Proof.
  split; [reflexivity|].
  apply (search_only_reports_matches example_kernel 2 "/a" "b"
           (Walk ["/a/b.txt"; "/a/c/b_old.txt"] ["/a"; "/a/c"])).
  reflexivity.
Defined.

Lemma occurs_empty (name : string) : Str.occurs EmptyString name.
Proof. exists EmptyString, name. reflexivity. Qed.

(** X4. With the empty pattern every name matches: on a tree whose
    directories open and are hinted [DT_DIR] the search returns the paths of
    all descendants. *)
Theorem search_empty_pattern_lists_all
    (opendir : string -> option (list dirent)) (root : string) (cs : list tree) :
  holds opendir root cs ->
  forallb faithful cs = true ->
  exists w,
    searchInDirectory opendir (S (depth_all cs)) root EmptyString start = Some w /\
    forall p, In p (results w) <-> exists name, descendant root cs p name.
Proof.
  intros Hholds Hf. eexists. split; [apply search_tree; [exact Hholds|lia]|].
  simpl. intros p. split.
  - intros Hin. apply found_all_sound in Hin as (name & Hd & _). eauto.
  - intros (name & Hd). eapply found_all_complete; eauto using occurs_empty.
Qed.

Lemma search_empty_pattern_lists_all_witness :
  exists w,
    searchInDirectory example_kernel 2 "/a" EmptyString start = Some w /\
    forall p, In p (results w) <-> exists name, descendant "/a" example_tree p name.
Proof.
  apply (search_empty_pattern_lists_all example_kernel "/a" example_tree).
  - exact holds_example.
  - reflexivity.
Defined.

(** X5. On such a tree [searchFiles] prints "No files found matching
    pattern." exactly when no descendant has the pattern in its name;
    otherwise the number it announces is the number of paths it prints
    after it. *)
Theorem searchFiles_report
    (opendir : string -> option (list dirent)) (currentPath : string)
    (cs : list tree) (pattern : string) (fuel : nat) :
  holds opendir currentPath cs ->
  forallb faithful cs = true ->
  depth_all cs < fuel ->
  exists paths,
    Report.searchFiles opendir fuel currentPath pattern =
      Some (Report.Searching pattern currentPath ::
            match paths with
            | [] => [Report.NoFilesFound]
            | _ => Report.FoundResults (length paths) :: map Report.ResultPath paths
            end) /\
    (paths = [] <->
     ~ exists p name, descendant currentPath cs p name /\ Str.occurs pattern name) /\
    (forall p, In p paths <->
               exists name, descendant currentPath cs p name /\ Str.occurs pattern name).
Proof.
  intros Hholds Hf Hfuel.
  exists (flat_map (found pattern currentPath) cs).
  assert (Hiff : forall p, In p (flat_map (found pattern currentPath) cs) <->
                 exists name, descendant currentPath cs p name /\ Str.occurs pattern name).
  { intros p. split; [apply found_all_sound|].
    intros (name & Hd & Hocc). eapply found_all_complete; eassumption. }
  split; [|split; [|exact Hiff]].
  - unfold Report.searchFiles.
    rewrite (search_tree opendir pattern fuel currentPath cs start Hholds Hfuel).
    simpl. destruct (flat_map (found pattern currentPath) cs); reflexivity.
  - split.
    + intros Hnil (p & name & H).
      assert (Hin : In p (flat_map (found pattern currentPath) cs))
        by (apply Hiff; exists name; exact H).
      rewrite Hnil in Hin. destruct Hin.
    + intros Hnone. destruct (flat_map (found pattern currentPath) cs) as [|p l] eqn:E;
        [reflexivity|]. exfalso. apply Hnone.
      destruct (proj1 (Hiff p)) as (name & H); [left; reflexivity|].
      exists p, name. exact H.
Qed.

Lemma searchFiles_report_witness :
  exists paths,
    Report.searchFiles example_kernel 2 "/a" "b" =
      Some (Report.Searching "b" "/a" ::
            match paths with
            | [] => [Report.NoFilesFound]
            | _ => Report.FoundResults (length paths) :: map Report.ResultPath paths
            end) /\
    (paths = [] <->
     ~ exists p name, descendant "/a" example_tree p name /\ Str.occurs "b" name) /\
    (forall p, In p paths <->
               exists name, descendant "/a" example_tree p name /\ Str.occurs "b" name).
Proof.
  apply (searchFiles_report example_kernel "/a" example_tree "b" 2).
  - exact holds_example.
  - reflexivity.
  - simpl. lia.
Defined.



(** ** listFiles *)

Lemma leb_trans (a b c : string) :
  String.leb a b = true -> String.leb b c = true -> String.leb a c = true.
Proof.
  unfold String.leb. revert b c.
  induction a as [|x a IH]; intros [|y b] [|z c]; simpl; try easy.
  unfold Ascii.compare.
  destruct (N.compare_spec (N_of_ascii x) (N_of_ascii y)) as [Hxy|Hxy|Hxy];
    destruct (N.compare_spec (N_of_ascii y) (N_of_ascii z)) as [Hyz|Hyz|Hyz];
    destruct (N.compare_spec (N_of_ascii x) (N_of_ascii z)) as [Hxz|Hxz|Hxz];
    try easy; try lia.
  apply IH.
Qed.

#[local] Instance string_le_total : Total Listing.string_le.
Proof. intros a b. apply String.leb_total. Qed.

#[local] Instance string_le_trans : Transitive Listing.string_le.
Proof. intros a b c. apply leb_trans. Qed.

Lemma sort_sorted (l : list string) : StronglySorted Listing.string_le (Listing.sort l).
Proof. apply StronglySorted_merge_sort; apply _. Qed.

Lemma sort_In (l : list string) (x : string) : In x (Listing.sort l) <-> In x l.
Proof.
  unfold Listing.sort. split; apply Permutation_in;
    [|symmetry]; apply merge_sort_Permutation.
Qed.

Section ListingFacts.

Variable opendir : string -> option (list dirent).
Variable stat : string -> option Listing.stat_t.
Variable getpwuid getgrgid : Z -> option string.
Variable formatSize strftime : Z -> string.

#[local] Abbreviation loop :=
  (Listing.readdir_loop stat getpwuid getgrgid formatSize strftime).
#[local] Abbreviation listing :=
  (Listing.listFiles opendir stat getpwuid getgrgid formatSize strftime).

(** The simple listing gathers the directories and the files in the order
    of the stream and prints no row. *)
Lemma readdir_loop_simple currentPath entries :
  forall g,
    loop false currentPath entries g =
    Listing.Gathered (Listing.rows g)
      (Listing.directories g ++ Listing.shown stat true currentPath entries)
      (Listing.files g ++ Listing.shown stat false currentPath entries).
Proof.
  induction entries as [|e es IH]; intros [r d f]; simpl.
  - rewrite !app_nil_r. reflexivity.
  - unfold Listing.shown in *. simpl.
    destruct (String.eqb (d_name e) "."); simpl; [apply IH|].
    destruct (stat _) as [st|]; [|apply IH].
    destruct (Fs.S_ISDIR (Listing.st_mode st)); simpl; rewrite IH; simpl;
      rewrite <- ?app_assoc; reflexivity.
Qed.

(** The detailed listing prints one row for each entry other than "."
    whose [stat] succeeds, in the order of the stream, and gathers
    nothing. *)
Lemma readdir_loop_detailed currentPath entries :
  forall g,
    exists new,
      loop true currentPath entries g =
        Listing.Gathered (Listing.rows g ++ new) (Listing.directories g)
          (Listing.files g) /\
      map Listing.r_name new =
        List.filter
          (fun name =>
             negb (String.eqb name ".") &&
             match stat (Str.c_str (currentPath +:+ "/" +:+ name)) with
             | Some _ => true
             | None => false
             end) (map d_name entries) /\
      Forall (fun r =>
                exists st,
                  stat (Str.c_str (currentPath +:+ "/" +:+ Listing.r_name r)) = Some st /\
                  r = Listing.detailed_row getpwuid getgrgid formatSize strftime
                        (Listing.r_name r) st) new.
Proof.
  induction entries as [|e es IH]; intros [r d f]; simpl.
  - exists []. rewrite app_nil_r. repeat split. constructor.
  - destruct (String.eqb (d_name e) "."); simpl; [apply IH|].
    destruct (stat _) as [st|] eqn:Est; [|apply IH].
    destruct (IH (Listing.Gathered
                    (r ++ [Listing.detailed_row getpwuid getgrgid formatSize strftime
                             (d_name e) st]) d f)) as (new & Hrun & Hnames & Hrows).
    exists (Listing.detailed_row getpwuid getgrgid formatSize strftime (d_name e) st
            :: new).
    split; [rewrite Hrun; simpl; rewrite <- app_assoc; reflexivity|].
    split; [simpl; rewrite Hnames; reflexivity|].
    constructor; [|exact Hrows]. exists st. split; [exact Est|reflexivity].
Qed.

End ListingFacts.


(** X6. The simple listing of a directory that opens is: the header and a
    rule, the directories in ascending order of their names, then the other
    entries in ascending order, and a rule.  What it shows are the entries
    of the stream other than "." whose [stat] succeeds, each as often as the
    stream has it; ".." is among the directories. *)
Theorem listFiles_simple
    (opendir : string -> option (list dirent))
    (stat : string -> option Listing.stat_t)
    (getpwuid getgrgid : Z -> option string) (formatSize strftime : Z -> string)
    (currentPath : string) (entries : list dirent) :
  opendir (Str.c_str currentPath) = Some entries ->
  exists dirs files,
    Listing.listFiles opendir stat getpwuid getgrgid formatSize strftime
      currentPath false =
      [Listing.CurrentDirectory currentPath; Listing.Rule "="] ++
      map Listing.DirEntry dirs ++ map Listing.FileEntry files ++
      [Listing.Rule "="] /\
    StronglySorted Listing.string_le dirs /\
    StronglySorted Listing.string_le files /\
    dirs ≡ₚ Listing.shown stat true currentPath entries /\
    files ≡ₚ Listing.shown stat false currentPath entries.
Proof.
  intros Hopen.
  exists (Listing.sort (Listing.shown stat true currentPath entries)),
         (Listing.sort (Listing.shown stat false currentPath entries)).
  split.
  - unfold Listing.listFiles. rewrite Hopen, readdir_loop_simple. simpl.
    rewrite <- app_assoc. reflexivity.
  - split; [apply sort_sorted|]. split; [apply sort_sorted|].
    split; apply merge_sort_Permutation.
Qed.

Lemma listFiles_simple_witness :
  exists dirs files,
    Listing.listFiles Listing.home_opendir Listing.home_stat
      (fun _ => None) (fun _ => None) (fun _ => EmptyString) (fun _ => EmptyString)
      "/home" false =
      [Listing.CurrentDirectory "/home"; Listing.Rule "="] ++
      map Listing.DirEntry dirs ++ map Listing.FileEntry files ++
      [Listing.Rule "="] /\
    StronglySorted Listing.string_le dirs /\
    StronglySorted Listing.string_le files /\
    dirs ≡ₚ [".."; "src"; "bin"] /\
    files ≡ₚ ["notes.txt"; "Makefile"].
Proof.
  apply (listFiles_simple Listing.home_opendir Listing.home_stat
           (fun _ => None) (fun _ => None) (fun _ => EmptyString)
           (fun _ => EmptyString) "/home" Listing.home_entries).
  reflexivity.
Defined.

Lemma shown_In stat want_dir currentPath entries name :
  In name (Listing.shown stat want_dir currentPath entries) <->
  In name (map d_name entries) /\ name <> "." /\
  exists st, stat (Str.c_str (currentPath +:+ "/" +:+ name)) = Some st /\
             Fs.S_ISDIR (Listing.st_mode st) = want_dir.
Proof.
  unfold Listing.shown. rewrite filter_In. split.
  - intros [Hin Hf]. apply andb_true_iff in Hf as [Hdot Hst].
    split; [exact Hin|]. split.
    + intros ->. discriminate.
    + destruct (stat _) as [st|]; [|discriminate]. exists st.
      split; [reflexivity|]. apply Bool.eqb_prop. exact Hst.
  - intros (Hin & Hdot & st & Hst & Hdir). split; [exact Hin|].
    apply andb_true_iff. split.
    + apply negb_true_iff, String.eqb_neq. exact Hdot.
    + rewrite Hst, Hdir. apply Bool.eqb_reflx.
Qed.

(** X7. A name is listed as a directory exactly when the stream has it, it
    is not ".", and [stat] on it succeeds and says directory; it is listed
    as a file exactly when it is in the stream, [stat] succeeds and says
    anything else.  An entry whose [stat] fails is listed nowhere. *)
Theorem listFiles_simple_entries
    (opendir : string -> option (list dirent))
    (stat : string -> option Listing.stat_t)
    (getpwuid getgrgid : Z -> option string) (formatSize strftime : Z -> string)
    (currentPath : string) (entries : list dirent) (name : string) :
  opendir (Str.c_str currentPath) = Some entries ->
  let out := Listing.listFiles opendir stat getpwuid getgrgid formatSize strftime
               currentPath false in
  (In (Listing.DirEntry name) out <->
   In name (map d_name entries) /\ name <> "." /\
   exists st, stat (Str.c_str (currentPath +:+ "/" +:+ name)) = Some st /\
              Fs.S_ISDIR (Listing.st_mode st) = true) /\
  (In (Listing.FileEntry name) out <->
   In name (map d_name entries) /\ name <> "." /\
   exists st, stat (Str.c_str (currentPath +:+ "/" +:+ name)) = Some st /\
              Fs.S_ISDIR (Listing.st_mode st) = false).
Proof.
  intros Hopen out. subst out.
  unfold Listing.listFiles. rewrite Hopen, readdir_loop_simple. simpl.
  rewrite <- !shown_In.
  rewrite <- (sort_In (Listing.shown stat true currentPath entries)).
  rewrite <- (sort_In (Listing.shown stat false currentPath entries)).
  set (ds := Listing.sort (Listing.shown stat true currentPath entries)).
  set (fs := Listing.sort (Listing.shown stat false currentPath entries)).
  assert (Hd : forall x, In (Listing.DirEntry x) (map Listing.DirEntry ds) <-> In x ds).
  { intros x. rewrite in_map_iff. split; [intros (y & [= ->] & Hy); exact Hy|eauto]. }
  assert (Hf : forall x, In (Listing.FileEntry x) (map Listing.FileEntry fs) <-> In x fs).
  { intros x. rewrite in_map_iff. split; [intros (y & [= ->] & Hy); exact Hy|eauto]. }
  assert (Hdf : forall x, ~ In (Listing.DirEntry x) (map Listing.FileEntry fs)).
  { intros x H. apply in_map_iff in H as (y & Hy & _). discriminate. }
  assert (Hfd : forall x, ~ In (Listing.FileEntry x) (map Listing.DirEntry ds)).
  { intros x H. apply in_map_iff in H as (y & Hy & _). discriminate. }
  simpl. rewrite !in_app_iff. simpl. rewrite Hd, Hf. split; split.
  - intros [H|[H|[[H|H]|[H|[]]]]]; try discriminate; [exact H|].
    destruct (Hdf _ H).
  - intros H. right. right. left. left. exact H.
  - intros [H|[H|[[H|H]|[H|[]]]]]; try discriminate; [|exact H].
    destruct (Hfd _ H).
  - intros H. right. right. left. right. exact H.
Qed.

Lemma listFiles_simple_entries_witness :
  let out := Listing.listFiles Listing.home_opendir Listing.home_stat
               (fun _ => None) (fun _ => None) (fun _ => EmptyString)
               (fun _ => EmptyString) "/home" false in
  (In (Listing.DirEntry "..") out <->
   In ".." (map d_name Listing.home_entries) /\ ".." <> "." /\
   exists st, Listing.home_stat (Str.c_str ("/home" +:+ "/" +:+ "..")) = Some st /\
              Fs.S_ISDIR (Listing.st_mode st) = true) /\
  (In (Listing.FileEntry "..") out <->
   In ".." (map d_name Listing.home_entries) /\ ".." <> "." /\
   exists st, Listing.home_stat (Str.c_str ("/home" +:+ "/" +:+ "..")) = Some st /\
              Fs.S_ISDIR (Listing.st_mode st) = false).
Proof.
  apply (listFiles_simple_entries Listing.home_opendir Listing.home_stat
           (fun _ => None) (fun _ => None) (fun _ => EmptyString)
           (fun _ => EmptyString) "/home" Listing.home_entries "..").
  reflexivity.
Defined.

(** X8. The detailed listing of a directory that opens is not sorted: after
    the header it has one row for each entry of the stream other than "."
    whose [stat] succeeds, in the order of the stream, and the permission
    column of a row reads back as the directory test and the nine low bits
    of the mode that [stat] gave for that name. *)
Theorem listFiles_detailed
    (opendir : string -> option (list dirent))
    (stat : string -> option Listing.stat_t)
    (getpwuid getgrgid : Z -> option string) (formatSize strftime : Z -> string)
    (currentPath : string) (entries : list dirent) :
  opendir (Str.c_str currentPath) = Some entries ->
  exists rows,
    Listing.listFiles opendir stat getpwuid getgrgid formatSize strftime
      currentPath true =
      [Listing.CurrentDirectory currentPath; Listing.Rule "=";
       Listing.ColumnTitles; Listing.Rule "-"] ++
      map Listing.Detailed rows ++ [Listing.Rule "="] /\
    map Listing.r_name rows =
      List.filter
        (fun name =>
           negb (String.eqb name ".") &&
           match stat (Str.c_str (currentPath +:+ "/" +:+ name)) with
           | Some _ => true
           | None => false
           end) (map d_name entries) /\
    Forall (fun r =>
              exists st,
                stat (Str.c_str (currentPath +:+ "/" +:+ Listing.r_name r)) = Some st /\
                Perm.read_permissions (Listing.r_perms r) =
                  Some (Fs.S_ISDIR (Listing.st_mode st),
                        Z.land (Listing.st_mode st) 511)) rows.
Proof.
  intros Hopen.
  destruct (readdir_loop_detailed stat getpwuid getgrgid formatSize strftime
              currentPath entries (Listing.Gathered [] [] []))
    as (rows & Hrun & Hnames & Hrows).
  exists rows. split; [|split; [exact Hnames|]].
  - unfold Listing.listFiles. rewrite Hopen, Hrun. simpl. reflexivity.
  - eapply List.Forall_impl; [|exact Hrows].
    intros r (st & Hst & Hr). exists st. split; [exact Hst|].
    replace (Listing.r_perms r) with (Perm.getPermissions (Listing.st_mode st))
      by (rewrite Hr; reflexivity).
    rewrite getPermissions_render. apply read_render, land_511_range.
Qed.

Lemma listFiles_detailed_witness :
  exists rows,
    Listing.listFiles Listing.home_opendir Listing.home_stat
      (fun _ => None) (fun _ => None) (fun _ => EmptyString) (fun _ => EmptyString)
      "/home" true =
      [Listing.CurrentDirectory "/home"; Listing.Rule "=";
       Listing.ColumnTitles; Listing.Rule "-"] ++
      map Listing.Detailed rows ++ [Listing.Rule "="] /\
    map Listing.r_name rows = ["notes.txt"; ".."; "src"; "Makefile"; "bin"] /\
    Forall (fun r =>
              exists st,
                Listing.home_stat (Str.c_str ("/home" +:+ "/" +:+ Listing.r_name r))
                  = Some st /\
                Perm.read_permissions (Listing.r_perms r) =
                  Some (Fs.S_ISDIR (Listing.st_mode st),
                        Z.land (Listing.st_mode st) 511)) rows.
Proof.
  apply (listFiles_detailed Listing.home_opendir Listing.home_stat
           (fun _ => None) (fun _ => None) (fun _ => EmptyString)
           (fun _ => EmptyString) "/home" Listing.home_entries).
  reflexivity.
Defined.


(** ** More on navigation *)

Lemma slash_free_not_absolute (n : string) :
  ~ Str.has_slash n -> Ascii.eqb (Str.at_ n 0) "/" = false.
Proof.
  intros Hn. destruct (Ascii.eqb (Str.at_ n 0) "/") eqn:E; [|reflexivity].
  apply at_0_slash in E as [rest ->]. exfalso. apply Hn.
  exists EmptyString, rest. reflexivity.
Qed.

(** A token that is not ".." and does not start with '/' is appended to the
    cursor. *)
Lemma newPath_relative (currentPath path : string) :
  path <> ".." -> Ascii.eqb (Str.at_ path 0) "/" = false ->
  Nav.newPath currentPath path = currentPath +:+ "/" +:+ path.
Proof.
  intros Hdots Hrel. unfold Nav.newPath.
  destruct (String.eqb_spec path ".."); [contradiction|]. rewrite Hrel. reflexivity.
Qed.

Lemma find_last_of_lt (s : string) (c : ascii) (pos : nat) :
  Str.find_last_of s c = Some pos -> pos < String.length s.
Proof.
  revert pos. induction s as [|a s IH]; intros pos; simpl; [discriminate|].
  destruct (Str.find_last_of s c) as [i|].
  - intros [= <-]. specialize (IH i eq_refl). lia.
  - destruct (Ascii.eqb a c); [|discriminate]. intros [= <-]. lia.
Qed.

Lemma substr0_split (s : string) (pos : nat) :
  pos <= String.length s ->
  String.length (Str.substr0 s pos) = pos /\
  exists rest, s = Str.substr0 s pos +:+ rest.
Proof.
  unfold Str.substr0. revert pos. induction s as [|a s IH]; intros [|pos] Hpos;
    simpl in *; try lia.
  - split; [reflexivity|]. exists EmptyString. reflexivity.
  - split; [reflexivity|]. exists (String a s). reflexivity.
  - destruct (IH pos) as (Hlen & rest & Hrest); [lia|].
    split; [lia|]. exists rest. rewrite append_cons, <- Hrest. reflexivity.
Qed.

Lemma find_last_of_split (s : string) (c : ascii) (pos : nat) :
  Str.find_last_of s c = Some pos ->
  exists rest, s = Str.substr0 s pos +:+ String c rest.
Proof.
  unfold Str.substr0. revert pos. induction s as [|a s IH]; intros pos; simpl;
    [discriminate|].
  destruct (Str.find_last_of s c) as [i|].
  - intros [= <-]. destruct (IH i eq_refl) as (rest & Hrest).
    exists rest. simpl. rewrite append_cons, <- Hrest. reflexivity.
  - destruct (Ascii.eqb_spec a c) as [->|]; [|discriminate].
    intros [= <-]. exists s. reflexivity.
Qed.

(** One step up from the root, from [cur], or from [cur] cut in front of
    one of its separators leads to the root or to a shorter cut of [cur]. *)
Lemma newPath_up (cur c : string) :
  Str.absolute c -> (c = "/" \/ c = cur \/ exists rest, cur = c +:+ "/" +:+ rest) ->
  let c' := Nav.newPath c ".." in
  Str.absolute c' /\
  (c' = "/" \/
   String.length c' < String.length c /\ exists rest, cur = c' +:+ "/" +:+ rest).
Proof.
  intros Habs Hcut c'.
  split; [apply newPath_absolute, Habs|].
  subst c'. unfold Nav.newPath. simpl String.eqb.
  destruct (Str.find_last_of c "/") as [pos|] eqn:Epos; [|left; reflexivity].
  destruct (Nat.eqb_spec pos 0) as [->|Hpos]; [left; reflexivity|].
  right. pose proof (find_last_of_lt _ _ _ Epos) as Hlt.
  destruct (substr0_split c pos) as (Hlen & _); [lia|].
  split; [lia|].
  apply find_last_of_split in Epos as (r & Hr).
  destruct Hcut as [Hroot|[Hcur|(rest & Hcur)]].
  - subst c. destruct pos as [|[|pos]]; simpl in Hlt; lia.
  - exists r. rewrite <- Hcur. rewrite append_cons, append_nil. exact Hr.
  - exists (r +:+ "/" +:+ rest). rewrite Hcur. rewrite Hr at 1.
    rewrite append_assoc, !append_cons, !append_nil. reflexivity.
Qed.

Section Up.

Variable K : Type.
Variable chdir : K -> string -> option K.
Variable cur : string.

Hypothesis root_enterable : forall k, chdir k (Str.c_str "/") <> None.

Hypothesis ancestors_enterable :
  forall k p rest, cur = p +:+ "/" +:+ rest -> Str.absolute p ->
                   chdir k (Str.c_str p) <> None.

Lemma navigate_up n :
  forall k c,
    Str.absolute c -> (c = "/" \/ c = cur \/ exists rest, cur = c +:+ "/" +:+ rest) ->
    (c = "/" \/ String.length c <= n) ->
    Forall (fun o => Nav.returned o = true)
           (Nav.navigate_all K chdir k c (repeat ".." n)) /\
    last (c :: map Nav.cursor (Nav.navigate_all K chdir k c (repeat ".." n))) = Some "/".
Proof.
  induction n as [|n IH]; intros k c Habs Hcut Hlen.
  - simpl. split; [constructor|]. destruct Hlen as [->|Hlen]; [reflexivity|].
    destruct Habs as [r ->]. simpl in Hlen. lia.
  - destruct (newPath_up cur c Habs Hcut) as (Habs' & Hshort).
    assert (Henter : chdir k (Str.c_str (Nav.newPath c "..")) <> None).
    { destruct Hshort as [->|(_ & rest' & Hrest')]; [apply root_enterable|].
      eapply ancestors_enterable; eassumption. }
    destruct (chdir k (Str.c_str (Nav.newPath c ".."))) as [k'|] eqn:Ech;
      [|contradiction].
    simpl repeat. simpl Nav.navigate_all.
    rewrite (changeDirectory_enters K chdir k k' c ".." Ech).
    simpl Nav.kernel. simpl Nav.cursor.
    destruct (IH k' (Nav.newPath c "..") Habs') as [Hall Hlast].
    + destruct Hshort as [Hs|(_ & Hs)]; [left; exact Hs|right; right; exact Hs].
    + destruct Hshort as [Hs|(Hs & _)]; [left; exact Hs|].
      destruct Hlen as [->|Hlen]; [left; reflexivity|right; lia].
    + split; [constructor; [reflexivity|exact Hall]|]. exact Hlast.
Qed.

End Up.

(** X9. Entering a child and then going up leads back: for a name without
    '/' other than "..", the calls with that name and then with ".." leave
    the cursor where it was, provided both targets can be entered. *)
Theorem navigate_child_then_parent
    (K : Type) (chdir : K -> string -> option K) (k k1 k2 : K)
    (currentPath name : string) :
  currentPath <> EmptyString ->
  ~ Str.has_slash name ->
  name <> ".." ->
  chdir k (Str.c_str (currentPath +:+ "/" +:+ name)) = Some k1 ->
  chdir k1 (Str.c_str currentPath) = Some k2 ->
  Nav.navigate_all K chdir k currentPath [name; ".."] =
  [Nav.Outcome true (Nav.ChangedTo (currentPath +:+ "/" +:+ name))
     (currentPath +:+ "/" +:+ name) k1;
   Nav.Outcome true (Nav.ChangedTo currentPath) currentPath k2].
Proof.
  intros Hcur Hname Hdots Hdown Hup.
  assert (Hnew : Nav.newPath currentPath name = currentPath +:+ "/" +:+ name)
    by (apply newPath_relative; [exact Hdots|apply slash_free_not_absolute, Hname]).
  assert (Hback : Nav.newPath (currentPath +:+ "/" +:+ name) ".." = currentPath)
    by (apply newPath_parent; assumption).
  rewrite <- Hnew in Hdown. rewrite <- Hback in Hup at 1.
  simpl Nav.navigate_all.
  rewrite (changeDirectory_enters K chdir k k1 currentPath name Hdown).
  simpl Nav.kernel. simpl Nav.cursor. rewrite Hnew in *.
  rewrite (changeDirectory_enters K chdir k1 k2 _ ".." Hup).
  rewrite Hback. reflexivity.
Qed.

Lemma navigate_child_then_parent_witness :
  Nav.navigate_all string Nav.scenario_chdir "/x" "/x" ["y"; ".."] =
  [Nav.Outcome true (Nav.ChangedTo "/x/y") "/x/y" "/x/y";
   Nav.Outcome true (Nav.ChangedTo "/x") "/x" "/x"].
Proof.
  apply (navigate_child_then_parent string Nav.scenario_chdir "/x" "/x/y" "/x" "/x" "y").
  - discriminate.
  - apply find_last_of_slash_free. reflexivity.
  - discriminate.
  - reflexivity.
  - reflexivity.
Defined.

(** X10. Going up often enough ends at the root: if the root can be
    entered, and so can the cursor cut in front of each of its separators
    (these are the targets that ".." produces, and no other path is asked
    for), then as many calls with ".." as the cursor has characters all
    succeed and leave the cursor at "/"; further calls keep it there. *)
Theorem navigate_up_reaches_root
    (K : Type) (chdir : K -> string -> option K) (k : K)
    (currentPath : string) (n : nat) :
  Str.absolute currentPath ->
  (forall k, chdir k (Str.c_str "/") <> None) ->
  (forall k p rest, currentPath = p +:+ "/" +:+ rest -> Str.absolute p ->
                    chdir k (Str.c_str p) <> None) ->
  String.length currentPath <= n ->
  Forall (fun o => Nav.returned o = true)
         (Nav.navigate_all K chdir k currentPath (repeat ".." n)) /\
  last (currentPath ::
        map Nav.cursor (Nav.navigate_all K chdir k currentPath (repeat ".." n)))
    = Some "/".
Proof.
  intros Habs Hroot Henter Hlen.
  apply (navigate_up K chdir currentPath Hroot Henter n k currentPath Habs).
  - right. left. reflexivity.
  - right. exact Hlen.
Qed.

(** The kernel of the scenarios enters /, /x and /x/y and nothing else that
    is asked for here. *)
Lemma navigate_up_reaches_root_witness :
  Nav.scenario_chdir "/x/y" "/x/" = None /\
  Forall (fun o => Nav.returned o = true)
         (Nav.navigate_all string Nav.scenario_chdir "/x/y" "/x/y" (repeat ".." 4)) /\
  last ("/x/y" ::
        map Nav.cursor
          (Nav.navigate_all string Nav.scenario_chdir "/x/y" "/x/y" (repeat ".." 4)))
    = Some "/".
Proof.
  split; [reflexivity|].
  apply (navigate_up_reaches_root string Nav.scenario_chdir "/x/y" "/x/y" 4).
  - exists "x/y". reflexivity.
  - intros k. discriminate.
  - intros k p rest Hcut [r ->].
    destruct r as [|a [|b [|c [|d r]]]]; cbv [String.append] in Hcut; try discriminate.
    injection Hcut as <- _. vm_compute. discriminate.
  - simpl. lia.
Defined.

(** ** More on copyFile *)

Section CopyMore.

Import Fs.

(** *** The shape of a run *)

Lemma copyFileContents_inv fuel src dest w b w' :
  copyFileContents fuel src dest w = Some (b, w') ->
  (fst (sys_open_rdonly (Str.c_str src) w) = None /\
   b = false /\
   w' = print CannotOpenSource (snd (sys_open_rdonly (Str.c_str src) w))) \/
  exists srcFd w1,
    sys_open_rdonly (Str.c_str src) w = (Some srcFd, w1) /\
    ((fst (sys_open_trunc (Str.c_str dest) 420 w1) = None /\
      b = false /\
      w' = print CannotCreateDestination
             (sys_close srcFd (snd (sys_open_trunc (Str.c_str dest) 420 w1)))) \/
     exists destFd w2,
       sys_open_trunc (Str.c_str dest) 420 w1 = (Some destFd, w2) /\
       copy_loop fuel srcFd destFd w2 = Some (b, w')).
Proof.
  unfold copyFileContents.
  destruct (sys_open_rdonly (Str.c_str src) w) as [[srcFd|] w1]; simpl.
  - intros Hrun. right. exists srcFd, w1. split; [reflexivity|].
    destruct (sys_open_trunc (Str.c_str dest) 420 w1) as [[destFd|] w2]; simpl.
    + right. exists destFd, w2. auto.
    + left. injection Hrun as <- <-. auto.
  - intros [= <- <-]. left. auto.
Qed.

Lemma copyFile_inv fuel currentPath src dest w b w' :
  copyFile fuel currentPath src dest w = Some (b, w') ->
  let srcPath := Str.c_str (currentPath +:+ "/" +:+ src) in
  let destPath := Str.c_str (currentPath +:+ "/" +:+ dest) in
  let w1 := snd (sys_stat srcPath w) in
  ((lookup_path w srcPath = None \/
    exists i n, lookup_path w srcPath = Some (i, n) /\ S_ISDIR (i_mode n) = true) /\
   b = false /\ w' = print SourceNotAFile w1) \/
  exists i n b0 w2,
    lookup_path w srcPath = Some (i, n) /\ S_ISDIR (i_mode n) = false /\
    copyFileContents fuel (currentPath +:+ "/" +:+ src)
      (currentPath +:+ "/" +:+ dest) w1 = Some (b0, w2) /\
    b = b0 /\
    w' = if b0 then print (FileCopied src dest) (snd (sys_chmod destPath (i_mode n) w2))
         else print CannotCopyFile w2.
Proof.
  unfold copyFile, sys_stat. simpl.
  destruct (lookup_path w _) as [[i n]|] eqn:Hlook; simpl.
  - destruct (S_ISDIR (i_mode n)) eqn:Hdir.
    + intros [= <- <-]. left. split; [right; eauto|auto].
    + destruct (copyFileContents fuel _ _ _) as [[[|] w2]|] eqn:Hc; [| |discriminate].
      * destruct (sys_chmod _ (i_mode n) w2) as [ok w3] eqn:Hm.
        intros [= <- <-]. right. exists i, n, true, w2. rewrite Hm. auto.
      * intros [= <- <-]. right. exists i, n, false, w2. auto.
  - intros [= <- <-]. left. auto.
Qed.

(** *** Descriptors *)

Lemma sys_read_fds fd count w :
  delete fd (fds (snd (sys_read fd count w))) = delete fd (fds w).
Proof.
  unfold sys_read. repeat case_match; simpl; try reflexivity;
    apply delete_insert_eq.
Qed.

Lemma sys_write_fds fd buf w :
  delete fd (fds (snd (sys_write fd buf w))) = delete fd (fds w).
Proof.
  unfold sys_write. repeat case_match; simpl; try reflexivity;
    apply delete_insert_eq.
Qed.

Lemma copy_loop_fds fuel srcFd destFd :
  forall w b w',
    copy_loop fuel srcFd destFd w = Some (b, w') ->
    fds w' = delete destFd (delete srcFd (fds w)).
Proof.
  induction fuel as [|fuel IH]; intros w b w'; [discriminate|]. simpl.
  pose proof (sys_read_fds srcFd 4096 w) as Hr.
  destruct (sys_read srcFd 4096 w) as [bytesRead w1]. simpl in Hr.
  assert (Hend : fds (sys_close destFd (sys_close srcFd w1)) =
                 delete destFd (delete srcFd (fds w)))
    by (simpl; rewrite Hr; reflexivity).
  destruct bytesRead as [[|b0 bs]|]; try (intros [= <- <-]; exact Hend).
  pose proof (sys_write_fds destFd (b0 :: bs) w1) as Hw.
  destruct (sys_write destFd (b0 :: bs) w1) as [written w2]. simpl in Hw.
  assert (Hend2 : fds (sys_close destFd (sys_close srcFd w2)) =
                  delete destFd (delete srcFd (fds w))).
  { simpl. rewrite (delete_delete (fds w2)), Hw, (delete_delete (fds w1)), Hr.
    reflexivity. }
  destruct written as [k|]; [|intros [= <- <-]; exact Hend2].
  simpl length. destruct (Nat.eqb k (S (length bs))); [|intros [= <- <-]; exact Hend2].
  intros Hrun. rewrite (IH _ _ _ Hrun).
  rewrite (delete_delete (fds w2)), Hw, (delete_delete (fds w1)), Hr. reflexivity.
Qed.

Lemma sys_open_rdonly_fds path w :
  match fst (sys_open_rdonly path w) with
  | Some fd => fds w !! fd = None /\
               delete fd (fds (snd (sys_open_rdonly path w))) = fds w
  | None => fds (snd (sys_open_rdonly path w)) = fds w
  end.
Proof.
  assert (Hfresh : fds w !! unused_fd w = None)
    by (unfold unused_fd; apply not_elem_of_dom, is_fresh).
  unfold sys_open_rdonly.
  destruct (lookup_path w path) as [[i n]|]; [|reflexivity].
  destruct (may_read w n); [|reflexivity]. simpl.
  split; [exact Hfresh|]. apply delete_insert_id, Hfresh.
Qed.

Lemma sys_open_trunc_fds path mode w :
  match fst (sys_open_trunc path mode w) with
  | Some fd => fds w !! fd = None /\
               delete fd (fds (snd (sys_open_trunc path mode w))) = fds w
  | None => fds (snd (sys_open_trunc path mode w)) = fds w
  end.
Proof.
  assert (Hfresh : fds w !! unused_fd w = None)
    by (unfold unused_fd; apply not_elem_of_dom, is_fresh).
  unfold sys_open_trunc.
  destruct (names w !! path) as [i|].
  - destruct (inodes w !! i) as [n|]; [|reflexivity].
    destruct (negb (S_ISDIR (i_mode n)) && may_write w n); [|reflexivity]. simpl.
    split; [exact Hfresh|]. apply delete_insert_id, Hfresh.
  - destruct (may_create w path); [|reflexivity]. simpl.
    split; [exact Hfresh|]. apply delete_insert_id, Hfresh.
Qed.

Lemma sys_chmod_fds path mode w : fds (snd (sys_chmod path mode w)) = fds w.
Proof. unfold sys_chmod. repeat case_match; reflexivity. Qed.

Lemma copyFileContents_fds fuel src dest w b w' :
  copyFileContents fuel src dest w = Some (b, w') -> fds w' = fds w.
Proof.
  intros Hrun. apply copyFileContents_inv in Hrun
    as [(Hs & _ & ->)|(srcFd & w1 & Hs & [(Hd & _ & ->)|(destFd & w2 & Hd & Hloop)])].
  - pose proof (sys_open_rdonly_fds (Str.c_str src) w) as H. rewrite Hs in H. exact H.
  - pose proof (sys_open_rdonly_fds (Str.c_str src) w) as H1. rewrite Hs in H1.
    pose proof (sys_open_trunc_fds (Str.c_str dest) 420 w1) as H2. rewrite Hd in H2.
    simpl in *. rewrite H2. apply H1.
  - pose proof (sys_open_rdonly_fds (Str.c_str src) w) as H1. rewrite Hs in H1.
    pose proof (sys_open_trunc_fds (Str.c_str dest) 420 w1) as H2. rewrite Hd in H2.
    simpl in *. destruct H1 as [_ H1], H2 as [_ H2].
    rewrite (copy_loop_fds _ _ _ _ _ _ Hloop), delete_delete, H2. exact H1.
Qed.

(** *** What a run leaves behind, whatever it returns *)

Lemma sys_open_rdonly_keeps path w :
  names (snd (sys_open_rdonly path w)) = names w /\
  inodes (snd (sys_open_rdonly path w)) = inodes w /\
  euid (snd (sys_open_rdonly path w)) = euid w.
Proof. unfold sys_open_rdonly. repeat case_match; repeat split. Qed.

(** Opening the destination changes no name but [path] and no inode but the
    one [path] then stands for. *)
Lemma sys_open_trunc_frame path mode w :
  let w1 := snd (sys_open_trunc path mode w) in
  euid w1 = euid w /\
  (forall p, p <> path -> names w1 !! p = names w !! p) /\
  (forall p x, names w !! p = Some x -> names w1 !! p = Some x) /\
  (forall x, names w1 !! path <> Some x -> inodes w1 !! x = inodes w !! x).
Proof.
  unfold sys_open_trunc.
  destruct (names w !! path) as [i|] eqn:Hname.
  - destruct (inodes w !! i) as [n|]; [|simpl; auto].
    destruct (negb (S_ISDIR (i_mode n)) && may_write w n); [|simpl; auto].
    simpl. repeat split; auto.
    intros x Hx. apply lookup_insert_ne. congruence.
  - destruct (may_create w path); [|simpl; auto]. simpl. repeat split.
    + intros p Hp. apply lookup_insert_ne. congruence.
    + intros p x Hp. rewrite lookup_insert_ne; [exact Hp|congruence].
    + intros x Hx. apply lookup_insert_ne. intros <-. apply Hx, lookup_insert_eq.
Qed.

Section LoopOutcome.

Variables (i j srcFd destFd : nat) (data : list byte).

(** One pass, with what the destination holds when the loop ends there. *)
Lemma copy_loop_step_full pos w fuel :
  copying i j srcFd destFd data pos w ->
  (exists b w' n,
      copy_loop (S fuel) srcFd destFd w = Some (b, w') /\
      touches_only j w w' /\ Copy.holds_prefix j n data w' /\
      (b = true -> take n data = data)) \/
  (exists pos' w2,
      (pos < pos')%nat /\ copying i j srcFd destFd data pos' w2 /\
      touches_only j w w2 /\
      copy_loop (S fuel) srcFd destFd w = copy_loop fuel srcFd destFd w2).
Proof.
  intros [Hfds Hsrc Hdest (ni & Hi & Hdata) (nj & Hj & Hcopied) Hpos Halias].
  pose proof (sys_read_spec srcFd 4096 w _ _ Hsrc Hi) as (Hn1 & He1 & Hi1 & Hr).
  simpl copy_loop. destruct (sys_read srcFd 4096 w) as [bytesRead w1].
  simpl in Hn1, He1, Hi1, Hr.
  assert (Hsame : forall w0, inodes w0 = inodes w -> Copy.holds_prefix j pos data w0).
  { intros w0 Hw0. exists nj. rewrite Hw0. auto. }
  assert (Hkeep : forall w0, names w0 = names w -> euid w0 = euid w ->
                             inodes w0 = inodes w -> touches_only j w w0).
  { intros w0 H1 H2 H3. repeat split; trivial. intros x _. rewrite H3. reflexivity. }
  destruct bytesRead as [[|b0 bs]|].
  - left. exists true, (sys_close destFd (sys_close srcFd w1)), pos.
    split; [reflexivity|]. split; [apply Hkeep; assumption|].
    split; [apply Hsame; exact Hi1|].
    intros _. destruct Hr as [(k & Hk & Hnil) _].
    symmetry in Hnil. apply take_nil_inv in Hnil; [|lia].
    rewrite <- Hdata. rewrite <- (take_drop pos (i_data ni)) at 2.
    rewrite Hnil, app_nil_r. reflexivity.
  - destruct Hr as [(k & Hk & Hbytes) Hfds1].
    assert (Hij : i <> j).
    { intros Heq. rewrite Hdata, (Halias Heq) in Hbytes.
      rewrite drop_nil, take_nil in Hbytes. discriminate. }
    assert (Hdest1 : fds w1 !! destFd = Some (OpenFile j pos true))
      by (rewrite Hfds1, lookup_insert_ne by exact Hfds; exact Hdest).
    assert (Hj1 : inodes w1 !! j = Some nj) by (rewrite Hi1; exact Hj).
    pose proof (sys_write_spec destFd (b0 :: bs) w1 _ _ Hdest1 Hj1 eq_refl)
      as (Hn2 & He2 & Hw).
    destruct (sys_write destFd (b0 :: bs) w1) as [written w2].
    simpl in Hn2, He2, Hw.
    destruct written as [n|].
    + destruct Hw as [Hfds2 Hi2]. simpl length.
      assert (Ht2 : touches_only j w w2).
      { repeat split; try congruence.
        intros x Hx. rewrite Hi2, lookup_insert_ne by congruence.
        rewrite Hi1. reflexivity. }
      assert (Hwritten :
                overwrite pos (take n (b0 :: bs)) (i_data nj) =
                take (pos + length (take (Nat.min n k) (drop pos data))) data).
      { rewrite Hcopied, Hbytes, take_take, Hdata.
        apply overwrite_extend. exact Hpos. }
      destruct (Nat.eqb_spec n (S (length bs))) as [->|Hshort].
      * right. exists (pos + S (length bs))%nat, w2.
        split; [lia|]. split; [|split; [exact Ht2|reflexivity]].
        change (S (length bs)) with (length (b0 :: bs)) in *.
        rewrite take_ge in Hi2 by reflexivity.
        constructor; trivial.
        -- rewrite Hfds2, lookup_insert_ne by congruence.
           rewrite Hfds1. simpl. apply lookup_insert_eq.
        -- rewrite Hfds2. apply lookup_insert_eq.
        -- exists ni. rewrite Hi2, lookup_insert_ne by congruence.
           rewrite Hi1. split; assumption.
        -- eexists. rewrite Hi2. split; [apply lookup_insert_eq|].
           simpl i_data. rewrite Hcopied, <- Hdata.
           transitivity (take (pos + length (take k (drop pos (i_data ni))))
                              (i_data ni)); [|rewrite <- Hbytes; reflexivity].
           rewrite Hbytes. apply overwrite_extend. rewrite Hdata. exact Hpos.
        -- rewrite Hbytes, length_take, length_drop. rewrite Hdata. lia.
      * left. exists false. eexists. eexists. split; [reflexivity|].
        split; [exact Ht2|]. split; [|discriminate].
        eexists. simpl. rewrite Hi2. split; [apply lookup_insert_eq|].
        simpl. exact Hwritten.
    + left. exists false. eexists. exists pos. split; [reflexivity|].
      split; [apply Hkeep; simpl; congruence|]. split; [|discriminate].
      apply Hsame. simpl. congruence.
  - left. exists false. eexists. exists pos. split; [reflexivity|].
    split; [apply Hkeep; simpl; congruence|]. split; [|discriminate].
    apply Hsame. exact Hi1.
Qed.

(** However the loop ends, it has touched the destination inode only and
    left a prefix of the source in it, which is all of it if the loop
    ended with [true]. *)
Lemma copy_loop_outcome fuel :
  forall pos w b w',
    copying i j srcFd destFd data pos w ->
    copy_loop fuel srcFd destFd w = Some (b, w') ->
    touches_only j w w' /\
    exists n, Copy.holds_prefix j n data w' /\ (b = true -> take n data = data).
Proof.
  induction fuel as [|fuel IH]; intros pos w b w' Hc Hrun; [discriminate|].
  destruct (copy_loop_step_full pos w fuel Hc)
    as [(b1 & w1 & n & Hend & Ht & Hp & Hb)|(pos' & w2 & _ & Hc2 & Ht & Hnext)].
  - rewrite Hend in Hrun. injection Hrun as -> ->. eauto.
  - rewrite Hnext in Hrun. destruct (IH _ _ _ _ Hc2 Hrun) as [Ht2 Hpost].
    split; [eapply touches_only_trans; eassumption|exact Hpost].
Qed.

End LoopOutcome.

(** Reading, writing and closing change neither the mode nor the owner of
    any inode. *)
Lemma sys_write_attrs fd buf w x n :
  inodes w !! x = Some n ->
  exists n', inodes (snd (sys_write fd buf w)) !! x = Some n' /\
             i_mode n' = i_mode n /\ i_uid n' = i_uid n.
Proof.
  intros Hx. unfold sys_write.
  destruct (fds w !! fd) as [f|]; [|simpl; eauto].
  destruct (inodes w !! of_ino f) as [n0|] eqn:Hf; [|simpl; eauto].
  destruct (negb (of_writable f)); [simpl; eauto|].
  assert (Hins : forall d,
             exists n', <[of_ino f := Inode (i_mode n0) (i_uid n0) d]> (inodes w) !! x
                        = Some n' /\ i_mode n' = i_mode n /\ i_uid n' = i_uid n).
  { intros d. destruct (decide (of_ino f = x)) as [Heq|Hne].
    - rewrite Heq in *. rewrite lookup_insert_eq. eexists. split; [reflexivity|].
      simpl. split; congruence.
    - rewrite lookup_insert_ne by exact Hne. eauto. }
  destruct (head (writes w)) as [[m|]|]; simpl; eauto.
Qed.

Lemma sys_read_inodes fd count w : inodes (snd (sys_read fd count w)) = inodes w.
Proof. unfold sys_read. repeat case_match; reflexivity. Qed.

Lemma copy_loop_attrs fuel srcFd destFd x :
  forall w b w' n,
    copy_loop fuel srcFd destFd w = Some (b, w') ->
    inodes w !! x = Some n ->
    exists n', inodes w' !! x = Some n' /\
               i_mode n' = i_mode n /\ i_uid n' = i_uid n.
Proof.
  induction fuel as [|fuel IH]; intros w b w' n; [discriminate|]. simpl.
  pose proof (sys_read_inodes srcFd 4096 w) as Hr.
  destruct (sys_read srcFd 4096 w) as [bytesRead w1]. simpl in Hr.
  intros Hrun Hx. rewrite <- Hr in Hx.
  destruct bytesRead as [[|b0 bs]|];
    try (injection Hrun as <- <-; simpl; eauto).
  destruct (sys_write_attrs destFd (b0 :: bs) w1 x n Hx) as (n1 & Hx1 & Hm1 & Hu1).
  destruct (sys_write destFd (b0 :: bs) w1) as [written w2]. simpl in Hx1.
  assert (Hstop : exists n', inodes (sys_close destFd (sys_close srcFd w2)) !! x = Some n' /\
                             i_mode n' = i_mode n /\ i_uid n' = i_uid n)
    by (simpl; eauto).
  destruct written as [k|]; [|injection Hrun as <- <-; exact Hstop].
  simpl length in Hrun.
  destruct (Nat.eqb k (S (length bs))); [|injection Hrun as <- <-; exact Hstop].
  destruct (IH _ _ _ _ Hrun Hx1) as (n' & Hx' & Hm' & Hu').
  exists n'. split; [exact Hx'|]. split; congruence.
Qed.

(** A destination that did not exist is made as a regular file of the
    caller with the mode 0644 less the umask. *)
Lemma sys_open_trunc_creates path mode w fd w1 :
  names w !! path = None ->
  sys_open_trunc path mode w = (Some fd, w1) ->
  exists j,
    names w1 !! path = Some j /\ inodes w !! j = None /\
    inodes w1 !! j =
      Some (Inode (Z.lor S_IFREG (Z.land mode (Z.lnot (umask w)))) (euid w) []).
Proof.
  intros Hnone. unfold sys_open_trunc. rewrite Hnone.
  destruct (may_create w path); [|discriminate].
  intros [= <- <-]. exists (unused_ino w). simpl.
  split; [apply lookup_insert_eq|].
  split; [unfold unused_ino; apply not_elem_of_dom, is_fresh|].
  apply lookup_insert_eq.
Qed.

(** Both files opened and the loop run: what the destination holds. *)
Lemma copy_run_outcome src dest w srcFd w1 destFd w2 fuel b w' :
  sys_open_rdonly (Str.c_str src) w = (Some srcFd, w1) ->
  sys_open_trunc (Str.c_str dest) 420 w1 = (Some destFd, w2) ->
  copy_loop fuel srcFd destFd w2 = Some (b, w') ->
  exists i j ni0 data n,
    lookup_path w (Str.c_str src) = Some (i, ni0) /\
    names w2 !! Str.c_str dest = Some j /\
    touches_only j w2 w' /\
    Copy.holds_prefix j n data w' /\
    (b = true -> take n data = data) /\
    (i <> j -> data = i_data ni0) /\
    (i = j -> data = []).
Proof.
  intros Hs Hd Hloop.
  destruct (copy_setup _ _ _ _ _ _ _ Hs Hd)
    as (i & j & ni0 & data & Hlook & Hc & _ & Hnd & _ & _ & Hdata & _).
  destruct (copy_loop_outcome i j srcFd destFd data fuel 0 w2 b w' Hc Hloop)
    as (Ht & n & Hp & Hb).
  exists i, j, ni0, data, n. do 5 (split; [assumption|]).
  split; [exact Hdata|]. apply (cp_alias _ _ _ _ _ _ _ Hc).
Qed.


Lemma sys_open_rdonly_umask path w :
  umask (snd (sys_open_rdonly path w)) = umask w.
Proof. unfold sys_open_rdonly. repeat case_match; reflexivity. Qed.

(** [chmod] keeps names, owners and contents, and leaves every inode but
    the one of [path] as it is. *)
Lemma sys_chmod_effect path mode w :
  names (snd (sys_chmod path mode w)) = names w /\
  euid (snd (sys_chmod path mode w)) = euid w /\
  forall x n,
    inodes w !! x = Some n ->
    exists n',
      inodes (snd (sys_chmod path mode w)) !! x = Some n' /\
      i_data n' = i_data n /\ i_uid n' = i_uid n /\
      (names w !! path <> Some x -> n' = n).
Proof.
  unfold sys_chmod.
  destruct (lookup_path w path) as [[j nj]|] eqn:Hlook; [|simpl; eauto 10].
  apply lookup_path_Some in Hlook as [Hname Hj].
  destruct (may_chmod w nj); [|simpl; eauto 10].
  simpl. repeat split. intros x n Hx.
  destruct (decide (j = x)) as [->|Hne].
  - rewrite lookup_insert_eq. eexists. split; [reflexivity|].
    assert (nj = n) by congruence. subst nj. simpl.
    repeat split. intros H. contradiction.
  - rewrite lookup_insert_ne by exact Hne. eauto 10.
Qed.

Lemma copyFileContents_outcome fuel src dest w b w' :
  copyFileContents fuel src dest w = Some (b, w') ->
  euid w' = euid w /\
  (forall p, p <> Str.c_str dest -> names w' !! p = names w !! p) /\
  (forall p x, names w !! p = Some x -> names w' !! p = Some x) /\
  (forall x, names w' !! Str.c_str dest <> Some x -> inodes w' !! x = inodes w !! x) /\
  ((inodes w' = inodes w /\ names w' = names w /\ b = false) \/
   exists i j ni0 data n,
     lookup_path w (Str.c_str src) = Some (i, ni0) /\
     names w' !! Str.c_str dest = Some j /\
     Copy.holds_prefix j n data w' /\
     (b = true -> take n data = data) /\
     (i <> j -> data = i_data ni0) /\
     (i = j -> data = []) /\
     (names w !! Str.c_str dest = None ->
      inodes w !! j = None /\
      exists nj, inodes w' !! j = Some nj /\ i_uid nj = euid w /\
                 i_mode nj = Z.lor S_IFREG (Z.land 420 (Z.lnot (umask w))))).
Proof.
  intros Hrun.
  pose proof (sys_open_rdonly_keeps (Str.c_str src) w) as (Hn1 & Hi1 & He1).
  pose proof (sys_open_rdonly_umask (Str.c_str src) w) as Hu1.
  apply copyFileContents_inv in Hrun
    as [(Hs & -> & ->)|(srcFd & w1 & Hs & [(Hd & -> & ->)|(destFd & w2 & Hd & Hloop)])].
  - simpl. rewrite Hn1, Hi1, He1. auto 10.
  - rewrite Hs in Hn1, Hi1, He1. simpl in Hn1, Hi1, He1.
    assert (Hsame : names (snd (sys_open_trunc (Str.c_str dest) 420 w1)) = names w1 /\
                    inodes (snd (sys_open_trunc (Str.c_str dest) 420 w1)) = inodes w1 /\
                    euid (snd (sys_open_trunc (Str.c_str dest) 420 w1)) = euid w1).
    { revert Hd. unfold sys_open_trunc. repeat case_match; simpl; try discriminate; auto. }
    destruct Hsame as (Hn2 & Hi2 & He2). simpl.
    rewrite Hn2, Hi2, He2, Hn1, Hi1, He1. auto 10.
  - rewrite Hs in Hn1, Hi1, He1, Hu1. simpl in Hn1, Hi1, He1, Hu1.
    pose proof (sys_open_trunc_frame (Str.c_str dest) 420 w1) as Hframe.
    rewrite Hd in Hframe. simpl in Hframe.
    destruct Hframe as (He2 & Hnames2 & Hkeep2 & Hinodes2).
    destruct (copy_run_outcome _ _ _ _ _ _ _ _ _ _ Hs Hd Hloop)
      as (i & j & ni0 & data & n & Hlook & Hnd & (Hn3 & He3 & Hi3) & Hp & Hb & Hne & Heq).
    split; [congruence|].
    split; [intros p Hp'; rewrite Hn3, Hnames2, Hn1 by exact Hp'; reflexivity|].
    split; [intros p x Hpx; rewrite Hn3; apply Hkeep2; rewrite Hn1; exact Hpx|].
    split.
    { intros x Hx. rewrite Hn3 in Hx.
      rewrite Hi3 by congruence. rewrite Hinodes2 by exact Hx. rewrite Hi1. reflexivity. }
    right. exists i, j, ni0, data, n.
    split; [exact Hlook|]. split; [rewrite Hn3; exact Hnd|].
    do 4 (split; [assumption|]).
    intros Hnone. rewrite <- Hn1 in Hnone.
    destruct (sys_open_trunc_creates _ _ _ _ _ Hnone Hd) as (j' & Hj' & Hfree & Hnew).
    assert (j' = j) by congruence. subst j'.
    split; [rewrite <- Hi1; exact Hfree|].
    destruct (copy_loop_attrs _ _ _ j _ _ _ _ Hloop Hnew) as (nj & Hnj & Hm & Hu).
    exists nj. split; [exact Hnj|]. simpl in Hm, Hu.
    split; congruence.
Qed.

Lemma sys_chmod_frame path mode w x :
  names w !! path <> Some x ->
  inodes (snd (sys_chmod path mode w)) !! x = inodes w !! x.
Proof.
  intros Hx. unfold sys_chmod.
  destruct (lookup_path w path) as [[j nj]|] eqn:Hlook; [|reflexivity].
  apply lookup_path_Some in Hlook as [Hname Hj].
  destruct (may_chmod w nj); [|reflexivity].
  simpl. apply lookup_insert_ne. congruence.
Qed.

Lemma land_regular_type (perms : Z) :
  Z.land (Z.lor S_IFREG (Z.land 420 perms)) S_IFMT = S_IFREG.
Proof.
  unfold S_IFREG, S_IFMT. rewrite Z.land_lor_distr_l.
  replace (Z.land (Z.land 420 perms) 61440) with (Z.land (Z.land 420 61440) perms)
    by (rewrite <- !Z.land_assoc, (Z.land_comm perms); reflexivity).
  reflexivity.
Qed.

End CopyMore.

(** X11. No descriptor is left open: whatever [copyFile] returns, the
    descriptor table of the process is afterwards what it was before. *)
Theorem copyFile_closes_descriptors
    (fuel : nat) (currentPath src dest : string) (w w' : Fs.World) (b : bool) :
  Fs.copyFile fuel currentPath src dest w = Some (b, w') ->
  Fs.fds w' = Fs.fds w.
Proof.
  intros Hrun. apply copyFile_inv in Hrun
    as [(_ & _ & ->)|(i & n & b0 & w2 & _ & _ & Hc & _ & ->)]; [reflexivity|].
  apply copyFileContents_fds in Hc.
  destruct b0; simpl; [rewrite sys_chmod_fds|]; exact Hc.
Qed.

Lemma copyFile_closes_descriptors_witness :
  exists w',
    Fs.copyFile 10 "/home" "a.txt" "c.txt" Demo.short_write_world = Some (false, w') /\
    Fs.fds w' = Fs.fds Demo.short_write_world.
Proof.
  destruct (Fs.copyFile 10 "/home" "a.txt" "c.txt" Demo.short_write_world)
    as [[b w']|] eqn:Hrun; [|vm_compute in Hrun; discriminate].
  assert (Hb : b = false) by (vm_compute in Hrun; congruence).
  subst b. exists w'. split; [reflexivity|].
  exact (copyFile_closes_descriptors 10 "/home" "a.txt" "c.txt"
           Demo.short_write_world w' false Hrun).
Defined.


(** X12. Whatever it returns, [copyFile] changes no name other than the
    destination's and no inode other than the one the destination then
    stands for; the user of the process stays the same. *)
Theorem copyFile_touches_destination_only
    (fuel : nat) (currentPath src dest : string) (w w' : Fs.World) (b : bool) :
  Fs.copyFile fuel currentPath src dest w = Some (b, w') ->
  let destPath := Str.c_str (currentPath +:+ "/" +:+ dest) in
  (forall p, p <> destPath -> Fs.names w' !! p = Fs.names w !! p) /\
  (forall x, Fs.names w' !! destPath <> Some x ->
             Fs.inodes w' !! x = Fs.inodes w !! x).
Proof.
  intros Hrun destPath. apply copyFile_inv in Hrun
    as [(_ & _ & ->)|(i & n & b0 & w2 & _ & _ & Hc & _ & ->)]; [split; reflexivity|].
  apply copyFileContents_outcome in Hc as (_ & Hnames & _ & Hinodes & _).
  fold destPath in Hnames, Hinodes. simpl in Hnames, Hinodes.
  destruct b0; [|split; assumption].
  destruct (sys_chmod_effect destPath (Fs.i_mode n) w2) as (Hn3 & _ & _).
  fold destPath.
  change (Fs.names (Fs.print (Fs.FileCopied src dest)
            (snd (Fs.sys_chmod destPath (Fs.i_mode n) w2))))
    with (Fs.names (snd (Fs.sys_chmod destPath (Fs.i_mode n) w2))).
  change (Fs.inodes (Fs.print (Fs.FileCopied src dest)
            (snd (Fs.sys_chmod destPath (Fs.i_mode n) w2))))
    with (Fs.inodes (snd (Fs.sys_chmod destPath (Fs.i_mode n) w2))).
  rewrite Hn3. split; [exact Hnames|].
  intros x Hx. rewrite sys_chmod_frame by exact Hx. apply Hinodes, Hx.
Qed.

Lemma copyFile_touches_destination_only_witness :
  exists w',
    Fs.copyFile 10 "/home" "a.txt" "b.txt" Demo.shared_world = Some (true, w') /\
    (forall p, p <> "/home/b.txt" ->
               Fs.names w' !! p = Fs.names Demo.shared_world !! p) /\
    (forall x, Fs.names w' !! "/home/b.txt" <> Some x ->
               Fs.inodes w' !! x = Fs.inodes Demo.shared_world !! x).
Proof.
  destruct (Fs.copyFile 10 "/home" "a.txt" "b.txt" Demo.shared_world)
    as [[b w']|] eqn:Hrun; [|vm_compute in Hrun; discriminate].
  assert (Hb : b = true) by (vm_compute in Hrun; congruence).
  subst b. exists w'. split; [reflexivity|].
  exact (copyFile_touches_destination_only 10 "/home" "a.txt" "b.txt"
           Demo.shared_world w' true Hrun).
Defined.

(** X13. Copying a file onto itself loses its content: if source and
    destination name the same inode and [copyFile] returns [true], the file
    is empty afterwards. *)
Theorem copyFile_onto_itself_empties
    (fuel : nat) (currentPath src dest : string) (w w' : Fs.World)
    (i : nat) (n : Fs.inode) :
  Fs.lookup_path w (Str.c_str (currentPath +:+ "/" +:+ src)) = Some (i, n) ->
  Fs.names w !! Str.c_str (currentPath +:+ "/" +:+ dest) = Some i ->
  Fs.copyFile fuel currentPath src dest w = Some (true, w') ->
  exists n',
    Fs.lookup_path w' (Str.c_str (currentPath +:+ "/" +:+ src)) = Some (i, n') /\
    Fs.i_data n' = [].
Proof.
  intros Hlook Hdest Hrun.
  pose proof Hlook as Hlook0. apply lookup_path_Some in Hlook0 as [Hname _].
  apply copyFile_inv in Hrun
    as [(_ & [=] & _)|(i0 & n0 & b0 & w2 & Hl0 & _ & Hc & <- & ->)].
  rewrite Hlook in Hl0. injection Hl0 as <- <-.
  apply copyFileContents_outcome in Hc
    as (_ & _ & Hkeep & _ & [(_ & _ & [=])|
         (i1 & j & ni0 & data & k & Hl1 & Hnd & (nj & Hj & Hdata) & _ & _ & Halias & _)]).
  assert (Hl1' : Fs.lookup_path w (Str.c_str (currentPath +:+ "/" +:+ src))
                 = Some (i1, ni0)) by exact Hl1.
  rewrite Hlook in Hl1'. injection Hl1' as <- <-.
  assert (j = i).
  { specialize (Hkeep _ _ Hdest). congruence. }
  subst j. rewrite (Halias eq_refl), take_nil in Hdata.
  destruct (sys_chmod_effect (Str.c_str (currentPath +:+ "/" +:+ dest)) (Fs.i_mode n) w2)
    as (Hn3 & _ & Hattrs).
  destruct (Hattrs i nj Hj) as (n' & Hn' & Hd' & _).
  exists n'. split; [|congruence].
  apply lookup_path_Some. simpl. split; [|exact Hn'].
  rewrite Hn3. apply Hkeep. exact Hname.
Qed.

Lemma copyFile_onto_itself_empties_witness :
  exists w' n',
    Fs.copyFile 10 "/home" "a.txt" "a.txt" Demo.world = Some (true, w') /\
    Fs.lookup_path w' "/home/a.txt" = Some (2, n') /\
    Fs.i_data n' = [].
Proof.
  destruct (Fs.copyFile 10 "/home" "a.txt" "a.txt" Demo.world)
    as [[b w']|] eqn:Hrun; [|vm_compute in Hrun; discriminate].
  assert (Hb : b = true) by (vm_compute in Hrun; congruence).
  subst b.
  destruct (copyFile_onto_itself_empties 10 "/home" "a.txt" "a.txt"
              Demo.world w' 2 Demo.a_txt) as (n' & Hn' & Hd').
  - vm_compute. reflexivity.
  - vm_compute. reflexivity.
  - exact Hrun.
  - exists w', n'. split; [reflexivity|]. split; assumption.
Defined.

(** X14. A copy to a name that did not exist, when it returns [true], has
    made a regular file of the caller with the content of the source and
    all twelve permission bits that [stat] saw on the source. *)
Theorem copyFile_to_new_name
    (fuel : nat) (currentPath src dest : string) (w w' : Fs.World)
    (i : nat) (n : Fs.inode) :
  Fs.lookup_path w (Str.c_str (currentPath +:+ "/" +:+ src)) = Some (i, n) ->
  Fs.names w !! Str.c_str (currentPath +:+ "/" +:+ dest) = None ->
  Fs.copyFile fuel currentPath src dest w = Some (true, w') ->
  exists j,
    Fs.inodes w !! j = None /\
    Fs.lookup_path w' (Str.c_str (currentPath +:+ "/" +:+ dest)) =
      Some (j, Fs.Inode (Z.lor Fs.S_IFREG (Fs.perm_bits (Fs.i_mode n)))
                        (Fs.euid w) (Fs.i_data n)) /\
    Fs.lookup_path w' (Str.c_str (currentPath +:+ "/" +:+ src)) = Some (i, n).
Proof.
  intros Hlook Hnone Hrun.
  pose proof Hlook as Hlook0. apply lookup_path_Some in Hlook0 as [Hname Hi].
  apply copyFile_inv in Hrun
    as [(_ & [=] & _)|(i0 & n0 & b0 & w2 & Hl0 & _ & Hc & <- & ->)].
  rewrite Hlook in Hl0. injection Hl0 as <- <-.
  apply copyFileContents_outcome in Hc
    as (He & _ & Hkeep & Hframe & [(_ & _ & [=])|
         (i1 & j & ni0 & data & k & Hl1 & Hnd & (nj & Hj & Hdata) & Hall & Hne & _ & Hnew)]).
  assert (Hl1' : Fs.lookup_path w (Str.c_str (currentPath +:+ "/" +:+ src))
                 = Some (i1, ni0)) by exact Hl1.
  rewrite Hlook in Hl1'. injection Hl1' as <- <-.
  destruct (Hnew Hnone) as (Hfree & nj' & Hj' & Huid & Hmode).
  simpl in He, Hfree, Huid, Hmode, Hframe.
  assert (nj' = nj) by congruence. subst nj'.
  assert (Hij : i <> j) by congruence.
  rewrite (Hall eq_refl), (Hne Hij) in Hdata.
  exists j. split; [exact Hfree|].
  set (destPath := Str.c_str (currentPath +:+ "/" +:+ dest)) in *.
  pose proof (sys_chmod_spec destPath (Fs.i_mode n) w2) as (Hn3 & _ & Hmod).
  assert (Hlookd : Fs.lookup_path w2 destPath = Some (j, nj))
    by (apply lookup_path_Some; auto).
  rewrite Hlookd in Hmod.
  assert (Hmay : Fs.may_chmod w2 nj = true).
  { unfold Fs.may_chmod. rewrite He, Huid, Z.eqb_refl. apply orb_true_r. }
  rewrite Hmay in Hmod. destruct Hmod as [_ Hi3].
  split.
  - apply lookup_path_Some. simpl. rewrite Hn3, Hi3. split; [exact Hnd|].
    rewrite lookup_insert_eq. f_equal. destruct nj as [m u d]. simpl in *.
    subst m u d. rewrite land_regular_type. reflexivity.
  - apply lookup_path_Some. simpl. rewrite Hn3, Hi3. split; [apply Hkeep, Hname|].
    rewrite lookup_insert_ne by congruence.
    rewrite Hframe by congruence. exact Hi.
Qed.

Lemma copyFile_to_new_name_witness :
  exists w' j,
    Fs.copyFile 10 "/home" "a.txt" "c.txt" Demo.world = Some (true, w') /\
    Fs.inodes Demo.world !! j = None /\
    Fs.lookup_path w' "/home/c.txt" =
      Some (j, Fs.Inode 33188 1000 [x68; x65; x6c; x6c; x6f]) /\
    Fs.lookup_path w' "/home/a.txt" = Some (2, Demo.a_txt).
Proof.
  destruct (Fs.copyFile 10 "/home" "a.txt" "c.txt" Demo.world)
    as [[b w']|] eqn:Hrun; [|vm_compute in Hrun; discriminate].
  assert (Hb : b = true) by (vm_compute in Hrun; congruence).
  subst b.
  destruct (copyFile_to_new_name 10 "/home" "a.txt" "c.txt" Demo.world w' 2 Demo.a_txt)
    as (j & Hfree & Hd & Hs).
  - vm_compute. reflexivity.
  - vm_compute. reflexivity.
  - exact Hrun.
  - exists w', j. split; [reflexivity|]. split; [exact Hfree|]. split; assumption.
Defined.

(** X15. A copy that stops half way leaves what it has written: whatever
    [copyFile] returns, the destination afterwards is the inode it was
    before, unchanged, or it holds a prefix of what the source held. *)
Theorem copyFile_leaves_prefix
    (fuel : nat) (currentPath src dest : string) (w w' : Fs.World) (b : bool)
    (i j : nat) (n nj : Fs.inode) :
  Fs.copyFile fuel currentPath src dest w = Some (b, w') ->
  Fs.lookup_path w (Str.c_str (currentPath +:+ "/" +:+ src)) = Some (i, n) ->
  Fs.lookup_path w' (Str.c_str (currentPath +:+ "/" +:+ dest)) = Some (j, nj) ->
  Fs.lookup_path w (Str.c_str (currentPath +:+ "/" +:+ dest)) = Some (j, nj) \/
  exists k, Fs.i_data nj = take k (Fs.i_data n).
Proof.
  intros Hrun Hlook Hafter.
  apply lookup_path_Some in Hafter as [Hnj Hij].
  apply copyFile_inv in Hrun
    as [(_ & _ & ->)|(i0 & n0 & b0 & w2 & Hl0 & _ & Hc & _ & ->)].
  { left. apply lookup_path_Some. auto. }
  rewrite Hlook in Hl0. injection Hl0 as <- <-.
  set (destPath := Str.c_str (currentPath +:+ "/" +:+ dest)) in *.
  apply copyFileContents_outcome in Hc
    as (_ & _ & _ & _ & [(Hi & Hn & ->)|
         (i1 & j1 & ni0 & data & k & Hl1 & Hnd & (nj1 & Hj1 & Hdata) & _ & Hne & Halias & _)]).
  { left. apply lookup_path_Some. simpl in Hi, Hn, Hnj, Hij.
    rewrite <- Hn, <- Hi. auto. }
  right.
  assert (Hl1' : Fs.lookup_path w (Str.c_str (currentPath +:+ "/" +:+ src))
                 = Some (i1, ni0)) by exact Hl1.
  rewrite Hlook in Hl1'. injection Hl1' as <- <-.
  fold destPath in Hnd.
  assert (Hsame : j = j1 /\ Fs.i_data nj = Fs.i_data nj1).
  { destruct b0.
    - destruct (sys_chmod_effect destPath (Fs.i_mode n) w2) as (Hn3 & _ & Hattrs).
      change (Fs.names (snd (Fs.sys_chmod destPath (Fs.i_mode n) w2)) !! destPath
              = Some j) in Hnj.
      change (Fs.inodes (snd (Fs.sys_chmod destPath (Fs.i_mode n) w2)) !! j
              = Some nj) in Hij.
      rewrite Hn3 in Hnj.
      assert (j = j1) by congruence. subst j1.
      destruct (Hattrs j nj1 Hj1) as (n' & Hn' & Hd' & _).
      split; [reflexivity|]. congruence.
    - simpl in Hnj, Hij. split; congruence. }
  destruct Hsame as [-> ->]. rewrite Hdata.
  destruct (decide (i = j1)) as [Heq|Hneq].
  - rewrite (Halias Heq), take_nil. exists 0. reflexivity.
  - rewrite (Hne Hneq). exists k. reflexivity.
Qed.

Lemma copyFile_leaves_prefix_witness :
  exists w' j nj,
    Fs.copyFile 10 "/home" "a.txt" "c.txt" Demo.short_write_world = Some (false, w') /\
    Fs.lookup_path w' "/home/c.txt" = Some (j, nj) /\
    (Fs.lookup_path Demo.short_write_world "/home/c.txt" = Some (j, nj) \/
     exists k, Fs.i_data nj = take k (Fs.i_data Demo.a_txt)).
Proof.
  destruct (Fs.copyFile 10 "/home" "a.txt" "c.txt" Demo.short_write_world)
    as [[b w']|] eqn:Hrun; [|vm_compute in Hrun; discriminate].
  assert (Hb : b = false) by (vm_compute in Hrun; congruence).
  subst b.
  destruct (Fs.lookup_path w' "/home/c.txt") as [[j nj]|] eqn:Hafter.
  - exists w', j, nj. split; [reflexivity|]. split; [exact Hafter|].
    apply (copyFile_leaves_prefix 10 "/home" "a.txt" "c.txt"
             Demo.short_write_world w' false 2 j Demo.a_txt nj Hrun).
    + vm_compute. reflexivity.
    + exact Hafter.
  - exfalso. vm_compute in Hrun. injection Hrun as <-. vm_compute in Hafter.
    discriminate.
Defined.
(** ** More on changePermissions *)

Lemma mode_of_octal_all :
  forallb (fun cs =>
    forallb (fun d0 =>
      forallb (fun d1 =>
        forallb (fun d2 =>
                   Z.eqb (Fs.mode_of cs (Perm.octal d0 d1 d2))
                         (Z.of_nat (64 * d0 + 8 * d1 + d2)))
                (seq 0 8)) (seq 0 8)) (seq 0 8)) [true; false] = true.
Proof. vm_compute. reflexivity. Qed.

(** Three octal digits give the mode they spell, whether [char] is signed
    or not. *)
Lemma mode_of_octal (char_signed : bool) (d0 d1 d2 : nat) :
  d0 < 8 -> d1 < 8 -> d2 < 8 ->
  Fs.mode_of char_signed (Perm.octal d0 d1 d2) = Z.of_nat (64 * d0 + 8 * d1 + d2).
Proof.
  intros H0 H1 H2. pose proof mode_of_octal_all as Hall.
  rewrite forallb_forall in Hall.
  assert (Hcs : In char_signed [true; false]) by (destruct char_signed; simpl; auto).
  specialize (Hall _ Hcs). rewrite forallb_forall in Hall.
  specialize (Hall d0 ltac:(apply in_seq; lia)). rewrite forallb_forall in Hall.
  specialize (Hall d1 ltac:(apply in_seq; lia)). rewrite forallb_forall in Hall.
  specialize (Hall d2 ltac:(apply in_seq; lia)).
  apply Z.eqb_eq in Hall. exact Hall.
Qed.

Lemma S_ISDIR_chmod (old mode : Z) :
  Fs.S_ISDIR (Z.lor (Z.land old Fs.S_IFMT) (Fs.perm_bits mode)) = Fs.S_ISDIR old.
Proof.
  unfold Fs.S_ISDIR, Fs.perm_bits, Fs.S_IFMT, Fs.ALLPERMS.
  rewrite Z.land_lor_distr_l, <- !Z.land_assoc. simpl Z.land at 2 4.
  rewrite Z.land_0_r, Z.lor_0_r. reflexivity.
Qed.

Lemma low_bits_chmod (old mode : Z) :
  Z.land (Z.lor (Z.land old Fs.S_IFMT) (Fs.perm_bits mode)) 511 = Z.land mode 511.
Proof.
  unfold Fs.perm_bits, Fs.S_IFMT, Fs.ALLPERMS.
  rewrite Z.land_lor_distr_l, <- !Z.land_assoc. simpl Z.land at 2 4.
  rewrite Z.land_0_r, Z.lor_0_l. reflexivity.
Qed.

Lemma land_511_small (bits : Z) : (0 <= bits < 512)%Z -> Z.land bits 511 = bits.
Proof.
  intros H. change 511%Z with (Z.ones 9). rewrite Z.land_ones by lia.
  apply Z.mod_small. exact H.
Qed.

(** X16. Changing the permissions of one's own file to three octal digits
    and listing it: the call returns [true], owner and content stay, and
    [getPermissions] of the new mode shows the file type as before and the
    nine bits 64*d0 + 8*d1 + d2. *)
Theorem changePermissions_then_listed
    (char_signed : bool) (currentPath name : string) (d0 d1 d2 : nat)
    (w : Fs.World) (i : nat) (n : Fs.inode) :
  d0 < 8 -> d1 < 8 -> d2 < 8 ->
  Fs.lookup_path w (Str.c_str (currentPath +:+ "/" +:+ name)) = Some (i, n) ->
  Fs.may_chmod w n = true ->
  let r := Fs.changePermissions char_signed currentPath name (Perm.octal d0 d1 d2) w in
  fst r = true /\
  exists n',
    Fs.lookup_path (snd r) (Str.c_str (currentPath +:+ "/" +:+ name)) = Some (i, n') /\
    Fs.i_uid n' = Fs.i_uid n /\ Fs.i_data n' = Fs.i_data n /\
    Perm.read_permissions (Perm.getPermissions (Fs.i_mode n')) =
      Some (Fs.S_ISDIR (Fs.i_mode n), Z.of_nat (64 * d0 + 8 * d1 + d2)).
Proof.
  intros H0 H1 H2 Hlook Hmay r. subst r.
  rewrite changePermissions_attempts by reflexivity.
  rewrite mode_of_octal by assumption.
  set (path := Str.c_str (currentPath +:+ "/" +:+ name)) in *.
  set (bits := Z.of_nat (64 * d0 + 8 * d1 + d2)).
  pose proof (sys_chmod_spec path bits w) as (Hnames & _ & Hmod).
  rewrite Hlook, Hmay in Hmod. destruct Hmod as [Hok Hinodes].
  pose proof Hlook as Hl. apply lookup_path_Some in Hl as [Hname _].
  cbv zeta. split; [exact Hok|].
  exists (Fs.Inode (Z.lor (Z.land (Fs.i_mode n) Fs.S_IFMT) (Fs.perm_bits bits))
                   (Fs.i_uid n) (Fs.i_data n)).
  split; [|split; [|split]].
  - apply lookup_path_Some.
    change (Fs.names (snd (Fs.sys_chmod path bits w)) !! path = Some i /\
            Fs.inodes (snd (Fs.sys_chmod path bits w)) !! i =
              Some (Fs.Inode (Z.lor (Z.land (Fs.i_mode n) Fs.S_IFMT) (Fs.perm_bits bits))
                             (Fs.i_uid n) (Fs.i_data n))).
    rewrite Hnames, Hinodes, lookup_insert_eq. split; [exact Hname|reflexivity].
  - reflexivity.
  - reflexivity.
  - simpl Fs.i_mode. rewrite getPermissions_render, S_ISDIR_chmod, low_bits_chmod.
    rewrite land_511_small by (unfold bits; lia).
    apply read_render. unfold bits. lia.
Qed.

Lemma changePermissions_then_listed_witness :
  let r := Fs.changePermissions true "/home" "a.txt" "640" Demo.world in
  fst r = true /\
  exists n',
    Fs.lookup_path (snd r) "/home/a.txt" = Some (2, n') /\
    Fs.i_uid n' = 1000%Z /\ Fs.i_data n' = Fs.i_data Demo.a_txt /\
    Perm.read_permissions (Perm.getPermissions (Fs.i_mode n')) = Some (false, 416%Z).
Proof.
  apply (changePermissions_then_listed true "/home" "a.txt" 6 4 0 Demo.world 2 Demo.a_txt).
  - lia.
  - lia.
  - lia.
  - vm_compute. reflexivity.
  - vm_compute. reflexivity.
Defined.

(** X17. [changePermissions] returns [true] exactly when the string has
    three characters and the path names a file that the user of the
    process owns (or that user is the superuser); when it returns [false]
    no name, inode or descriptor has changed. *)
Theorem changePermissions_all_or_nothing
    (char_signed : bool) (currentPath name perms : string) (w : Fs.World) :
  let r := Fs.changePermissions char_signed currentPath name perms w in
  (fst r = true <->
   String.length perms = 3 /\
   exists i n,
     Fs.lookup_path w (Str.c_str (currentPath +:+ "/" +:+ name)) = Some (i, n) /\
     Fs.may_chmod w n = true) /\
  (fst r = false ->
   Fs.names (snd r) = Fs.names w /\ Fs.inodes (snd r) = Fs.inodes w /\
   Fs.fds (snd r) = Fs.fds w).
Proof.
  cbv zeta.
  destruct (Nat.eq_dec (String.length perms) 3) as [Hlen|Hlen].
  - rewrite changePermissions_attempts by exact Hlen. cbv zeta.
    set (path := Str.c_str (currentPath +:+ "/" +:+ name)).
    set (mode := Fs.mode_of char_signed perms).
    pose proof (sys_chmod_spec path mode w) as (Hnames & _ & Hmod).
    pose proof (sys_chmod_fds path mode w) as Hfds.
    change (fst (fst (Fs.sys_chmod path mode w), Fs.print
              (if fst (Fs.sys_chmod path mode w)
               then Fs.PermissionsChanged name perms
               else Fs.CannotChangePermissions) (snd (Fs.sys_chmod path mode w))))
      with (fst (Fs.sys_chmod path mode w)).
    simpl snd.
    change (Fs.names (Fs.print ?m ?v)) with (Fs.names v).
    change (Fs.inodes (Fs.print ?m ?v)) with (Fs.inodes v).
    change (Fs.fds (Fs.print ?m ?v)) with (Fs.fds v).
    destruct (Fs.lookup_path w path) as [[i n]|] eqn:Hlook.
    + destruct (Fs.may_chmod w n) eqn:Hmay; destruct Hmod as [Hok Hinodes];
        rewrite Hok.
      * split; [|discriminate]. split; [|reflexivity].
        intros _. split; [exact Hlen|]. exists i, n. auto.
      * split; [|auto]. split; [discriminate|].
        intros (_ & i' & n' & [=] & Hmay'). congruence.
    + destruct Hmod as [Hok Hinodes]. rewrite Hok.
      split; [|auto]. split; [discriminate|].
      intros (_ & i' & n' & [=] & _).
  - rewrite changePermissions_rejects by exact Hlen. simpl.
    split; [|auto]. split; [discriminate|]. intros [Hl _]. contradiction.
Qed.
(** ** createDirectory, createFile and deleteItem *)

Section OpsFacts.

Import Fs.

Lemma fresh_fd (w : World) : fds w !! unused_fd w = None.
Proof. unfold unused_fd. apply not_elem_of_dom, is_fresh. Qed.

Lemma fresh_ino (w : World) : inodes w !! unused_ino w = None.
Proof. unfold unused_ino. apply not_elem_of_dom, is_fresh. Qed.

(** A name with an entry below it, and a name without. *)
Lemma has_entries_true w path :
  Ops.has_entries w path = true <->
  exists q x, names w !! q = Some x /\ dirname q = path /\ q <> path.
Proof.
  unfold Ops.has_entries. rewrite existsb_exists. split.
  - intros (q & Hin & Hq). apply in_map_iff in Hin as ([q' x] & <- & Hin).
    apply list_elem_of_In, elem_of_map_to_list in Hin.
    apply andb_true_iff in Hq as [Hd Hne].
    apply String.eqb_eq in Hd. apply negb_true_iff, String.eqb_neq in Hne.
    exists q', x. auto.
  - intros (q & x & Hq & Hd & Hne). exists q. split.
    + apply in_map_iff. exists (q, x). split; [reflexivity|].
      apply list_elem_of_In, elem_of_map_to_list. exact Hq.
    + apply andb_true_iff. split; [apply String.eqb_eq, Hd|].
      apply negb_true_iff, String.eqb_neq, Hne.
Qed.

Lemma has_entries_false w path :
  Ops.has_entries w path = false <->
  forall q x, names w !! q = Some x -> dirname q = path -> q = path.
Proof.
  split.
  - intros Hf q x Hq Hd. destruct (String.eqb_spec q path) as [|Hne]; [assumption|].
    assert (Ht : Ops.has_entries w path = true)
      by (apply has_entries_true; eauto).
    congruence.
  - intros Hall. destruct (Ops.has_entries w path) eqn:E; [|reflexivity].
    apply has_entries_true in E as (q & x & Hq & Hd & Hne).
    exfalso. apply Hne. eapply Hall; eassumption.
Qed.

(** The check for making or removing a name looks at the directory part
    only. *)
Lemma may_create_ext w w' path :
  lookup_path w' (dirname path) = lookup_path w (dirname path) ->
  euid w' = euid w ->
  may_create w' path = may_create w path.
Proof.
  intros Hl He. unfold may_create. rewrite Hl.
  destruct (lookup_path w (dirname path)) as [[d nd]|]; [|reflexivity].
  unfold may_write, may. rewrite He. reflexivity.
Qed.

Lemma dirname_not_itself w path :
  names w !! path = None -> may_create w path = true -> dirname path <> path.
Proof.
  intros Hnone Hmay Heq. unfold may_create, lookup_path in Hmay.
  rewrite Heq, Hnone in Hmay. discriminate.
Qed.

(** Adding a new name with a new inode leaves the check as it was. *)
Lemma may_create_after_insert w w' path i n :
  names w !! path = None -> inodes w !! i = None ->
  may_create w path = true ->
  names w' = <[path := i]> (names w) ->
  inodes w' = <[i := n]> (inodes w) ->
  euid w' = euid w ->
  may_create w' path = true.
Proof.
  intros Hnone Hfree Hmay Hn Hi He.
  rewrite <- Hmay. apply may_create_ext; [|exact He].
  pose proof (dirname_not_itself w path Hnone Hmay) as Hne.
  unfold may_create in Hmay.
  destruct (lookup_path w (dirname path)) as [[d nd]|] eqn:Hl; [|discriminate].
  apply lookup_path_Some in Hl as [Hd Hnd].
  apply lookup_path_Some. rewrite Hn, Hi.
  rewrite lookup_insert_ne by congruence.
  rewrite lookup_insert_ne by congruence. auto.
Qed.

Lemma S_ISDIR_regular (perms : Z) :
  S_ISDIR (Z.lor S_IFREG (Z.land 420 perms)) = false.
Proof. unfold S_ISDIR. rewrite land_regular_type. reflexivity. Qed.

Lemma S_ISDIR_directory (perms : Z) :
  S_ISDIR (Z.lor S_IFDIR (Z.land 493 perms)) = true.
Proof.
  unfold S_ISDIR, S_IFDIR, S_IFMT. rewrite Z.land_lor_distr_l.
  replace (Z.land (Z.land 493 perms) 61440) with (Z.land (Z.land 493 61440) perms)
    by (rewrite <- !Z.land_assoc, (Z.land_comm perms); reflexivity).
  reflexivity.
Qed.

(** The owner may search a directory made with 0755 unless the umask takes
    the bit away. *)
Lemma owner_search_bit (um : Z) :
  Z.land um 64 = 0%Z ->
  Z.land (Z.lor S_IFDIR (Z.land 493 (Z.lnot um))) Perm.S_IXUSR <> 0%Z.
Proof.
  intros Hum Hzero.
  apply (f_equal (fun v => Z.testbit v 6)) in Hum, Hzero.
  unfold S_IFDIR, Perm.S_IXUSR in Hzero.
  rewrite Z.land_spec in Hum.
  rewrite Z.land_spec, Z.lor_spec, Z.land_spec, Z.lnot_spec in Hzero by lia.
  change (Z.testbit 64 6) with true in *.
  change (Z.testbit 16384 6) with false in *.
  change (Z.testbit 493 6) with true in *.
  change (Z.testbit 0 6) with false in *.
  rewrite andb_true_r in Hum. rewrite Hum in Hzero. discriminate.
Qed.

(** *** The calls one by one *)


Lemma createFile_missing currentPath name w :
  names w !! Str.c_str (currentPath +:+ "/" +:+ name) = None ->
  Ops.createFile currentPath name w =
  if may_create w (Str.c_str (currentPath +:+ "/" +:+ name)) then
    Ops.Reply true (Ops.FileCreated name)
      (sys_close (unused_fd w)
         (log (SysOpen (Str.c_str (currentPath +:+ "/" +:+ name)) true (Some (unused_fd w)))
            (set_fds (<[unused_fd w := OpenFile (unused_ino w) 0 true]> (fds w))
               (set_inodes
                  (<[unused_ino w :=
                       Inode (Z.lor S_IFREG (Z.land 420 (Z.lnot (umask w)))) (euid w) []]>
                     (inodes w))
                  (set_names (<[Str.c_str (currentPath +:+ "/" +:+ name) := unused_ino w]>
                                (names w)) w)))))
  else
    Ops.Reply false Ops.CannotCreateFile
      (log (SysOpen (Str.c_str (currentPath +:+ "/" +:+ name)) true None) w).
Proof.
  intros Hname. unfold Ops.createFile, Ops.sys_open_creat. rewrite Hname.
  destruct (may_create w _); reflexivity.
Qed.

Lemma createDirectory_eq currentPath name w :
  Ops.createDirectory currentPath name w =
  match names w !! Str.c_str (currentPath +:+ "/" +:+ name) with
  | Some _ => Ops.Reply false Ops.CannotCreateDirectory w
  | None =>
      if may_create w (Str.c_str (currentPath +:+ "/" +:+ name)) then
        Ops.Reply true (Ops.DirectoryCreated name)
          (set_inodes
             (<[unused_ino w :=
                  Inode (Z.lor S_IFDIR (Z.land 493 (Z.lnot (umask w)))) (euid w) []]>
                (inodes w))
             (set_names (<[Str.c_str (currentPath +:+ "/" +:+ name) := unused_ino w]>
                           (names w)) w))
      else Ops.Reply false Ops.CannotCreateDirectory w
  end.
Proof.
  unfold Ops.createDirectory, Ops.sys_mkdir.
  destruct (names w !! _); [reflexivity|].
  destruct (may_create w _); reflexivity.
Qed.

Lemma deleteItem_eq currentPath name w :
  let path := Str.c_str (currentPath +:+ "/" +:+ name) in
  Ops.deleteItem currentPath name w =
  match lookup_path w path with
  | None => Ops.Reply false Ops.ItemNotFound (log (SysStat path None) w)
  | Some (_, n) =>
      let w1 := log (SysStat path (Some (i_mode n))) w in
      if S_ISDIR (i_mode n) then
        if negb (Ops.has_entries w path) && may_create w path then
          Ops.Reply true (Ops.DirectoryDeleted name) (set_names (delete path (names w)) w1)
        else Ops.Reply false Ops.CannotDeleteDirectory w1
      else
        if may_create w path then
          Ops.Reply true (Ops.FileDeleted name) (set_names (delete path (names w)) w1)
        else Ops.Reply false Ops.CannotDeleteFile w1
  end.
Proof.
  intros path. unfold Ops.deleteItem, sys_stat. fold path.
  destruct (lookup_path w path) as [[i n]|] eqn:Hlook; [|reflexivity].
  cbn [option_map snd].
  destruct (S_ISDIR (i_mode n)) eqn:Hdir.
  - unfold Ops.sys_rmdir.
    change (lookup_path (log (SysStat path (Some (i_mode n))) w) path)
      with (lookup_path w path).
    rewrite Hlook, Hdir.
    change (Ops.has_entries (log (SysStat path (Some (i_mode n))) w) path)
      with (Ops.has_entries w path).
    change (may_create (log (SysStat path (Some (i_mode n))) w) path)
      with (may_create w path).
    cbn [andb].
    destruct (negb (Ops.has_entries w path) && may_create w path); reflexivity.
  - unfold Ops.sys_unlink.
    change (lookup_path (log (SysStat path (Some (i_mode n))) w) path)
      with (lookup_path w path).
    rewrite Hlook, Hdir.
    change (may_create (log (SysStat path (Some (i_mode n))) w) path)
      with (may_create w path).
    cbn [negb andb].
    destruct (may_create w path); reflexivity.
Qed.

End OpsFacts.



(** X19. Making a file and deleting it again: when [createFile] returns
    [true] for a name that did not exist, the file is empty and belongs to
    the user, and [deleteItem] with the same name then returns [true] with
    "File deleted" and leaves the names and the descriptors as they were
    before the file was made. *)
Theorem createFile_then_deleteItem
    (currentPath name : string) (w : Fs.World) :
  Fs.names w !! Str.c_str (currentPath +:+ "/" +:+ name) = None ->
  Ops.ok (Ops.createFile currentPath name w) = true ->
  let w1 := Ops.after (Ops.createFile currentPath name w) in
  let r := Ops.deleteItem currentPath name w1 in
  (exists i,
     Fs.inodes w !! i = None /\
     Fs.lookup_path w1 (Str.c_str (currentPath +:+ "/" +:+ name)) =
       Some (i, Fs.Inode (Z.lor Fs.S_IFREG (Z.land 420 (Z.lnot (Fs.umask w))))
                         (Fs.euid w) [])) /\
  Ops.ok r = true /\ Ops.said r = Ops.FileDeleted name /\
  Fs.names (Ops.after r) = Fs.names w /\
  Fs.fds (Ops.after r) = Fs.fds w.
Proof.
  intros Hnone Hok w1 r. subst r w1.
  set (path := Str.c_str (currentPath +:+ "/" +:+ name)) in *.
  rewrite (createFile_missing _ _ _ Hnone) in *. fold path in Hok |- *.
  destruct (Fs.may_create w path) eqn:Hmay; [|discriminate].
  set (n := Fs.Inode (Z.lor Fs.S_IFREG (Z.land 420 (Z.lnot (Fs.umask w)))) (Fs.euid w) []).
  set (w1 := Ops.after (Ops.Reply true (Ops.FileCreated name) _)).
  assert (Hn1 : Fs.names w1 = <[path := Fs.unused_ino w]> (Fs.names w)) by reflexivity.
  assert (Hi1 : Fs.inodes w1 = <[Fs.unused_ino w := n]> (Fs.inodes w)) by reflexivity.
  assert (Hf1 : Fs.fds w1 = Fs.fds w).
  { change (delete (Fs.unused_fd w)
              (<[Fs.unused_fd w := Fs.OpenFile (Fs.unused_ino w) 0 true]> (Fs.fds w))
            = Fs.fds w).
    apply delete_insert_id, fresh_fd. }
  assert (He1 : Fs.euid w1 = Fs.euid w) by reflexivity.
  assert (Hlook : Fs.lookup_path w1 path = Some (Fs.unused_ino w, n)).
  { apply lookup_path_Some. rewrite Hn1, Hi1, !lookup_insert_eq. auto. }
  assert (Hmay1 : Fs.may_create w1 path = true)
    by (eapply may_create_after_insert; eauto using fresh_ino).
  clearbody w1.
  split; [exists (Fs.unused_ino w); split; [apply fresh_ino|exact Hlook]|].
  pose proof (deleteItem_eq currentPath name w1) as Hdel. cbv zeta in Hdel.
  fold path in Hdel. rewrite Hlook in Hdel.
  unfold n in Hdel at 1. cbn [Fs.i_mode] in Hdel.
  rewrite S_ISDIR_regular, Hmay1 in Hdel. rewrite Hdel.
  split; [reflexivity|]. split; [reflexivity|]. split; [|exact Hf1].
  change (delete path (Fs.names w1) = Fs.names w).
  rewrite Hn1. apply delete_insert_id, Hnone.
Qed.

Lemma createFile_then_deleteItem_witness :
  let w1 := Ops.after (Ops.createFile "/home" "c.txt" Demo.world) in
  let r := Ops.deleteItem "/home" "c.txt" w1 in
  (exists i,
     Fs.inodes Demo.world !! i = None /\
     Fs.lookup_path w1 "/home/c.txt" = Some (i, Fs.Inode 33188 1000 [])) /\
  Ops.ok r = true /\ Ops.said r = Ops.FileDeleted "c.txt" /\
  Fs.names (Ops.after r) = Fs.names Demo.world /\
  Fs.fds (Ops.after r) = Fs.fds Demo.world.
Proof.
  apply (createFile_then_deleteItem "/home" "c.txt" Demo.world).
  - vm_compute. reflexivity.
  - vm_compute. reflexivity.
Defined.

(** The two ways a call of [createDirectory] goes in this model of
    [mkdir]. *)
Lemma createDirectory_cases
    (currentPath name : string) (w : Fs.World) :
  let path := Str.c_str (currentPath +:+ "/" +:+ name) in
  let r := Ops.createDirectory currentPath name w in
  (Ops.ok r = true <-> Fs.names w !! path = None /\ Fs.may_create w path = true) /\
  (Ops.ok r = false -> Ops.after r = w) /\
  (Ops.ok r = true ->
   exists i,
     Fs.inodes w !! i = None /\
     Fs.names (Ops.after r) = <[path := i]> (Fs.names w) /\
     Fs.inodes (Ops.after r) =
       <[i := Fs.Inode (Z.lor Fs.S_IFDIR (Z.land 493 (Z.lnot (Fs.umask w))))
                       (Fs.euid w) []]> (Fs.inodes w) /\
     Fs.fds (Ops.after r) = Fs.fds w).
Proof.
  intros path r. subst r. rewrite createDirectory_eq. fold path.
  destruct (Fs.names w !! path) as [i|] eqn:Hname.
  - split; [|split; [reflexivity|discriminate]].
    split; [discriminate|]. intros [[=] _].
  - destruct (Fs.may_create w path) eqn:Hmay.
    + split; [split; auto|]. split; [discriminate|].
      intros _. exists (Fs.unused_ino w). split; [apply fresh_ino|].
      repeat split.
    + split; [|split; [reflexivity|discriminate]].
      split; [discriminate|]. intros [_ [=]].
Qed.


(** X21. A directory that [createDirectory] has made can be entered: for a
    name other than ".." that does not start with '/', if the umask leaves
    the owner's search bit (or the user is the superuser), [changeDirectory]
    with the same name returns [true] and the cursor is the path that was
    handed to [mkdir]. *)
Theorem createDirectory_then_enter
    (currentPath name cwd : string) (w : Fs.World) :
  Ops.ok (Ops.createDirectory currentPath name w) = true ->
  name <> ".." ->
  Ascii.eqb (Str.at_ name 0) "/" = false ->
  Fs.euid w = 0%Z \/ Z.land (Fs.umask w) 64 = 0%Z ->
  let w1 := Ops.after (Ops.createDirectory currentPath name w) in
  Nav.changeDirectory (string * Fs.World) Ops.sys_chdir (cwd, w1) currentPath name =
  Nav.Outcome true (Nav.ChangedTo (currentPath +:+ "/" +:+ name))
    (currentPath +:+ "/" +:+ name)
    (Str.c_str (currentPath +:+ "/" +:+ name), w1).
Proof.
  intros Hok Hdots Hrel Hbit w1.
  pose proof (createDirectory_cases currentPath name w) as (_ & _ & Hnew).
  cbv zeta in Hnew. destruct (Hnew Hok) as (i & Hfree & Hn1 & Hi1 & _).
  fold w1 in Hn1, Hi1.
  assert (He1 : Fs.euid w1 = Fs.euid w).
  { subst w1. rewrite createDirectory_eq in Hok |- *.
    destruct (Fs.names w !! _); [discriminate|].
    destruct (Fs.may_create w _); [reflexivity|discriminate]. }
  clearbody w1.
  pose proof (newPath_relative currentPath name Hdots Hrel) as Hpath.
  rewrite <- Hpath.
  apply changeDirectory_enters. rewrite Hpath.
  set (path := Str.c_str (currentPath +:+ "/" +:+ name)) in *.
  set (n := Fs.Inode (Z.lor Fs.S_IFDIR (Z.land 493 (Z.lnot (Fs.umask w)))) (Fs.euid w) [])
    in *.
  assert (Hlook : Fs.lookup_path w1 path = Some (i, n)).
  { apply lookup_path_Some. rewrite Hn1, Hi1, !lookup_insert_eq. auto. }
  unfold Ops.sys_chdir. cbn [snd]. rewrite Hlook.
  unfold n at 1. cbn [Fs.i_mode]. rewrite S_ISDIR_directory.
  assert (Hsearch : Ops.may_search w1 n = true).
  { unfold Ops.may_search, Fs.may. rewrite He1. destruct Hbit as [Hroot|Hum].
    - rewrite Hroot. reflexivity.
    - apply orb_true_iff. right. unfold n. cbn [Fs.i_mode Fs.i_uid].
      rewrite Z.eqb_refl. apply negb_true_iff, Z.eqb_neq.
      apply owner_search_bit, Hum. }
  rewrite Hsearch. reflexivity.
Qed.

Lemma createDirectory_then_enter_witness :
  let w1 := Ops.after (Ops.createDirectory "/home" "d" Demo.world) in
  Nav.changeDirectory (string * Fs.World) Ops.sys_chdir ("/home", w1) "/home" "d" =
  Nav.Outcome true (Nav.ChangedTo "/home/d") "/home/d" ("/home/d", w1).
Proof.
  apply (createDirectory_then_enter "/home" "d" "/home" Demo.world).
  - vm_compute. reflexivity.
  - discriminate.
  - reflexivity.
  - right. reflexivity.
Defined.

(** X22. The value that [deleteItem] returns can be relied on: when it
    returns [true] the path resolved before the call and does not resolve
    after it; when it returns [false] no name has been removed; and in
    both cases the descriptors are as before. *)
Theorem deleteItem_reports_removal
    (currentPath name : string) (w : Fs.World) :
  let path := Str.c_str (currentPath +:+ "/" +:+ name) in
  let r := Ops.deleteItem currentPath name w in
  (Ops.ok r = true ->
   Fs.lookup_path w path <> None /\ Fs.lookup_path (Ops.after r) path = None) /\
  (Ops.ok r = false -> Fs.names (Ops.after r) = Fs.names w) /\
  Fs.fds (Ops.after r) = Fs.fds w.
Proof.
  intros path r. subst r.
  pose proof (deleteItem_eq currentPath name w) as Hdel. cbv zeta in Hdel.
  fold path in Hdel. rewrite Hdel. clear Hdel.
  assert (Hgone : forall e,
    let w2 := Fs.set_names (delete path (Fs.names w)) (Fs.log e w) in
    Fs.lookup_path w path <> None ->
    (true = true -> Fs.lookup_path w path <> None /\ Fs.lookup_path w2 path = None) /\
    (true = false -> Fs.names w2 = Fs.names w) /\
    Fs.fds w2 = Fs.fds w).
  { intros e w2 Hex. subst w2. split; [|split; [discriminate|reflexivity]].
    intros _. split; [exact Hex|].
    unfold Fs.lookup_path.
    change (Fs.names (Fs.set_names (delete path (Fs.names w)) (Fs.log e w)))
      with (delete path (Fs.names w)).
    rewrite lookup_delete_eq. reflexivity. }
  assert (Hkept : forall e,
    let w2 := Fs.log e w in
    (false = true -> Fs.lookup_path w path <> None /\ Fs.lookup_path w2 path = None) /\
    (false = false -> Fs.names w2 = Fs.names w) /\
    Fs.fds w2 = Fs.fds w).
  { intros e w2. subst w2. split; [discriminate|]. split; reflexivity. }
  destruct (Fs.lookup_path w path) as [[i n]|] eqn:Hlook; [|apply Hkept].
  assert (Hex : Some (i, n) <> None) by discriminate.
  cbv zeta.
  destruct (Fs.S_ISDIR (Fs.i_mode n)).
  - destruct (negb (Ops.has_entries w path) && Fs.may_create w path);
      [apply Hgone, Hex|apply Hkept].
  - destruct (Fs.may_create w path); [apply Hgone, Hex|apply Hkept].
Qed.

(** X23. A directory that has an entry is not deleted: [deleteItem] on it
    returns [false] with "Cannot delete directory (may not be empty)" and
    all names are as before. *)
Theorem deleteItem_nonempty_directory
    (currentPath name : string) (w : Fs.World) (i x : nat) (n : Fs.inode)
    (q : string) :
  let path := Str.c_str (currentPath +:+ "/" +:+ name) in
  Fs.lookup_path w path = Some (i, n) ->
  Fs.S_ISDIR (Fs.i_mode n) = true ->
  Fs.names w !! q = Some x -> Fs.dirname q = path -> q <> path ->
  let r := Ops.deleteItem currentPath name w in
  Ops.ok r = false /\ Ops.said r = Ops.CannotDeleteDirectory /\
  Fs.names (Ops.after r) = Fs.names w.
Proof.
  intros path Hlook Hdir Hq Hd Hne r. subst r.
  pose proof (deleteItem_eq currentPath name w) as Hdel. cbv zeta in Hdel.
  fold path in Hdel. rewrite Hdel, Hlook, Hdir.
  assert (Hent : Ops.has_entries w path = true)
    by (apply has_entries_true; eauto).
  rewrite Hent. repeat split.
Qed.

Lemma deleteItem_nonempty_directory_witness :
  let r := Ops.deleteItem EmptyString "home" Demo.world in
  Ops.ok r = false /\ Ops.said r = Ops.CannotDeleteDirectory /\
  Fs.names (Ops.after r) = Fs.names Demo.world.
Proof.
  apply (deleteItem_nonempty_directory EmptyString "home" Demo.world 1 2 Demo.home
           "/home/a.txt").
  - vm_compute. reflexivity.
  - vm_compute. reflexivity.
  - vm_compute. reflexivity.
  - vm_compute. reflexivity.
  - discriminate.
Defined.

(** X24. Making a directory and deleting it again: when [createDirectory]
    returns [true] and no name of the world lay below the new path,
    [deleteItem] with the same name returns [true] with "Directory deleted"
    and the names are those from before the directory was made. *)
Theorem createDirectory_then_deleteItem
    (currentPath name : string) (w : Fs.World) :
  let path := Str.c_str (currentPath +:+ "/" +:+ name) in
  Ops.ok (Ops.createDirectory currentPath name w) = true ->
  Ops.has_entries w path = false ->
  let r := Ops.deleteItem currentPath name
             (Ops.after (Ops.createDirectory currentPath name w)) in
  Ops.ok r = true /\ Ops.said r = Ops.DirectoryDeleted name /\
  Fs.names (Ops.after r) = Fs.names w.
Proof.
  intros path Hok Hempty r. subst r.
  pose proof (createDirectory_cases currentPath name w) as (Hiff & _ & Hnew).
  cbv zeta in Hiff, Hnew. fold path in Hiff, Hnew.
  apply Hiff in Hok as Hpre. destruct Hpre as [Hnone Hmay].
  destruct (Hnew Hok) as (i & Hfree & Hn1 & Hi1 & _).
  set (w1 := Ops.after (Ops.createDirectory currentPath name w)) in *.
  assert (He1 : Fs.euid w1 = Fs.euid w).
  { subst w1. rewrite createDirectory_eq. fold path. rewrite Hnone, Hmay. reflexivity. }
  clearbody w1.
  set (n := Fs.Inode (Z.lor Fs.S_IFDIR (Z.land 493 (Z.lnot (Fs.umask w)))) (Fs.euid w) [])
    in *.
  assert (Hlook : Fs.lookup_path w1 path = Some (i, n)).
  { apply lookup_path_Some. rewrite Hn1, Hi1, !lookup_insert_eq. auto. }
  assert (Hmay1 : Fs.may_create w1 path = true)
    by (eapply may_create_after_insert; eauto).
  assert (Hempty1 : Ops.has_entries w1 path = false).
  { apply has_entries_false. intros q x Hq Hd.
    destruct (String.eqb_spec q path) as [|Hne]; [assumption|].
    rewrite Hn1, lookup_insert_ne in Hq by congruence.
    rewrite has_entries_false in Hempty. eapply Hempty; eassumption. }
  pose proof (deleteItem_eq currentPath name w1) as Hdel. cbv zeta in Hdel.
  fold path in Hdel. rewrite Hlook in Hdel.
  unfold n in Hdel at 1. cbn [Fs.i_mode] in Hdel.
  rewrite S_ISDIR_directory, Hempty1, Hmay1 in Hdel. rewrite Hdel.
  split; [reflexivity|]. split; [reflexivity|].
  change (delete path (Fs.names w1) = Fs.names w).
  rewrite Hn1. apply delete_insert_id, Hnone.
Qed.

Lemma createDirectory_then_deleteItem_witness :
  let r := Ops.deleteItem "/home" "d"
             (Ops.after (Ops.createDirectory "/home" "d" Demo.world)) in
  Ops.ok r = true /\ Ops.said r = Ops.DirectoryDeleted "d" /\
  Fs.names (Ops.after r) = Fs.names Demo.world.
Proof.
  apply (createDirectory_then_deleteItem "/home" "d" Demo.world).
  - vm_compute. reflexivity.
  - vm_compute. reflexivity.
Defined.
(** ** Directories that cannot be opened *)

Lemma readdir_loop_ext (self1 self2 : string -> string -> Search.walk -> option Search.walk) :
  (forall p pat w, self1 p pat w = self2 p pat w) ->
  forall entries path pattern w,
    Search.readdir_loop self1 path pattern entries w =
    Search.readdir_loop self2 path pattern entries w.
Proof.
  intros Hself. induction entries as [|entry rest IH]; intros path pattern w;
    [reflexivity|].
  simpl. destruct (Search.is_dot (Search.d_name entry)); [apply IH|].
  destruct (Search.dtype_eqb (Search.d_type entry) Search.DT_DIR); [|apply IH].
  rewrite Hself. destruct (self2 _ pattern _); [apply IH|reflexivity].
Qed.

Lemma search_unreadable_as_empty
    (opendir : string -> option (list Search.dirent)) (fuel : nat) :
  forall path pattern w,
    Search.searchInDirectory opendir fuel path pattern w =
    Search.searchInDirectory (Report.unreadable_as_empty opendir) fuel path pattern w.
Proof.
  induction fuel as [|fuel IH]; intros path pattern w; [reflexivity|].
  simpl. unfold Report.unreadable_as_empty at 1.
  destruct (opendir (Str.c_str path)) as [entries|]; [|reflexivity].
  apply readdir_loop_ext. exact IH.
Qed.

(** X25. The search is silent about directories it cannot open: the walk
    and the report of [searchFiles] are the same as on a kernel where each
    such directory, the start directory included, opens and is empty.  No
    output tells an unreadable directory from an empty one. *)
Theorem searchFiles_silent_on_unreadable
    (opendir : string -> option (list Search.dirent)) (fuel : nat)
    (currentPath pattern : string) :
  Search.searchInDirectory opendir fuel currentPath pattern Search.start =
    Search.searchInDirectory (Report.unreadable_as_empty opendir) fuel
      currentPath pattern Search.start /\
  Report.searchFiles opendir fuel currentPath pattern =
    Report.searchFiles (Report.unreadable_as_empty opendir) fuel currentPath pattern.
Proof.
  split; [apply search_unreadable_as_empty|].
  unfold Report.searchFiles. rewrite <- search_unreadable_as_empty. reflexivity.
Qed.
